(** * POET: a shallow embedding of the control engine of [src/poet.c]

    The engine is a three-stage feedback controller: a Kalman filter
    estimating the base workload, a pole-placement controller producing a
    target multiplier ("xup"), and a translator that searches the table of
    system states for the best pair of states and a time division between
    them.  Every C function of [poet.c] is transcribed below as a function
    on an explicit engine state; the callbacks, the environment variables
    and the allocator are inputs of the model, and the calls made to the
    apply callback and the rows printed to the log are its outputs. *)

From Stdlib Require Import ZArith QArith Qround Bool String List Lia Lqa.
Import ListNotations.
Local Open Scope Z_scope.

(** ** The numeric kernel ([poet_math.h])

    [poet.c] is written against the scalar type [real_t] and the macros of
    [poet_math.h], which selects a floating point or a fixed point
    representation at compile time.  The engine is generic in that choice,
    and so is this development: the type and the macros the engine uses
    are the parameters of an interface.  [radd], [rsub], [rneg], [rlt] and
    [rle] stand for the C operators [+], [-], unary [-], [<] and [<=] at
    type [real_t] ([a > b] is [rlt b a], [a >= b] is [rle b a]);
    [real_of_int] is the implicit conversion C applies when an [int]
    constant is stored in a [real_t]; [ONE_BILLION] is
    [CONST(1000000000.0)]. *)
Class RealKernel : Type := {
  real_t : Type;
  R_ZERO : real_t;
  R_ONE : real_t;
  BIG_REAL_T : real_t;
  ONE_BILLION : real_t;
  radd : real_t -> real_t -> real_t;
  rsub : real_t -> real_t -> real_t;
  rneg : real_t -> real_t;
  mult : real_t -> real_t -> real_t;
  div : real_t -> real_t -> real_t;
  mult3 : real_t -> real_t -> real_t -> real_t;
  mult4 : real_t -> real_t -> real_t -> real_t -> real_t;
  rlt : real_t -> real_t -> bool;
  rle : real_t -> real_t -> bool;
  int_to_real : Z -> real_t;
  real_to_int : real_t -> Z;
  real_of_int : Z -> real_t
}.

Declare Scope real_scope.
Delimit Scope real_scope with real.
Notation "a + b" := (radd a b) : real_scope.
Notation "a - b" := (rsub a b) : real_scope.
Notation "- a" := (rneg a) : real_scope.
Notation "a <? b" := (rlt a b) : real_scope.
Notation "a <=? b" := (rle a b) : real_scope.
Notation "a >? b" := (rlt b a) : real_scope.
Notation "a >=? b" := (rle b a) : real_scope.

(** ** The tuning constants ([poet_constants.h])

    The noise constants [Q] and [R] of the filter, the poles, the zero and
    the robustness constant of the controller, the start values and the
    two floors [U_MIN_SPEEDUP] and [U_MIN_COST] are compile-time constants
    of the engine; they are parameters here. *)
Class PoetConstants {K : RealKernel} : Type := {
  CURRENT_ACTION_START : Z;
  X_HAT_MINUS_START : real_t;
  X_HAT_START : real_t;
  P_MINUS_START : real_t;
  H_START : real_t;
  K_START : real_t;
  P_START : real_t;
  E_START : real_t;
  EO_START : real_t;
  Q : real_t;
  R : real_t;
  P1 : real_t;
  P2 : real_t;
  Z1 : real_t;
  MU : real_t;
  U_MIN_SPEEDUP : real_t;
  U_MIN_COST : real_t
}.

(** Laws of a kernel whose comparisons form a total order (no NaN): they
    hold of a fixed point representation and of exact arithmetic. *)
Class RealOrder (K : RealKernel) : Prop := {
  rlt_rle : forall a b : real_t, rlt a b = negb (rle b a);
  rle_total : forall a b : real_t, rle a b = true \/ rle b a = true;
  rle_trans : forall a b c : real_t,
      rle a b = true -> rle b c = true -> rle a c = true
}.

(** The floors are "small": at most one. *)
Class SmallFloors {K : RealKernel} (C : PoetConstants) : Prop := {
  U_MIN_SPEEDUP_le_1 : rle U_MIN_SPEEDUP R_ONE = true;
  U_MIN_COST_le_1 : rle U_MIN_COST R_ONE = true
}.

(** ** Data types *)

(** The tradeoff type of [poet.h]. *)
Inductive poet_tradeoff_type_t : Type := PERFORMANCE | POWER.

(** The environment variables read by [getenv]: [true] when set. *)
Record environment : Type := {
  POET_DISABLE_CONTROL : bool;
  POET_DISABLE_APPLY : bool;
  POET_DISABLE_IDLE : bool
}.

(** [unsigned long long]: the conversion of an integer wraps modulo 2^64. *)
Definition to_ull (z : Z) : Z := z mod 2 ^ 64.

(** The range of [int]. *)
Definition INT_MIN : Z := -2147483648.
Definition INT_MAX : Z := 2147483647.

(** [int], as the result of [real_to_int]: the conversion of an
    integer-valued [real_t].  For a value outside the range of [int] the
    conversion is undefined in C; the model yields [INT_MIN] there, which
    is what the conversion instruction of x86 produces. *)
Definition to_int (z : Z) : Z :=
  if (INT_MIN <=? z)%Z && (z <=? INT_MAX)%Z then z else INT_MIN.

(** [unsigned int]: the conversion of an [int] wraps modulo 2^32. *)
Definition to_uint (z : Z) : Z := z mod 4294967296.

(** Storing an [unsigned int] in an [int]: above [INT_MAX] the result is
    implementation-defined; gcc and clang wrap modulo 2^32. *)
Definition uint_to_int (z : Z) : Z :=
  if (z <=? INT_MAX)%Z then z else (z - 4294967296)%Z.

(** The action counter as the source computes it,
    [(current_action + 1) % period]: the sum is taken in [int] (its
    overflow is undefined in C, and wraps here), converted to
    [unsigned int] for the remainder by the [unsigned int] period, and the
    remainder is stored in the [int] field. *)
Definition next_action (current_action period : Z) : Z :=
  uint_to_int (to_uint (current_action + 1) mod period).

Section Engine.

Context {K : RealKernel} {PC : PoetConstants}.
Local Open Scope real_scope.

(** An entry of the table of system states ([poet_control_state_t]). *)
Record poet_control_state_t : Type := {
  speedup : real_t;
  cost : real_t;
  idle_partner_id : Z
}.

(** State of the Kalman filter used in [estimate_base_workload]. *)
Record filter_state : Type := {
  x_hat_minus : real_t;
  x_hat : real_t;
  p_minus : real_t;
  h : real_t;
  k : real_t;
  p : real_t
}.

(** Old speedup/powerup values and old errors. *)
Record calc_xup_state : Type := {
  u : real_t;
  uo : real_t;
  uoo : real_t;
  e : real_t;
  eo : real_t;
  umin : real_t;
  umax : real_t
}.

(** A log record. *)
Record poet_record : Type := {
  lr_tag : Z;
  lr_constraint : poet_tradeoff_type_t;
  lr_act_rate : real_t;
  lr_act_power : real_t;
  lr_pfs : filter_state;
  lr_scs : calc_xup_state;
  lr_cfs : filter_state;
  lr_pcs : calc_xup_state;
  lr_time_workload : real_t;
  lr_energy_workload : real_t;
  lr_lower_id : Z;
  lr_upper_id : Z;
  lr_low_state_iters : Z;
  lr_idle_ns : Z
}.

(** [struct poet_internal_state].  [log_file] and [apply] record whether
    the pointer is non-null; a slot of the log buffer [lb] is [None] until
    it is first written; [apply_states] is the opaque handle passed through
    to the callbacks. *)
Record poet_state : Type := {
  log_file : bool;
  buffer_depth : Z;
  lb : list (option poet_record);
  constraint : poet_tradeoff_type_t;
  constraint_goal : real_t;
  pfs : filter_state;
  cfs : filter_state;
  scs : calc_xup_state;
  pcs : calc_xup_state;
  current_action : Z;
  lower_id : Z;
  upper_id : Z;
  last_id : Z;
  low_state_iters : Z;
  period : Z;
  idle_ns : Z;
  cost_estimate : real_t;
  cost_xup_estimate : real_t;
  num_system_states : Z;
  apply : bool;
  control_states : list poet_control_state_t;
  apply_states : Z;
  is_first_apply : Z
}.

(** Field assignments. *)
Definition set_x_hat_minus (v : real_t) (s : filter_state) : filter_state :=
  {| x_hat_minus := v; x_hat := x_hat s; p_minus := p_minus s; h := h s; k := k s; p := p s |}.

Definition set_x_hat (v : real_t) (s : filter_state) : filter_state :=
  {| x_hat_minus := x_hat_minus s; x_hat := v; p_minus := p_minus s; h := h s; k := k s; p := p s |}.

Definition set_p_minus (v : real_t) (s : filter_state) : filter_state :=
  {| x_hat_minus := x_hat_minus s; x_hat := x_hat s; p_minus := v; h := h s; k := k s; p := p s |}.

Definition set_h (v : real_t) (s : filter_state) : filter_state :=
  {| x_hat_minus := x_hat_minus s; x_hat := x_hat s; p_minus := p_minus s; h := v; k := k s; p := p s |}.

Definition set_k (v : real_t) (s : filter_state) : filter_state :=
  {| x_hat_minus := x_hat_minus s; x_hat := x_hat s; p_minus := p_minus s; h := h s; k := v; p := p s |}.

Definition set_p (v : real_t) (s : filter_state) : filter_state :=
  {| x_hat_minus := x_hat_minus s; x_hat := x_hat s; p_minus := p_minus s; h := h s; k := k s; p := v |}.

Definition set_u (v : real_t) (s : calc_xup_state) : calc_xup_state :=
  {| u := v; uo := uo s; uoo := uoo s; e := e s; eo := eo s; umin := umin s; umax := umax s |}.

Definition set_uo (v : real_t) (s : calc_xup_state) : calc_xup_state :=
  {| u := u s; uo := v; uoo := uoo s; e := e s; eo := eo s; umin := umin s; umax := umax s |}.

Definition set_uoo (v : real_t) (s : calc_xup_state) : calc_xup_state :=
  {| u := u s; uo := uo s; uoo := v; e := e s; eo := eo s; umin := umin s; umax := umax s |}.

Definition set_e (v : real_t) (s : calc_xup_state) : calc_xup_state :=
  {| u := u s; uo := uo s; uoo := uoo s; e := v; eo := eo s; umin := umin s; umax := umax s |}.

Definition set_eo (v : real_t) (s : calc_xup_state) : calc_xup_state :=
  {| u := u s; uo := uo s; uoo := uoo s; e := e s; eo := v; umin := umin s; umax := umax s |}.

Definition set_umin (v : real_t) (s : calc_xup_state) : calc_xup_state :=
  {| u := u s; uo := uo s; uoo := uoo s; e := e s; eo := eo s; umin := v; umax := umax s |}.

Definition set_umax (v : real_t) (s : calc_xup_state) : calc_xup_state :=
  {| u := u s; uo := uo s; uoo := uoo s; e := e s; eo := eo s; umin := umin s; umax := v |}.

Definition set_lb (v : list (option poet_record)) (s : poet_state) : poet_state :=
  {| log_file := log_file s; buffer_depth := buffer_depth s; lb := v; constraint := constraint s; constraint_goal := constraint_goal s; pfs := pfs s; cfs := cfs s; scs := scs s; pcs := pcs s; current_action := current_action s; lower_id := lower_id s; upper_id := upper_id s; last_id := last_id s; low_state_iters := low_state_iters s; period := period s; idle_ns := idle_ns s; cost_estimate := cost_estimate s; cost_xup_estimate := cost_xup_estimate s; num_system_states := num_system_states s; apply := apply s; control_states := control_states s; apply_states := apply_states s; is_first_apply := is_first_apply s |}.

Definition set_constraint (v : poet_tradeoff_type_t) (s : poet_state) : poet_state :=
  {| log_file := log_file s; buffer_depth := buffer_depth s; lb := lb s; constraint := v; constraint_goal := constraint_goal s; pfs := pfs s; cfs := cfs s; scs := scs s; pcs := pcs s; current_action := current_action s; lower_id := lower_id s; upper_id := upper_id s; last_id := last_id s; low_state_iters := low_state_iters s; period := period s; idle_ns := idle_ns s; cost_estimate := cost_estimate s; cost_xup_estimate := cost_xup_estimate s; num_system_states := num_system_states s; apply := apply s; control_states := control_states s; apply_states := apply_states s; is_first_apply := is_first_apply s |}.

Definition set_constraint_goal (v : real_t) (s : poet_state) : poet_state :=
  {| log_file := log_file s; buffer_depth := buffer_depth s; lb := lb s; constraint := constraint s; constraint_goal := v; pfs := pfs s; cfs := cfs s; scs := scs s; pcs := pcs s; current_action := current_action s; lower_id := lower_id s; upper_id := upper_id s; last_id := last_id s; low_state_iters := low_state_iters s; period := period s; idle_ns := idle_ns s; cost_estimate := cost_estimate s; cost_xup_estimate := cost_xup_estimate s; num_system_states := num_system_states s; apply := apply s; control_states := control_states s; apply_states := apply_states s; is_first_apply := is_first_apply s |}.

Definition set_pfs (v : filter_state) (s : poet_state) : poet_state :=
  {| log_file := log_file s; buffer_depth := buffer_depth s; lb := lb s; constraint := constraint s; constraint_goal := constraint_goal s; pfs := v; cfs := cfs s; scs := scs s; pcs := pcs s; current_action := current_action s; lower_id := lower_id s; upper_id := upper_id s; last_id := last_id s; low_state_iters := low_state_iters s; period := period s; idle_ns := idle_ns s; cost_estimate := cost_estimate s; cost_xup_estimate := cost_xup_estimate s; num_system_states := num_system_states s; apply := apply s; control_states := control_states s; apply_states := apply_states s; is_first_apply := is_first_apply s |}.

Definition set_cfs (v : filter_state) (s : poet_state) : poet_state :=
  {| log_file := log_file s; buffer_depth := buffer_depth s; lb := lb s; constraint := constraint s; constraint_goal := constraint_goal s; pfs := pfs s; cfs := v; scs := scs s; pcs := pcs s; current_action := current_action s; lower_id := lower_id s; upper_id := upper_id s; last_id := last_id s; low_state_iters := low_state_iters s; period := period s; idle_ns := idle_ns s; cost_estimate := cost_estimate s; cost_xup_estimate := cost_xup_estimate s; num_system_states := num_system_states s; apply := apply s; control_states := control_states s; apply_states := apply_states s; is_first_apply := is_first_apply s |}.

Definition set_scs (v : calc_xup_state) (s : poet_state) : poet_state :=
  {| log_file := log_file s; buffer_depth := buffer_depth s; lb := lb s; constraint := constraint s; constraint_goal := constraint_goal s; pfs := pfs s; cfs := cfs s; scs := v; pcs := pcs s; current_action := current_action s; lower_id := lower_id s; upper_id := upper_id s; last_id := last_id s; low_state_iters := low_state_iters s; period := period s; idle_ns := idle_ns s; cost_estimate := cost_estimate s; cost_xup_estimate := cost_xup_estimate s; num_system_states := num_system_states s; apply := apply s; control_states := control_states s; apply_states := apply_states s; is_first_apply := is_first_apply s |}.

Definition set_pcs (v : calc_xup_state) (s : poet_state) : poet_state :=
  {| log_file := log_file s; buffer_depth := buffer_depth s; lb := lb s; constraint := constraint s; constraint_goal := constraint_goal s; pfs := pfs s; cfs := cfs s; scs := scs s; pcs := v; current_action := current_action s; lower_id := lower_id s; upper_id := upper_id s; last_id := last_id s; low_state_iters := low_state_iters s; period := period s; idle_ns := idle_ns s; cost_estimate := cost_estimate s; cost_xup_estimate := cost_xup_estimate s; num_system_states := num_system_states s; apply := apply s; control_states := control_states s; apply_states := apply_states s; is_first_apply := is_first_apply s |}.

Definition set_current_action (v : Z) (s : poet_state) : poet_state :=
  {| log_file := log_file s; buffer_depth := buffer_depth s; lb := lb s; constraint := constraint s; constraint_goal := constraint_goal s; pfs := pfs s; cfs := cfs s; scs := scs s; pcs := pcs s; current_action := v; lower_id := lower_id s; upper_id := upper_id s; last_id := last_id s; low_state_iters := low_state_iters s; period := period s; idle_ns := idle_ns s; cost_estimate := cost_estimate s; cost_xup_estimate := cost_xup_estimate s; num_system_states := num_system_states s; apply := apply s; control_states := control_states s; apply_states := apply_states s; is_first_apply := is_first_apply s |}.

Definition set_lower_id (v : Z) (s : poet_state) : poet_state :=
  {| log_file := log_file s; buffer_depth := buffer_depth s; lb := lb s; constraint := constraint s; constraint_goal := constraint_goal s; pfs := pfs s; cfs := cfs s; scs := scs s; pcs := pcs s; current_action := current_action s; lower_id := v; upper_id := upper_id s; last_id := last_id s; low_state_iters := low_state_iters s; period := period s; idle_ns := idle_ns s; cost_estimate := cost_estimate s; cost_xup_estimate := cost_xup_estimate s; num_system_states := num_system_states s; apply := apply s; control_states := control_states s; apply_states := apply_states s; is_first_apply := is_first_apply s |}.

Definition set_upper_id (v : Z) (s : poet_state) : poet_state :=
  {| log_file := log_file s; buffer_depth := buffer_depth s; lb := lb s; constraint := constraint s; constraint_goal := constraint_goal s; pfs := pfs s; cfs := cfs s; scs := scs s; pcs := pcs s; current_action := current_action s; lower_id := lower_id s; upper_id := v; last_id := last_id s; low_state_iters := low_state_iters s; period := period s; idle_ns := idle_ns s; cost_estimate := cost_estimate s; cost_xup_estimate := cost_xup_estimate s; num_system_states := num_system_states s; apply := apply s; control_states := control_states s; apply_states := apply_states s; is_first_apply := is_first_apply s |}.

Definition set_last_id (v : Z) (s : poet_state) : poet_state :=
  {| log_file := log_file s; buffer_depth := buffer_depth s; lb := lb s; constraint := constraint s; constraint_goal := constraint_goal s; pfs := pfs s; cfs := cfs s; scs := scs s; pcs := pcs s; current_action := current_action s; lower_id := lower_id s; upper_id := upper_id s; last_id := v; low_state_iters := low_state_iters s; period := period s; idle_ns := idle_ns s; cost_estimate := cost_estimate s; cost_xup_estimate := cost_xup_estimate s; num_system_states := num_system_states s; apply := apply s; control_states := control_states s; apply_states := apply_states s; is_first_apply := is_first_apply s |}.

Definition set_low_state_iters (v : Z) (s : poet_state) : poet_state :=
  {| log_file := log_file s; buffer_depth := buffer_depth s; lb := lb s; constraint := constraint s; constraint_goal := constraint_goal s; pfs := pfs s; cfs := cfs s; scs := scs s; pcs := pcs s; current_action := current_action s; lower_id := lower_id s; upper_id := upper_id s; last_id := last_id s; low_state_iters := v; period := period s; idle_ns := idle_ns s; cost_estimate := cost_estimate s; cost_xup_estimate := cost_xup_estimate s; num_system_states := num_system_states s; apply := apply s; control_states := control_states s; apply_states := apply_states s; is_first_apply := is_first_apply s |}.

Definition set_idle_ns (v : Z) (s : poet_state) : poet_state :=
  {| log_file := log_file s; buffer_depth := buffer_depth s; lb := lb s; constraint := constraint s; constraint_goal := constraint_goal s; pfs := pfs s; cfs := cfs s; scs := scs s; pcs := pcs s; current_action := current_action s; lower_id := lower_id s; upper_id := upper_id s; last_id := last_id s; low_state_iters := low_state_iters s; period := period s; idle_ns := v; cost_estimate := cost_estimate s; cost_xup_estimate := cost_xup_estimate s; num_system_states := num_system_states s; apply := apply s; control_states := control_states s; apply_states := apply_states s; is_first_apply := is_first_apply s |}.

Definition set_cost_estimate (v : real_t) (s : poet_state) : poet_state :=
  {| log_file := log_file s; buffer_depth := buffer_depth s; lb := lb s; constraint := constraint s; constraint_goal := constraint_goal s; pfs := pfs s; cfs := cfs s; scs := scs s; pcs := pcs s; current_action := current_action s; lower_id := lower_id s; upper_id := upper_id s; last_id := last_id s; low_state_iters := low_state_iters s; period := period s; idle_ns := idle_ns s; cost_estimate := v; cost_xup_estimate := cost_xup_estimate s; num_system_states := num_system_states s; apply := apply s; control_states := control_states s; apply_states := apply_states s; is_first_apply := is_first_apply s |}.

Definition set_cost_xup_estimate (v : real_t) (s : poet_state) : poet_state :=
  {| log_file := log_file s; buffer_depth := buffer_depth s; lb := lb s; constraint := constraint s; constraint_goal := constraint_goal s; pfs := pfs s; cfs := cfs s; scs := scs s; pcs := pcs s; current_action := current_action s; lower_id := lower_id s; upper_id := upper_id s; last_id := last_id s; low_state_iters := low_state_iters s; period := period s; idle_ns := idle_ns s; cost_estimate := cost_estimate s; cost_xup_estimate := v; num_system_states := num_system_states s; apply := apply s; control_states := control_states s; apply_states := apply_states s; is_first_apply := is_first_apply s |}.

Definition set_is_first_apply (v : Z) (s : poet_state) : poet_state :=
  {| log_file := log_file s; buffer_depth := buffer_depth s; lb := lb s; constraint := constraint s; constraint_goal := constraint_goal s; pfs := pfs s; cfs := cfs s; scs := scs s; pcs := pcs s; current_action := current_action s; lower_id := lower_id s; upper_id := upper_id s; last_id := last_id s; low_state_iters := low_state_iters s; period := period s; idle_ns := idle_ns s; cost_estimate := cost_estimate s; cost_xup_estimate := cost_xup_estimate s; num_system_states := num_system_states s; apply := apply s; control_states := control_states s; apply_states := apply_states s; is_first_apply := v |}.


(** ** Helpers for C constructs *)

(** [for (i = 0; i < n; i++) body] on an accumulated state. *)
Definition for_loop {A : Type} (n : Z) (body : Z -> A -> A) (a : A) : A :=
  fold_left (fun acc i => body (Z.of_nat i) acc) (seq 0 (Z.to_nat n)) a.

(** [control_states[id]].  Reading outside the table is undefined in C; the
    model returns an all-zero entry there. *)
Definition null_control_state : poet_control_state_t :=
  {| speedup := R_ZERO; cost := R_ZERO; idle_partner_id := 0 |}.

Definition state_at (cs : list poet_control_state_t) (id : Z)
  : poet_control_state_t :=
  if (id <? 0)%Z then null_control_state
  else nth (Z.to_nat id) cs null_control_state.

(** [l[n] = v]; a store outside the buffer (undefined in C) is dropped. *)
Fixpoint list_set {A : Type} (l : list A) (n : nat) (v : A) : list A :=
  match l, n with
  | [], _ => []
  | _ :: t, O => v :: t
  | a :: t, S m => a :: list_set t m v
  end.

(** ** The Kalman filter *)

(** [estimate_base_workload]: returns the workload and the updated filter. *)
Definition estimate_base_workload (current_workload last_xup : real_t)
    (state : filter_state) : real_t * filter_state :=
  let state := set_x_hat_minus (x_hat state) state in
  let state := set_p_minus (p state + Q) state in
  let state := set_h last_xup state in
  let state := set_k (div (mult (p_minus state) (h state))
                          (mult3 (h state) (p_minus state) (h state) + R))
                     state in
  let state := set_x_hat (x_hat_minus state +
                          mult (k state)
                               (current_workload - mult (h state) (x_hat_minus state)))
                         state in
  let state := set_p (mult (R_ONE - mult (k state) (h state)) (p_minus state))
                     state in
  let _w := div R_ONE (x_hat state) in
  (_w, state).

(** ** The xup controller *)

Definition coeff_A : real_t :=
  - (- mult P1 Z1 - mult P2 Z1 + mult3 MU P1 P2 - mult MU P2 + P2
     - mult MU P1 + P1 + MU).

Definition coeff_B : real_t :=
  - (- mult4 MU P1 P2 Z1 + mult3 P1 P2 Z1 + mult3 MU P2 Z1 + mult3 MU P1 Z1
     - mult MU Z1 - mult P1 P2).

Definition coeff_C (w : real_t) : real_t :=
  mult (mult (MU - mult MU P1) P2 + mult MU P1 - MU) w.

Definition coeff_D (w : real_t) : real_t :=
  mult3 (mult (mult MU P1 - MU) P2 - mult MU P1 + MU) w Z1.

Definition coeff_F : real_t := div R_ONE (Z1 - R_ONE).

(** [calculate_xup]: the speedup or powerup necessary to reach the target
    rate. *)
Definition calculate_xup (current_rate desired_rate w : real_t)
    (state : calc_xup_state) : calc_xup_state :=
  let A := coeff_A in
  let B := coeff_B in
  let C := coeff_C w in
  let D := coeff_D w in
  let F := coeff_F in
  let state := set_e (desired_rate - current_rate) state in
  let state := set_u (mult F (mult A (uo state) + mult B (uoo state)
                              + mult C (e state) + mult D (eo state)))
                     state in
  let state := if u state <? umin state then set_u (umin state) state
               else state in
  let state := if u state >? umax state then set_u (umax state) state
               else state in
  let state := set_uoo (uo state) state in
  let state := set_uo (u state) state in
  let state := set_eo (e state) state in
  state.

(** [calculate_cost_xup]: configure the controller of the other dimension. *)
Definition calculate_cost_xup (state : poet_state) : poet_state :=
  let seed (xup_state : calc_xup_state) : calc_xup_state :=
    let xup_state := set_uoo (uo xup_state) xup_state in
    let xup_state := set_u (cost_xup_estimate state) xup_state in
    let xup_state := set_uo (u xup_state) xup_state in
    let xup_state := set_e E_START xup_state in
    let xup_state := set_eo EO_START xup_state in
    xup_state in
  match constraint state with
  | POWER => set_scs (seed (scs state)) state
  | PERFORMANCE => set_pcs (seed (pcs state)) state
  end.

(** ** The time division *)

(** The locals [low_state_iters], [idle_ns], [cost] and [cost_xup] that
    [calculate_time_division] computes for the pair ([lower_id],
    [upper_id]) of the engine.  The first two are declared [real_t] in the
    source but only hold integers: integer constants and results of
    [real_to_int], which are [int]s ([to_int]).  The final stores convert
    them to the [int] field [low_state_iters], which is exact, and to the
    [unsigned long long] field [idle_ns] ([to_ull]). *)
Definition time_division (state : poet_state) (workload : real_t)
  : Z * Z * real_t * real_t :=
  let cs := control_states state in
  let partner_id := idle_partner_id (state_at cs (lower_id state)) in
  let lo := state_at cs (lower_id state) in
  let pa := state_at cs partner_id in
  let up := state_at cs (upper_id state) in
  let '(lower_xup, partner_xup, upper_xup,
        lower_xup_cost, partner_xup_cost, upper_xup_cost, target_xup) :=
    match constraint state with
    | POWER =>
        (cost lo, cost pa, cost up, speedup lo, speedup pa, speedup up,
         u (pcs state))
    | PERFORMANCE =>
        (speedup lo, speedup pa, speedup up, cost lo, cost pa, cost up,
         u (scs state))
    end in
  let r_period := int_to_real (period state) in
  if lower_xup <? R_ONE then
      (* this is an idle state *)
      let hybrid_xup := div (mult target_xup upper_xup)
                            (mult r_period (upper_xup - target_xup) + target_xup) in
      if hybrid_xup >=? partner_xup then
        (0%Z, 0%Z, mult (div r_period upper_xup) upper_xup_cost, upper_xup_cost)
      else
        let '(x, hybrid_xup_cost) :=
          if lower_xup <=? R_ZERO then
            let x := R_ONE - div hybrid_xup partner_xup in
            (x, mult x lower_xup_cost + mult (R_ONE - x) partner_xup_cost)
          else
            let x := div (mult lower_xup (hybrid_xup - partner_xup))
                         (mult hybrid_xup (lower_xup - partner_xup)) in
            (x, mult (div x lower_xup) lower_xup_cost
                + mult (div (R_ONE - x) partner_xup) partner_xup_cost) in
        let idle_sec := mult workload
                             (div R_ONE hybrid_xup - div x partner_xup) in
        (1%Z,
         to_int (real_to_int (mult idle_sec ONE_BILLION)),
         mult (div R_ONE hybrid_xup) hybrid_xup_cost
         + mult (div (r_period - R_ONE) upper_xup) upper_xup_cost,
         div (hybrid_xup_cost + mult (r_period - R_ONE) upper_xup_cost) r_period)
    else
      let r_low_state_iters :=
        if (upper_xup <=? lower_xup) && (upper_xup >=? lower_xup) then R_ZERO
        else
          let x := div (mult upper_xup lower_xup - mult target_xup lower_xup)
                       (mult upper_xup target_xup - mult target_xup lower_xup) in
          mult r_period x in
      let low_state_iters_ := to_int (real_to_int r_low_state_iters) in
      let r_low_state_iters := int_to_real low_state_iters_ in
      (low_state_iters_, 0%Z,
       mult (div r_low_state_iters lower_xup) lower_xup_cost
       + mult (div (r_period - r_low_state_iters) upper_xup) upper_xup_cost,
       div (mult r_low_state_iters lower_xup_cost
            + mult (r_period - r_low_state_iters) upper_xup_cost) r_period).

(** [calculate_time_division]: calculate the time division between the two
    system configuration states, and store it in the engine. *)
Definition calculate_time_division (state : poet_state) (workload : real_t)
  : poet_state :=
  let '(low_state_iters_, idle_ns_, cost_, cost_xup_) :=
    time_division state workload in
  let state := set_low_state_iters low_state_iters_ state in
  let state := set_idle_ns (to_ull idle_ns_) state in
  let state := set_cost_estimate cost_ state in
  let state := set_cost_xup_estimate cost_xup_ state in
  state.

Definition get_control_xup (state : poet_state) (id : Z) : real_t :=
  match constraint state with
  | POWER => cost (state_at (control_states state) id)
  | PERFORMANCE => speedup (state_at (control_states state) id)
  end.

(** ** The pair search *)

(** The locals of [translate_n2_with_time] that remember the best pair. *)
Record best_pair : Type := {
  best_cost : real_t;
  best_cost_xup : real_t;
  best_lower_id : Z;
  best_upper_id : Z;
  best_low_state_iters : Z;
  best_idle_ns : Z
}.

(** The body of the inner loop, for the upper state [i] and the lower
    state [j]. *)
Definition lower_loop_body (disable_idle : bool) (workload target_xup : real_t)
    (i j : Z) (sb : poet_state * best_pair) : poet_state * best_pair :=
  let (state, best) := sb in
  let lower_xup := get_control_xup state j in
  if (lower_xup >? target_xup) || ((lower_xup <? R_ONE) && disable_idle)
  then (state, best)
  else
    let state := set_lower_id j state in
    let state := calculate_time_division state workload in
    let is_best :=
      match constraint state with
      | POWER => cost_estimate state >? best_cost best
      | PERFORMANCE => cost_estimate state <? best_cost best
      end in
    let best :=
      if is_best then
        {| best_cost := cost_estimate state;
           best_cost_xup := cost_xup_estimate state;
           best_lower_id := j;
           best_upper_id := i;
           best_low_state_iters := low_state_iters state;
           best_idle_ns := idle_ns state |}
      else best in
    (set_idle_ns 0 state, best).

(** The body of the outer loop, for the upper state [i]. *)
Definition upper_loop_body (disable_idle : bool) (workload target_xup : real_t)
    (i : Z) (sb : poet_state * best_pair) : poet_state * best_pair :=
  let (state, best) := sb in
  let upper_xup := get_control_xup state i in
  if (upper_xup <? target_xup) || (upper_xup <? R_ONE)
  then (state, best)
  else
    let state := set_upper_id i state in
    for_loop (num_system_states state)
             (lower_loop_body disable_idle workload target_xup i)
             (state, best).

Definition search_target (state : poet_state) : real_t :=
  match constraint state with
  | POWER => u (pcs state)
  | PERFORMANCE => u (scs state)
  end.

Definition search_seed (state : poet_state) : best_pair :=
  {| best_cost := match constraint state with
                  | POWER => R_ZERO
                  | PERFORMANCE => BIG_REAL_T
                  end;
     best_cost_xup := real_of_int (-1);
     best_lower_id := -1;
     best_upper_id := -1;
     best_low_state_iters := -1;
     best_idle_ns := 0 |}.

(** [translate_n2_with_time]: check all pairs of states that can achieve
    the target and choose the pair with the best cost. *)
Definition translate_n2_with_time (env : environment) (state : poet_state)
    (workload : real_t) : poet_state :=
  let disable_idle := POET_DISABLE_IDLE env in
  let target_xup := search_target state in
  let best := search_seed state in
  let (state, best) :=
    for_loop (num_system_states state)
             (upper_loop_body disable_idle workload target_xup)
             (state, best) in
  let state := set_lower_id (best_lower_id best) state in
  let state := set_upper_id (best_upper_id best) state in
  let state := set_low_state_iters (best_low_state_iters best) state in
  let state := set_idle_ns (best_idle_ns best) state in
  let state := set_cost_estimate (best_cost best) state in
  let state := set_cost_xup_estimate (best_cost_xup best) state in
  state.

(** ** Telemetry *)

(** A row printed to the log file: the constraint name printed is the
    engine's current one, the other columns come from the buffered record. *)
Definition log_row : Type := (poet_tradeoff_type_t * option poet_record)%type.

(** [logger]: store a record in the ring buffer and print the whole buffer
    when its last slot has been written.  Returns the engine (with the
    updated buffer) and the rows printed. *)
Definition logger (state : poet_state) (id : Z)
    (act_rate act_power time_workload energy_workload : real_t)
  : poet_state * list log_row :=
  if log_file state then
    let index := ((id / period state) mod buffer_depth state)%Z in
    let rec :=
      {| lr_tag := id;
         lr_constraint := constraint state;
         lr_act_rate := act_rate;
         lr_act_power := act_power;
         lr_pfs := pfs state;
         lr_scs := scs state;
         lr_cfs := cfs state;
         lr_pcs := pcs state;
         lr_time_workload := time_workload;
         lr_energy_workload := energy_workload;
         lr_lower_id := lower_id state;
         lr_upper_id := upper_id state;
         lr_low_state_iters := low_state_iters state;
         lr_idle_ns := idle_ns state |} in
    let state := set_lb (list_set (lb state) (Z.to_nat index) (Some rec)) state in
    if (index =? buffer_depth state - 1)%Z then
      (state,
       for_loop (buffer_depth state)
                (fun i rows =>
                   rows ++ [(constraint state, nth (Z.to_nat i) (lb state) None)])
                [])
    else (state, [])
  else (state, []).

(** ** The control step *)

(** The arguments of one call of the apply callback. *)
Record apply_call : Type := {
  ac_apply_states : Z;
  ac_num_states : Z;
  ac_id : Z;
  ac_last_id : Z;
  ac_idle_ns : Z;
  ac_is_first_apply : Z
}.

(** What one call of [poet_apply_control] does to the outside. *)
Record effects : Type := {
  applied : option apply_call;
  printed : list log_row
}.

Definition no_effects : effects := {| applied := None; printed := [] |}.

(** The planning done at a period boundary, up to and including the pair
    search: both filters, the controller of the constrained dimension, and
    [translate_n2_with_time].  Returns the engine with the two workloads. *)
Definition plan_period (env : environment) (state : poet_state)
    (perf pwr : real_t) : poet_state * real_t * real_t :=
  let (time_workload, f) :=
    estimate_base_workload perf (u (scs state)) (pfs state) in
  let state := set_pfs f state in
  let (energy_workload, f) :=
    estimate_base_workload pwr (u (pcs state)) (cfs state) in
  let state := set_cfs f state in
  let (state, workload) :=
    match constraint state with
    | POWER =>
        (set_pcs (calculate_xup pwr (constraint_goal state) energy_workload
                                (pcs state)) state,
         energy_workload)
    | PERFORMANCE =>
        (set_scs (calculate_xup perf (constraint_goal state) time_workload
                                (scs state)) state,
         time_workload)
    end in
  let state := translate_n2_with_time env state workload in
  (state, time_workload, energy_workload).

(** The choice of the configuration to apply: [-1] stands for none. *)
Definition select_config (state : poet_state) : Z * poet_state :=
  if (0 <? low_state_iters state)%Z then
    (lower_id state, set_low_state_iters (low_state_iters state - 1)%Z state)
  else if (0 <=? upper_id state)%Z then (upper_id state, state)
  else ((-1)%Z, state).

(** The last part of [poet_apply_control]: call the apply callback when the
    configuration changes. *)
Definition dispatch (env : environment) (config_id : Z) (state : poet_state)
  : poet_state * option apply_call :=
  if (0 <=? config_id)%Z
     && (negb (config_id =? last_id state)%Z || (0 <? is_first_apply state)%Z)
  then
    let (state, call) :=
      if apply state && negb (POET_DISABLE_APPLY env) then
        (set_is_first_apply 0 state,
         Some {| ac_apply_states := apply_states state;
                 ac_num_states := num_system_states state;
                 ac_id := config_id;
                 ac_last_id := last_id state;
                 ac_idle_ns := idle_ns state;
                 ac_is_first_apply := is_first_apply state |})
      else (state, None) in
    let state := set_last_id config_id state in
    (* only allow idle once per period *)
    let state := set_idle_ns 0 state in
    (state, call)
  else (state, None).

(** [poet_apply_control]: runs the decision engine and requests system
    changes.  The engine pointer may be null ([None]).

    The action counter is an [int] and the period an [unsigned int]
    ([next_action]).  For a counter in [0, period) and a period of at most
    [INT_MAX], which is the range in which [poet_init] and this function
    keep it, no step of that computation overflows and its result is
    [(current_action + 1) mod period]; the model computes the latter.  For
    a larger period the sum [current_action + 1] overflows once the counter
    has reached [INT_MAX], which is undefined in C. *)
Definition poet_apply_control (env : environment) (state : option poet_state)
    (id : Z) (perf pwr : real_t) : option poet_state * effects :=
  match state with
  | None => (None, no_effects)
  | Some state =>
      if POET_DISABLE_CONTROL env then (Some state, no_effects)
      else
        let (state, rows) :=
          if (current_action state =? 0)%Z then
            let '(state, time_workload, energy_workload) :=
              plan_period env state perf pwr in
            let state := calculate_cost_xup state in
            logger state id perf pwr time_workload energy_workload
          else (state, []) in
        let (config_id, state) := select_config state in
        let (state, call) := dispatch env config_id state in
        let state :=
          set_current_action ((current_action state + 1) mod period state)%Z
                             state in
        (Some state, {| applied := call; printed := rows |})
  end.

(** ** Construction and reconfiguration *)

(** What the allocator and the file system answer during [poet_init]. *)
Record resources : Type := {
  malloc_state_ok : bool;
  malloc_lb_ok : bool;
  fopen_ok : bool
}.

(** The result of [poet_init]: a null pointer with [errno] set to [EINVAL]
    by [poet_init] itself, a null pointer after a failed allocation or
    [fopen], or an engine. *)
Inductive init_result : Type :=
| Null_EINVAL
| Null_resource
| Engine (state : poet_state).

Definition is_null {A : Type} (o : option A) : bool :=
  match o with None => true | Some _ => false end.

(** The body of the loop of [poet_init] that computes the minimum and
    maximum speedup and powerup. *)
Definition min_max_body (i : Z) (state : poet_state) : poet_state :=
  let speedup_ := speedup (state_at (control_states state) i) in
  let cost_ := cost (state_at (control_states state) i) in
  let state :=
    if speedup_ <? umin (scs state) then
      set_scs (set_umin (if speedup_ <? U_MIN_SPEEDUP then U_MIN_SPEEDUP
                         else speedup_) (scs state)) state
    else state in
  let state :=
    if speedup_ >=? umax (scs state) then
      set_scs (set_umax speedup_ (scs state)) state
    else state in
  let state :=
    if cost_ <=? umin (pcs state) then
      set_pcs (set_umin (if cost_ <? U_MIN_COST then U_MIN_COST else cost_)
                        (pcs state)) state
    else state in
  let state :=
    if cost_ >=? umax (pcs state) then
      set_pcs (set_umax cost_ (pcs state)) state
    else state in
  state.

(** [poet_init]: allocates and initializes a new engine.  [control_states]
    is [None] for a null table; [apply] tells whether the apply callback is
    non-null; [current] is [None] for a null callback and otherwise the
    pair of the value the callback returns and the state id it stores.
    The header row printed to a freshly opened log file is left out. *)
Definition poet_init (res : resources)
    (goal : real_t)
    (constraint_ : poet_tradeoff_type_t)
    (num_system_states_ : Z)
    (control_states_ : option (list poet_control_state_t))
    (apply_states_ : Z)
    (apply_ : bool)
    (current : option (Z * Z))
    (period_ : Z)
    (buffer_depth_ : Z)
    (log_filename : option string) : init_result :=
  if (goal <=? R_ZERO) || (num_system_states_ =? 0)%Z
     || is_null control_states_ || (period_ =? 0)%Z
     || ((buffer_depth_ =? 0)%Z && negb (is_null log_filename))
  then Null_EINVAL
  else if negb (malloc_state_ok res) then Null_resource
  else if (0 <? buffer_depth_)%Z && negb (malloc_lb_ok res) then Null_resource
  else if negb (is_null log_filename) && negb (fopen_ok res) then Null_resource
  else
    let table := match control_states_ with Some t => t | None => [] end in
    let last_id_ :=
      match current with
      | None => (num_system_states_ - 1)%Z
      | Some (ret, id) =>
          if (ret =? 0)%Z then id else (num_system_states_ - 1)%Z
      end in
    let filter0 :=
      {| x_hat_minus := X_HAT_MINUS_START; x_hat := X_HAT_START;
         p_minus := P_MINUS_START; h := H_START; k := K_START;
         p := P_START |} in
    let xup0 (v : real_t) :=
      {| u := v; uo := v; uoo := v; e := E_START; eo := EO_START;
         umin := R_ONE; umax := R_ONE |} in
    let state :=
      {| log_file := negb (is_null log_filename);
         buffer_depth := buffer_depth_;
         lb := repeat None (Z.to_nat buffer_depth_);
         constraint := constraint_;
         constraint_goal := goal;
         pfs := filter0;
         cfs := filter0;
         scs := xup0 (speedup (state_at table last_id_));
         pcs := xup0 (cost (state_at table last_id_));
         current_action := CURRENT_ACTION_START;
         lower_id := -1;
         upper_id := -1;
         last_id := last_id_;
         low_state_iters := 0;
         period := period_;
         idle_ns := 0;
         cost_estimate := R_ZERO;
         cost_xup_estimate := R_ZERO;
         num_system_states := num_system_states_;
         apply := apply_;
         control_states := table;
         apply_states := apply_states_;
         is_first_apply := 1 |} in
    Engine (for_loop (num_system_states state) min_max_body state).

(** [poet_set_constraint_type]: change the constraint at runtime. *)
Definition poet_set_constraint_type (state : option poet_state)
    (constraint_ : poet_tradeoff_type_t) (goal : real_t) : option poet_state :=
  match state with
  | Some s =>
      if goal >? R_ZERO then
        Some (set_constraint_goal goal (set_constraint constraint_ s))
      else Some s
  | None => None
  end.

End Engine.

(** ** Running the engine *)

Section Runs.

Context {K : RealKernel} {PC : PoetConstants}.

(** One call of [poet_apply_control] by the host. *)
Record call : Type := {
  c_env : environment;
  c_id : Z;
  c_perf : real_t;
  c_pwr : real_t
}.

(** A sequence of calls on a (non-null) engine, with the effects of each. *)
Fixpoint run (state : option poet_state) (calls : list call)
  : option poet_state * list effects :=
  match calls with
  | [] => (state, [])
  | c :: rest =>
      let (state, fx) :=
        poet_apply_control (c_env c) state (c_id c) (c_perf c) (c_pwr c) in
      let (state, fxs) := run state rest in
      (state, fx :: fxs)
  end.

(** The engines a host can hold: the results of [poet_init], followed by
    calls of [poet_apply_control] and [poet_set_constraint_type]. *)
Inductive reachable : poet_state -> Prop :=
| reach_init : forall res goal c n cs ast ap cur per bd lf s,
    poet_init res goal c n cs ast ap cur per bd lf = Engine s ->
    reachable s
| reach_apply : forall env s id perf pwr s',
    reachable s ->
    fst (poet_apply_control env (Some s) id perf pwr) = Some s' ->
    reachable s'
| reach_set : forall s c goal s',
    reachable s ->
    poet_set_constraint_type (Some s) c goal = Some s' ->
    reachable s'.

(** The controller of the constrained dimension. *)
Definition active_controller (state : poet_state) : calc_xup_state :=
  match constraint state with
  | POWER => pcs state
  | PERFORMANCE => scs state
  end.

(** The engine as the pair search finds it at a period boundary: both
    filters and the controller of the constrained dimension are updated
    (the part of [plan_period] that precedes [translate_n2_with_time]). *)
Definition before_search (state : poet_state) (perf pwr : real_t)
  : poet_state :=
  let tw := estimate_base_workload perf (u (scs state)) (pfs state) in
  let ew := estimate_base_workload pwr (u (pcs state)) (cfs state) in
  let updated := set_cfs (snd ew) (set_pfs (snd tw) state) in
  match constraint state with
  | POWER =>
      set_pcs (calculate_xup pwr (constraint_goal state) (fst ew) (pcs state))
              updated
  | PERFORMANCE =>
      set_scs (calculate_xup perf (constraint_goal state) (fst tw) (scs state))
              updated
  end.

(** The part of [poet_apply_control] that follows the planning: the choice
    of the configuration, the apply callback and the action counter. *)
Definition finish (env : environment) (state : poet_state)
  : poet_state * option apply_call :=
  let (config_id, state) := select_config state in
  let (state, call) := dispatch env config_id state in
  (set_current_action ((current_action state + 1) mod period state)%Z state,
   call).

(** The workload handed to the pair search. *)
Definition search_workload (state : poet_state) (perf pwr : real_t) : real_t :=
  match constraint state with
  | POWER => fst (estimate_base_workload pwr (u (pcs state)) (cfs state))
  | PERFORMANCE => fst (estimate_base_workload perf (u (scs state)) (pfs state))
  end.

(** The engine after the planning of a period boundary. *)
Definition planned (env : environment) (state : poet_state)
    (perf pwr : real_t) : poet_state :=
  fst (fst (plan_period env state perf pwr)).

End Runs.

(** ** Specifications *)

Section Specification.

Context {K : RealKernel} {PC : PoetConstants}.
Local Open Scope real_scope.

(** The filter update as the recurrence
    [x_hat_minus = x_hat; p_minus = p + Q; h = u_prev;
     k = (p_minus h) / (h p_minus h + R);
     x_hat = x_hat_minus + k (y - h x_hat_minus); p = (1 - k h) p_minus]. *)
Definition kalman_spec (y u_prev : real_t) (f : filter_state) : filter_state :=
  let x_hat_minus' := x_hat f in
  let p_minus' := p f + Q in
  let h' := u_prev in
  let k' := div (mult p_minus' h') (mult3 h' p_minus' h' + R) in
  let x_hat' := x_hat_minus' + mult k' (y - mult h' x_hat_minus') in
  let p' := mult (R_ONE - mult k' h') p_minus' in
  {| x_hat_minus := x_hat_minus'; x_hat := x_hat'; p_minus := p_minus';
     h := h'; k := k'; p := p' |}.

(** Clamping to a range: raise to [lo], then lower to [hi]. *)
Definition clamp (lo hi v : real_t) : real_t :=
  let v := if v <? lo then lo else v in
  if v >? hi then hi else v.

(** One controller step as the specification words it. *)
Definition xup_spec (current desired w : real_t) (c : calc_xup_state)
  : calc_xup_state :=
  let e' := desired - current in
  let A := - (- mult P1 Z1 - mult P2 Z1 + mult3 MU P1 P2 - mult MU P2 + P2
              - mult MU P1 + P1 + MU) in
  let B := - (- mult4 MU P1 P2 Z1 + mult3 P1 P2 Z1 + mult3 MU P2 Z1
              + mult3 MU P1 Z1 - mult MU Z1 - mult P1 P2) in
  let C := mult (mult (MU - mult MU P1) P2 + mult MU P1 - MU) w in
  let D := mult3 (mult (mult MU P1 - MU) P2 - mult MU P1 + MU) w Z1 in
  let F := div R_ONE (Z1 - R_ONE) in
  let u' := clamp (umin c) (umax c)
                  (mult F (mult A (uo c) + mult B (uoo c) + mult C e'
                           + mult D (eo c))) in
  {| u := u'; uo := u'; uoo := uo c; e := e'; eo := e';
     umin := umin c; umax := umax c |}.

(** The state ids [0 .. n-1], in the order of a [for] loop. *)
Definition ids (n : Z) : list Z := map Z.of_nat (seq 0 (Z.to_nat n)).

(** The pairs (upper, lower) in the order in which the two nested loops of
    the pair search visit them. *)
Definition pairs (n : Z) : list (Z * Z) :=
  flat_map (fun i => map (pair i) (ids n)) (ids n).

Definition upper_ok (state : poet_state) (i : Z) : bool :=
  negb ((get_control_xup state i <? search_target state)
        || (get_control_xup state i <? R_ONE)).

Definition lower_ok (env : environment) (state : poet_state) (j : Z) : bool :=
  negb ((get_control_xup state j >? search_target state)
        || ((get_control_xup state j <? R_ONE) && POET_DISABLE_IDLE env)).

(** The pairs the search considers, in order. *)
Definition candidates (env : environment) (state : poet_state)
  : list (Z * Z) :=
  filter (fun ij => upper_ok state (fst ij) && lower_ok env state (snd ij))
         (pairs (num_system_states state)).

(** The time division of the pair (upper [i], lower [j]). *)
Definition plan_pair (state : poet_state) (workload : real_t) (ij : Z * Z)
  : Z * Z * real_t * real_t :=
  time_division (set_lower_id (snd ij) (set_upper_id (fst ij) state)) workload.

Definition pair_cost (state : poet_state) (workload : real_t) (ij : Z * Z)
  : real_t :=
  snd (fst (plan_pair state workload ij)).

(** [better state a b]: the cost [a] is strictly better than [b]: lower
    under a performance constraint, higher under a power constraint. *)
Definition better (state : poet_state) (a b : real_t) : bool :=
  match constraint state with
  | POWER => a >? b
  | PERFORMANCE => a <? b
  end.

(** What the search remembers of a retained pair. *)
Definition retained (state : poet_state) (workload : real_t) (ij : Z * Z)
  : best_pair :=
  let '(iters, idle, c, cx) := plan_pair state workload ij in
  {| best_cost := c; best_cost_xup := cx;
     best_lower_id := snd ij; best_upper_id := fst ij;
     best_low_state_iters := iters; best_idle_ns := to_ull idle |}.

Definition consider (state : poet_state) (workload : real_t)
    (best : best_pair) (ij : Z * Z) : best_pair :=
  if better state (pair_cost state workload ij) (best_cost best)
  then retained state workload ij else best.

(** The search as a selection over the list of candidates. *)
Definition search (env : environment) (state : poet_state) (workload : real_t)
  : best_pair :=
  fold_left (consider state workload) (candidates env state)
            (search_seed state).

(** Storing the result of the search in the engine. *)
Definition store_best (best : best_pair) (state : poet_state) : poet_state :=
  set_cost_xup_estimate (best_cost_xup best)
    (set_cost_estimate (best_cost best)
       (set_idle_ns (best_idle_ns best)
          (set_low_state_iters (best_low_state_iters best)
             (set_upper_id (best_upper_id best)
                (set_lower_id (best_lower_id best) state))))).

(** Forgetting the schedule and the cost estimates: two engines with the
    same [frame] differ at most in those six fields. *)
Definition frame (state : poet_state) : poet_state :=
  set_cost_xup_estimate R_ZERO
    (set_cost_estimate R_ZERO
       (set_idle_ns 0
          (set_low_state_iters 0
             (set_upper_id 0 (set_lower_id 0 state))))).

(** Flooring at a small constant. *)
Definition floor_at (c v : real_t) : real_t := if v <? c then c else v.

(** [m] is a least, respectively greatest, element of [l]. *)
Definition is_min_of (m : real_t) (l : list real_t) : Prop :=
  In m l /\ forall x, In x l -> rle m x = true.

Definition is_max_of (m : real_t) (l : list real_t) : Prop :=
  In m l /\ forall x, In x l -> rle x m = true.

(** The ranges of both controllers are least and greatest elements over the
    entries [seen]: the range of the speedup controller over one and the
    speedups, that of the powerup controller over one and the costs, the
    lower ends being taken after flooring. *)
Definition ranges_over (seen : list poet_control_state_t) (s : poet_state)
  : Prop :=
  is_min_of (umin (scs s))
            (R_ONE :: map (fun en => floor_at U_MIN_SPEEDUP (speedup en)) seen)
  /\ is_max_of (umax (scs s)) (R_ONE :: map speedup seen)
  /\ is_min_of (umin (pcs s))
               (R_ONE :: map (fun en => floor_at U_MIN_COST (cost en)) seen)
  /\ is_max_of (umax (pcs s)) (R_ONE :: map cost seen).

(** The range as the specification words it: [umin] is the minimum of the
    non-zero values, floored by the constant; [umax] is the maximum. *)
Definition nonzero (x : real_t) : bool := negb ((x <=? R_ZERO) && (R_ZERO <=? x)).

Fixpoint list_min (l : list real_t) : option real_t :=
  match l with
  | [] => None
  | x :: rest =>
      match list_min rest with
      | None => Some x
      | Some m => Some (if x <? m then x else m)
      end
  end.

Fixpoint list_max (l : list real_t) : option real_t :=
  match l with
  | [] => None
  | x :: rest =>
      match list_max rest with
      | None => Some x
      | Some m => Some (if m <? x then x else m)
      end
  end.

Definition spec_umin (c : real_t) (values : list real_t) : option real_t :=
  option_map (floor_at c) (list_min (filter nonzero values)).

Definition spec_umax (values : list real_t) : option real_t := list_max values.

(** The entries of the table that [poet_init] reads. *)
Definition entries (table : list poet_control_state_t) (n : Z)
  : list poet_control_state_t :=
  map (state_at table) (ids n).

(** The constructor's precondition as the specification words it. *)
Definition spec_precondition (goal : real_t) (n : Z)
    (cs : option (list poet_control_state_t)) (per bd : Z)
    (lf : option string) : Prop :=
  rlt R_ZERO goal = true /\ (0 < n)%Z /\ cs <> None /\ (0 < per)%Z
  /\ (bd = 0%Z \/ lf <> None).

(** The condition under which [poet_init] rejects its arguments. *)
Definition rejected (goal : real_t) (n : Z)
    (cs : option (list poet_control_state_t)) (per bd : Z)
    (lf : option string) : Prop :=
  rle goal R_ZERO = true \/ n = 0%Z \/ cs = None \/ per = 0%Z
  \/ (bd = 0%Z /\ lf <> None).

End Specification.

(** ** Exact arithmetic *)

(** [real_to_int] of the exact kernel: truncation towards zero. *)
Definition Qtrunc (q : QArith_base.Q) : Z := Z.quot (Qnum q) (Zpos (Qden q)).

(** Modelled from the spec: the numeric kernel of [poet_math.h], which the
    specification describes as a scalar type (floating or fixed point) with
    [mul], [div], [add], [sub], a conversion from integers and a truncating
    conversion to integers.  This instance takes [real_t] to be the
    rationals with exact operations, the arithmetic in which the formulas
    of the filter, the controller and the planner are derived; it has no
    rounding, no overflow and no NaN, division by zero yields zero, and
    [BIG_REAL_T] is 2^1023. *)
#[export] Instance exact_kernel : RealKernel := {|
  real_t := QArith_base.Q;
  R_ZERO := 0%Q;
  R_ONE := 1%Q;
  BIG_REAL_T := inject_Z (2 ^ 1023);
  ONE_BILLION := inject_Z 1000000000;
  radd := Qplus;
  rsub := Qminus;
  rneg := Qopp;
  mult := Qmult;
  div := Qdiv;
  mult3 := fun a b c => (a * b * c)%Q;
  mult4 := fun a b c d => (a * b * c * d)%Q;
  rlt := fun a b => negb (Qle_bool b a);
  rle := Qle_bool;
  int_to_real := inject_Z;
  real_to_int := Qtrunc;
  real_of_int := inject_Z
|}.

(** Modelled from the spec: the constants of [poet_constants.h], of which
    the specification says that [Q] and [R] are compile-time constants with
    [R > 0], that the filter starts from well-defined constants with
    [p > 0], and that the floors are small and positive.  These sample
    values make a deadbeat controller (both poles and the zero at the
    origin, [MU = 1]); they are used to run the engine on concrete
    inputs. *)
Definition sample_constants : @PoetConstants exact_kernel := {|
  CURRENT_ACTION_START := 0;
  X_HAT_MINUS_START := 0%Q;
  X_HAT_START := (1 # 5)%Q;
  P_MINUS_START := 0%Q;
  H_START := 0%Q;
  K_START := 0%Q;
  P_START := 1%Q;
  E_START := 0%Q;
  EO_START := 0%Q;
  Q := (1 # 100000)%Q;
  R := (1 # 100)%Q;
  P1 := 0%Q;
  P2 := 0%Q;
  Z1 := 0%Q;
  MU := 1%Q;
  U_MIN_SPEEDUP := (1 # 1000)%Q;
  U_MIN_COST := (1 # 1000)%Q
|}.

(** Sample inputs. *)
Definition env_unset : environment :=
  {| POET_DISABLE_CONTROL := false; POET_DISABLE_APPLY := false;
     POET_DISABLE_IDLE := false |}.

Definition env_no_idle : environment :=
  {| POET_DISABLE_CONTROL := false; POET_DISABLE_APPLY := false;
     POET_DISABLE_IDLE := true |}.

Definition env_no_control : environment :=
  {| POET_DISABLE_CONTROL := true; POET_DISABLE_APPLY := false;
     POET_DISABLE_IDLE := false |}.

Definition all_ok : resources :=
  {| malloc_state_ok := true; malloc_lb_ok := true; fopen_ok := true |}.

Definition entry (s c : QArith_base.Q) (partner : Z)
  : @poet_control_state_t exact_kernel :=
  {| speedup := s; cost := c; idle_partner_id := partner |}.

(** A single state that halves the speed at unit cost. *)
Definition slow_table : list (@poet_control_state_t exact_kernel) :=
  [entry (1 # 2) 1 0].

(** A single state of unit speed at half the cost. *)
Definition cheap_table : list (@poet_control_state_t exact_kernel) :=
  [entry 1 (1 # 2) 0].

(** A single state that doubles speed and cost. *)
Definition fast_table : list (@poet_control_state_t exact_kernel) :=
  [entry 2 2 0].

(** Two states: unit speed at half the cost, double speed at double cost. *)
Definition two_table : list (@poet_control_state_t exact_kernel) :=
  [entry 1 (1 # 2) 1; entry 2 2 1].

(** ** Dispatch, runs and resources: further definitions *)

Section Dispatch.

Context {K : RealKernel} {PC : PoetConstants}.

(** The configuration the dispatcher chooses ([-1]: none). *)
Definition chosen_config (state : poet_state) : Z := fst (select_config state).

(** The test under which [poet_apply_control] moves to [config_id]. *)
Definition dispatches (state : poet_state) (config_id : Z) : bool :=
  (0 <=? config_id)%Z
  && (negb (config_id =? last_id state)%Z || (0 <? is_first_apply state)%Z).

(** The engine whose schedule a call dispatches from: the planning result
    at a period boundary, the engine itself inside a period. *)
Definition scheduled (env : environment) (state : poet_state)
    (perf pwr : real_t) : poet_state :=
  if (current_action state =? 0)%Z then planned env state perf pwr else state.

(** The environment with [POET_DISABLE_APPLY] set. *)
Definition with_apply_disabled (env : environment) : environment :=
  {| POET_DISABLE_CONTROL := POET_DISABLE_CONTROL env;
     POET_DISABLE_APPLY := true;
     POET_DISABLE_IDLE := POET_DISABLE_IDLE env |}.

(** What the host configured at [poet_init]. *)
Definition configuration (state : poet_state) :=
  (log_file state, buffer_depth state, period state,
   num_system_states state, apply state, control_states state,
   apply_states state,
   (umin (scs state), umax (scs state), umin (pcs state), umax (pcs state))).

(** The controller of the dimension that is not constrained. *)
Definition inactive_controller (state : poet_state) : calc_xup_state :=
  match constraint state with
  | POWER => scs state
  | PERFORMANCE => pcs state
  end.

(** The calls of a run that are not cut short by [POET_DISABLE_CONTROL]. *)
Definition enabled_calls (calls : list call) : list call :=
  filter (fun c => negb (POET_DISABLE_CONTROL (c_env c))) calls.

(** The calls made to the apply callback during a run, in order. *)
Definition apply_calls (fxs : list effects) : list apply_call :=
  flat_map (fun fx => match applied fx with
                      | Some c => [c]
                      | None => []
                      end) fxs.

(** The schedule names no state outside the table. *)
Definition schedule_in_table (state : poet_state) : Prop :=
  (upper_id state = (-1)%Z /\ (low_state_iters state <= 0)%Z)
  \/ ((0 <= lower_id state < num_system_states state)%Z
      /\ (0 <= upper_id state < num_system_states state)%Z).

(** The record [logger] stores for a call. *)
Definition log_record (state : poet_state) (id : Z)
    (act_rate act_power time_workload energy_workload : real_t)
  : poet_record :=
  {| lr_tag := id;
     lr_constraint := constraint state;
     lr_act_rate := act_rate;
     lr_act_power := act_power;
     lr_pfs := pfs state;
     lr_scs := scs state;
     lr_cfs := cfs state;
     lr_pcs := pcs state;
     lr_time_workload := time_workload;
     lr_energy_workload := energy_workload;
     lr_lower_id := lower_id state;
     lr_upper_id := upper_id state;
     lr_low_state_iters := low_state_iters state;
     lr_idle_ns := idle_ns state |}.

(** The slot of the ring buffer that the call with tag [id] writes. *)
Definition log_index (state : poet_state) (id : Z) : Z :=
  ((id / period state) mod buffer_depth state)%Z.

(** The fields a call reads but planning and logging leave alone. *)
Definition host_fields (state : poet_state) :=
  (last_id state, is_first_apply state, current_action state,
   constraint state, constraint_goal state,
   (log_file state, buffer_depth state, period state,
    num_system_states state, apply state, control_states state,
    apply_states state)).

(** The schedule and the estimates that planning computes. *)
Definition schedule_fields (state : poet_state) :=
  (lower_id state, upper_id state, low_state_iters state, idle_ns state,
   cost_estimate state, cost_xup_estimate state).

(** The state of both filters and both controllers. *)
Definition control_fields (state : poet_state) :=
  (pfs state, cfs state, scs state, pcs state).

(** The fields of a fresh engine that the range loop of [poet_init]
    leaves alone. *)
Definition fresh_fields (state : poet_state) :=
  (host_fields state, schedule_fields state, pfs state, cfs state, lb state,
   (u (scs state), uo (scs state), uoo (scs state), e (scs state),
    eo (scs state)),
   (u (pcs state), uo (pcs state), uoo (pcs state), e (pcs state),
    eo (pcs state))).

(** The apply calls of a run that carry an idle time. *)
Definition idle_calls (fxs : list effects) : list apply_call :=
  filter (fun c => negb (ac_idle_ns c =? 0)%Z) (apply_calls fxs).

(** The apply calls of a run that carry the first-apply flag. *)
Definition first_calls (fxs : list effects) : list apply_call :=
  filter (fun c => negb (ac_is_first_apply c =? 0)%Z) (apply_calls fxs).

(** The state id [poet_init] starts from: the one the [current] callback
    reports when it succeeds, the highest state id otherwise. *)
Definition initial_id (current : option (Z * Z)) (n : Z) : Z :=
  match current with
  | None => (n - 1)%Z
  | Some (ret, id) => if (ret =? 0)%Z then id else (n - 1)%Z
  end.

End Dispatch.

(** Three states: an idle state, which makes no progress at a tenth of the
    cost and is left through the state of unit speed, the state of unit
    speed, and a state of double speed and cost. *)
Definition idle_table : list (@poet_control_state_t exact_kernel) :=
  [entry 0 (1 # 10) 1; entry 1 1 1; entry 2 2 2].

(** ** Memory and files

    [poet_init] allocates the engine, then the log buffer, then opens the
    log file, and on a failure releases what it holds; [poet_destroy]
    closes the file and frees the buffer and the engine.  The calls are
    recorded as events. *)
Inductive resource : Type := Engine_memory | Buffer_memory | Log_stream.

Inductive heap_event : Type :=
| Acquire (r : resource)
| Release (r : resource).

Definition resource_eqb (a b : resource) : bool :=
  match a, b with
  | Engine_memory, Engine_memory => true
  | Buffer_memory, Buffer_memory => true
  | Log_stream, Log_stream => true
  | _, _ => false
  end.

(** Removing one occurrence of a held resource; [None] when it is not held
    (a double or invalid release). *)
Fixpoint give_back (r : resource) (held : list resource)
  : option (list resource) :=
  match held with
  | [] => None
  | x :: rest =>
      if resource_eqb r x then Some rest
      else match give_back r rest with
           | Some rest' => Some (x :: rest')
           | None => None
           end
  end.

(** The resources held after a sequence of events; [None] when an event
    releases a resource that is not held. *)
Fixpoint replay (events : list heap_event) (held : list resource)
  : option (list resource) :=
  match events with
  | [] => Some held
  | Acquire r :: rest => replay rest (r :: held)
  | Release r :: rest =>
      match give_back r held with
      | Some held' => replay rest held'
      | None => None
      end
  end.

Section Resources.

Context {K : RealKernel} {PC : PoetConstants}.
Local Open Scope real_scope.

(** The allocations and releases of [poet_init], in order.  A failed
    [malloc] or [fopen] acquires nothing; [free] of the null buffer is no
    event. *)
Definition poet_init_events (res : resources)
    (goal : real_t)
    (num_system_states_ : Z)
    (control_states_ : option (list poet_control_state_t))
    (period_ : Z)
    (buffer_depth_ : Z)
    (log_filename : option string) : list heap_event :=
  if (goal <=? R_ZERO) || (num_system_states_ =? 0)%Z
     || is_null control_states_ || (period_ =? 0)%Z
     || ((buffer_depth_ =? 0)%Z && negb (is_null log_filename))
  then []
  else if negb (malloc_state_ok res) then []
  else
    let state_events := [Acquire Engine_memory] in
    let lb_held := (0 <? buffer_depth_)%Z in
    if lb_held && negb (malloc_lb_ok res) then
      state_events ++ [Release Engine_memory]
    else
      let lb_events := if lb_held then [Acquire Buffer_memory] else [] in
      if is_null log_filename then state_events ++ lb_events
      else if negb (fopen_ok res) then
        state_events ++ lb_events
        ++ (if lb_held then [Release Buffer_memory] else [])
        ++ [Release Engine_memory]
      else state_events ++ lb_events ++ [Acquire Log_stream].

(** [poet_destroy]: destroys the engine.  The log buffer is non-null
    exactly when [buffer_depth > 0]. *)
Definition poet_destroy (state : option poet_state) : list heap_event :=
  match state with
  | Some s =>
      (if log_file s then [Release Log_stream] else [])
      ++ (if (0 <? buffer_depth s)%Z then [Release Buffer_memory] else [])
      ++ [Release Engine_memory]
  | None => []
  end.

End Resources.

(** * Properties *)

Section Frames.

Context {K : RealKernel} {PC : PoetConstants}.
Local Open Scope real_scope.

(** ** Loops *)

Lemma for_loop_ids {A : Type} (n : Z) (body : Z -> A -> A) (a : A) :
  for_loop n body a = fold_left (fun acc i => body i acc) (ids n) a.
Proof.
  unfold for_loop, ids.
  generalize (seq 0 (Z.to_nat n)) a.
  induction l as [|x l IH]; intros a0; simpl; [reflexivity | apply IH].
Qed.

Lemma in_ids (n i : Z) : In i (ids n) <-> (0 <= i < n)%Z.
Proof.
  unfold ids. rewrite in_map_iff. split.
  - intros [x [<- Hx]]. apply in_seq in Hx. lia.
  - intros Hi. exists (Z.to_nat i). split; [lia |].
    apply in_seq. lia.
Qed.

Lemma in_pairs (n i j : Z) :
  In (i, j) (pairs n) <-> (0 <= i < n)%Z /\ (0 <= j < n)%Z.
Proof.
  unfold pairs. rewrite in_flat_map. split.
  - intros [x [Hx Hin]]. apply in_map_iff in Hin.
    destruct Hin as [y [Heq Hy]]. inversion Heq; subst.
    split; apply in_ids; assumption.
  - intros [Hi Hj]. exists i. split; [apply in_ids; exact Hi |].
    apply in_map. apply in_ids. exact Hj.
Qed.

(** ** What the planner leaves alone *)

Lemma frame_fields (s1 s2 : poet_state) :
  frame s1 = frame s2 ->
  log_file s1 = log_file s2 /\ buffer_depth s1 = buffer_depth s2
  /\ lb s1 = lb s2 /\ constraint s1 = constraint s2
  /\ constraint_goal s1 = constraint_goal s2
  /\ pfs s1 = pfs s2 /\ cfs s1 = cfs s2 /\ scs s1 = scs s2 /\ pcs s1 = pcs s2
  /\ current_action s1 = current_action s2 /\ last_id s1 = last_id s2
  /\ period s1 = period s2
  /\ num_system_states s1 = num_system_states s2 /\ apply s1 = apply s2
  /\ control_states s1 = control_states s2
  /\ apply_states s1 = apply_states s2
  /\ is_first_apply s1 = is_first_apply s2.
Proof.
  intros H.
  repeat split;
    match goal with
    | |- ?f s1 = ?f s2 => exact (f_equal f H)
    end.
Qed.


Lemma frame_calculate_time_division (s : poet_state) (w : real_t) :
  frame (calculate_time_division s w) = frame s.
Proof.
  unfold calculate_time_division.
  destruct (time_division s w) as [[[a b] c] d]. reflexivity.
Qed.

(** The time division reads the engine's frame and the pair only. *)
Lemma time_division_ext (s1 s2 : poet_state) (w : real_t) :
  frame s1 = frame s2 -> lower_id s1 = lower_id s2 ->
  upper_id s1 = upper_id s2 ->
  time_division s1 w = time_division s2 w.
Proof.
  intros Hf Hl Hu. apply frame_fields in Hf.
  destruct Hf as (_ & _ & _ & Hc & _ & _ & _ & Hs & Hp & _ & _ & Hper
                  & _ & _ & Hcs & _).
  unfold time_division. rewrite Hc, Hs, Hp, Hper, Hcs, Hl, Hu. reflexivity.
Qed.

Lemma get_control_xup_ext (s1 s2 : poet_state) (id : Z) :
  frame s1 = frame s2 -> get_control_xup s1 id = get_control_xup s2 id.
Proof.
  intros Hf. apply frame_fields in Hf.
  destruct Hf as (_ & _ & _ & Hc & _ & _ & _ & _ & _ & _ & _ & _
                  & _ & _ & Hcs & _).
  unfold get_control_xup. rewrite Hc, Hcs. reflexivity.
Qed.

(** ** The pair search is a selection over the candidates *)

(** One step of the inner loop, on an engine that has the frame of [s0]
    and the upper state [i]. *)
Lemma lower_loop_body_spec (env : environment) (w : real_t) (s0 : poet_state)
    (i j : Z) (s : poet_state) (b : best_pair) :
  frame s = frame s0 -> upper_id s = i ->
  exists s',
    lower_loop_body (POET_DISABLE_IDLE env) w (search_target s0) i j (s, b)
    = (s', if lower_ok env s0 j then consider s0 w b (i, j) else b)
    /\ frame s' = frame s0 /\ upper_id s' = i.
Proof.
  intros Hf Hu. unfold lower_loop_body, lower_ok.
  rewrite (get_control_xup_ext s s0 j Hf).
  destruct ((get_control_xup s0 j >? search_target s0)
            || (get_control_xup s0 j <? R_ONE) && POET_DISABLE_IDLE env).
  - exists s. simpl. auto.
  - simpl negb. cbv iota.
    assert (Htd : time_division (set_lower_id j s) w = plan_pair s0 w (i, j)).
    { unfold plan_pair. apply time_division_ext; simpl; auto. }
    eexists. split; [| split].
    + f_equal.
      unfold consider, better, pair_cost, retained, calculate_time_division.
      rewrite Htd.
      destruct (plan_pair s0 w (i, j)) as [[[a1 a2] a3] a4]. simpl.
      pose proof (frame_fields _ _ Hf) as (_ & _ & _ & Hc & _). rewrite Hc.
      reflexivity.
    + rewrite <- Hf. unfold calculate_time_division.
      destruct (time_division (set_lower_id j s) w) as [[[a1 a2] a3] a4].
      reflexivity.
    + unfold calculate_time_division.
      destruct (time_division (set_lower_id j s) w) as [[[a1 a2] a3] a4].
      simpl. exact Hu.
Qed.

Lemma lower_loop_spec (env : environment) (w : real_t) (s0 : poet_state)
    (i : Z) (js : list Z) :
  forall (s : poet_state) (b : best_pair),
    frame s = frame s0 -> upper_id s = i ->
    exists s',
      fold_left (fun acc j =>
                   lower_loop_body (POET_DISABLE_IDLE env) w (search_target s0)
                                   i j acc) js (s, b)
      = (s', fold_left (consider s0 w)
                       (map (pair i) (filter (lower_ok env s0) js)) b)
      /\ frame s' = frame s0 /\ upper_id s' = i.
Proof.
  induction js as [|j js IH]; intros s b Hf Hu.
  - exists s. simpl. auto.
  - cbn [fold_left].
    destruct (lower_loop_body_spec env w s0 i j s b Hf Hu)
      as (s1 & Heq & Hf1 & Hu1).
    rewrite Heq.
    destruct (IH s1 (if lower_ok env s0 j then consider s0 w b (i, j) else b)
                 Hf1 Hu1) as (s2 & Heq2 & Hf2 & Hu2).
    exists s2. rewrite Heq2. split; [| auto].
    f_equal. simpl filter. destruct (lower_ok env s0 j); reflexivity.
Qed.

Lemma upper_loop_body_spec (env : environment) (w : real_t) (s0 : poet_state)
    (i : Z) (s : poet_state) (b : best_pair) :
  frame s = frame s0 ->
  exists s',
    upper_loop_body (POET_DISABLE_IDLE env) w (search_target s0) i (s, b)
    = (s', fold_left (consider s0 w)
             (if upper_ok s0 i
              then map (pair i)
                       (filter (lower_ok env s0) (ids (num_system_states s0)))
              else [])
             b)
    /\ frame s' = frame s0.
Proof.
  intros Hf. unfold upper_loop_body, upper_ok.
  rewrite (get_control_xup_ext s s0 i Hf).
  destruct ((get_control_xup s0 i <? search_target s0)
            || (get_control_xup s0 i <? R_ONE)).
  - exists s. simpl. auto.
  - simpl negb. cbv iota. rewrite for_loop_ids.
    pose proof (frame_fields _ _ Hf) as (_ & _ & _ & _ & _ & _ & _ & _ & _
                  & _ & _ & _ & Hn & _).
    simpl num_system_states. rewrite Hn.
    destruct (lower_loop_spec env w s0 i (ids (num_system_states s0))
                (set_upper_id i s) b) as (s1 & Heq & Hf1 & _).
    { rewrite <- Hf. reflexivity. }
    { reflexivity. }
    exists s1. rewrite Heq. auto.
Qed.

Lemma filter_pairs_of (env : environment) (s0 : poet_state) (i : Z)
    (js : list Z) :
  filter (fun ij => upper_ok s0 (fst ij) && lower_ok env s0 (snd ij))
         (map (pair i) js)
  = if upper_ok s0 i then map (pair i) (filter (lower_ok env s0) js) else [].
Proof.
  induction js as [|j js IH]; simpl.
  - destruct (upper_ok s0 i); reflexivity.
  - rewrite IH. destruct (upper_ok s0 i); simpl; [| reflexivity].
    destruct (lower_ok env s0 j); reflexivity.
Qed.

Lemma upper_loop_spec (env : environment) (w : real_t) (s0 : poet_state)
    (is_ : list Z) :
  forall (s : poet_state) (b : best_pair),
    frame s = frame s0 ->
    exists s',
      fold_left (fun acc i =>
                   upper_loop_body (POET_DISABLE_IDLE env) w (search_target s0)
                                   i acc) is_ (s, b)
      = (s', fold_left (consider s0 w)
               (filter (fun ij => upper_ok s0 (fst ij)
                                  && lower_ok env s0 (snd ij))
                  (flat_map (fun i => map (pair i)
                                          (ids (num_system_states s0))) is_))
               b)
      /\ frame s' = frame s0.
Proof.
  induction is_ as [|i is_ IH]; intros s b Hf.
  - exists s. simpl. auto.
  - cbn [fold_left flat_map].
    rewrite filter_app, fold_left_app, filter_pairs_of.
    destruct (upper_loop_body_spec env w s0 i s b Hf) as (s1 & Heq & Hf1).
    rewrite Heq. apply IH. exact Hf1.
Qed.

(** [translate_n2_with_time] stores the result of the selection. *)
Lemma translate_n2_with_time_spec (env : environment) (s : poet_state)
    (w : real_t) :
  translate_n2_with_time env s w = store_best (search env s w) s.
Proof.
  unfold translate_n2_with_time. rewrite for_loop_ids.
  destruct (upper_loop_spec env w s (ids (num_system_states s)) s
              (search_seed s) eq_refl) as (s' & Heq & Hf).
  rewrite Heq. fold (pairs (num_system_states s)).
  fold (candidates env s). fold (search env s w).
  generalize (search env s w). intros b.
  change (store_best b s' = store_best b s).
  transitivity (store_best b (frame s')); [reflexivity |].
  rewrite Hf. reflexivity.
Qed.

End Frames.

Section Steps.

Context {K : RealKernel} {PC : PoetConstants}.
Local Open Scope real_scope.

(** ** The stages of a control step *)

Lemma estimate_base_workload_spec (y u_prev : real_t) (f : filter_state) :
  estimate_base_workload y u_prev f
  = (div R_ONE (x_hat (kalman_spec y u_prev f)), kalman_spec y u_prev f).
Proof. reflexivity. Qed.

Lemma plan_period_eq (env : environment) (s : poet_state) (perf pwr : real_t) :
  plan_period env s perf pwr
  = (translate_n2_with_time env (before_search s perf pwr)
       (search_workload s perf pwr),
     fst (estimate_base_workload perf (u (scs s)) (pfs s)),
     fst (estimate_base_workload pwr (u (pcs s)) (cfs s))).
Proof.
  unfold plan_period, before_search, search_workload.
  rewrite !estimate_base_workload_spec. simpl.
  destruct (constraint s); reflexivity.
Qed.

Lemma planned_eq (env : environment) (s : poet_state) (perf pwr : real_t) :
  planned env s perf pwr
  = store_best (search env (before_search s perf pwr)
                       (search_workload s perf pwr))
               (before_search s perf pwr).
Proof.
  unfold planned. rewrite plan_period_eq. simpl.
  apply translate_n2_with_time_spec.
Qed.

Lemma before_search_fields (s : poet_state) (perf pwr : real_t) :
  let s1 := before_search s perf pwr in
  pfs s1 = kalman_spec perf (u (scs s)) (pfs s)
  /\ cfs s1 = kalman_spec pwr (u (pcs s)) (cfs s)
  /\ constraint s1 = constraint s
  /\ active_controller s1
     = calculate_xup (match constraint s with POWER => pwr | PERFORMANCE => perf end)
                     (constraint_goal s) (search_workload s perf pwr)
                     (active_controller s)
  /\ period s1 = period s /\ current_action s1 = current_action s
  /\ last_id s1 = last_id s /\ is_first_apply s1 = is_first_apply s.
Proof.
  unfold before_search, search_workload, active_controller. simpl.
  destruct (constraint s) eqn:Hc; simpl; rewrite ?Hc; repeat split.
Qed.

Lemma calculate_cost_xup_fields (s : poet_state) :
  let s1 := calculate_cost_xup s in
  pfs s1 = pfs s /\ cfs s1 = cfs s /\ constraint s1 = constraint s
  /\ active_controller s1 = active_controller s
  /\ lower_id s1 = lower_id s /\ upper_id s1 = upper_id s
  /\ low_state_iters s1 = low_state_iters s /\ idle_ns s1 = idle_ns s
  /\ period s1 = period s /\ current_action s1 = current_action s
  /\ last_id s1 = last_id s /\ is_first_apply s1 = is_first_apply s.
Proof.
  unfold calculate_cost_xup, active_controller.
  destruct (constraint s) eqn:Hc; simpl; rewrite ?Hc; repeat split.
Qed.

Lemma logger_fields (s : poet_state) (id : Z) (a b c d : real_t) :
  let s1 := fst (logger s id a b c d) in
  pfs s1 = pfs s /\ cfs s1 = cfs s /\ scs s1 = scs s /\ pcs s1 = pcs s
  /\ constraint s1 = constraint s
  /\ lower_id s1 = lower_id s /\ upper_id s1 = upper_id s
  /\ low_state_iters s1 = low_state_iters s /\ idle_ns s1 = idle_ns s
  /\ period s1 = period s /\ current_action s1 = current_action s
  /\ last_id s1 = last_id s /\ is_first_apply s1 = is_first_apply s.
Proof.
  unfold logger. destruct (log_file s).
  - match goal with
    | |- context [if ?c then _ else _] => destruct c
    end; repeat split.
  - repeat split.
Qed.

Lemma store_best_fields (b : best_pair) (s : poet_state) :
  let s1 := store_best b s in
  pfs s1 = pfs s /\ cfs s1 = cfs s /\ scs s1 = scs s /\ pcs s1 = pcs s
  /\ constraint s1 = constraint s
  /\ lower_id s1 = best_lower_id b /\ upper_id s1 = best_upper_id b
  /\ low_state_iters s1 = best_low_state_iters b
  /\ idle_ns s1 = best_idle_ns b
  /\ cost_estimate s1 = best_cost b
  /\ cost_xup_estimate s1 = best_cost_xup b
  /\ period s1 = period s /\ current_action s1 = current_action s
  /\ last_id s1 = last_id s /\ is_first_apply s1 = is_first_apply s.
Proof. repeat split. Qed.

Lemma finish_fields (env : environment) (s : poet_state) :
  let s1 := fst (finish env s) in
  pfs s1 = pfs s /\ cfs s1 = cfs s /\ scs s1 = scs s /\ pcs s1 = pcs s
  /\ constraint s1 = constraint s /\ constraint_goal s1 = constraint_goal s
  /\ lower_id s1 = lower_id s /\ upper_id s1 = upper_id s
  /\ period s1 = period s /\ control_states s1 = control_states s
  /\ num_system_states s1 = num_system_states s.
Proof.
  unfold finish, select_config, dispatch.
  repeat match goal with
         | |- context [if ?c then _ else _] => destruct c
         end; simpl; repeat split.
Qed.

(** A call with control enabled, in terms of its stages. *)
Lemma poet_apply_control_stages (env : environment) (s : poet_state) (id : Z)
    (perf pwr : real_t) :
  POET_DISABLE_CONTROL env = false ->
  poet_apply_control env (Some s) id perf pwr
  = let sr :=
      if (current_action s =? 0)%Z then
        logger (calculate_cost_xup (planned env s perf pwr)) id perf pwr
               (snd (fst (plan_period env s perf pwr)))
               (snd (plan_period env s perf pwr))
      else (s, []) in
    (Some (fst (finish env (fst sr))),
     {| applied := snd (finish env (fst sr)); printed := snd sr |}).
Proof.
  intros Hc. unfold poet_apply_control, planned, finish. rewrite Hc.
  destruct (current_action s =? 0)%Z.
  - destruct (plan_period env s perf pwr) as [[sp tw] ew].
    cbn [fst snd].
    destruct (logger (calculate_cost_xup sp) id perf pwr tw ew) as [sl rows].
    cbn [fst snd]. destruct (select_config sl) as [cid s2].
    destruct (dispatch env cid s2) as [s3 call]. reflexivity.
  - cbn [fst snd]. destruct (select_config s) as [cid s2].
    destruct (dispatch env cid s2) as [s3 call]. reflexivity.
Qed.

(** A call at a period boundary. *)
Lemma boundary_call (env : environment) (s : poet_state) (id : Z)
    (perf pwr : real_t) :
  POET_DISABLE_CONTROL env = false ->
  current_action s = 0%Z ->
  exists rows,
    poet_apply_control env (Some s) id perf pwr
    = (Some (fst (finish env (fst rows))),
       {| applied := snd (finish env (fst rows)); printed := snd rows |})
    /\ rows = logger (calculate_cost_xup (planned env s perf pwr)) id perf pwr
                     (snd (fst (plan_period env s perf pwr)))
                     (snd (plan_period env s perf pwr)).
Proof.
  intros Hc Hb. rewrite (poet_apply_control_stages env s id perf pwr Hc), Hb.
  eexists. split; reflexivity.
Qed.

(** A call inside a period. *)
Lemma inner_call (env : environment) (s : poet_state) (id : Z)
    (perf pwr : real_t) :
  POET_DISABLE_CONTROL env = false ->
  current_action s <> 0%Z ->
  poet_apply_control env (Some s) id perf pwr
  = (Some (fst (finish env s)),
     {| applied := snd (finish env s); printed := [] |}).
Proof.
  intros Hc Hb. rewrite (poet_apply_control_stages env s id perf pwr Hc).
  apply Z.eqb_neq in Hb. rewrite Hb. reflexivity.
Qed.

End Steps.

Section Claims.

Context {K : RealKernel} {PC : PoetConstants}.
Local Open Scope real_scope.

(** ** Construction *)

Lemma is_null_false {A : Type} (o : option A) : is_null o = false <-> o <> None.
Proof. destruct o; simpl; split; congruence. Qed.

Lemma rejected_test (goal : real_t) (n : Z)
    (cs : option (list poet_control_state_t)) (per bd : Z)
    (lf : option string) :
  (goal <=? R_ZERO) || (n =? 0)%Z || is_null cs || (per =? 0)%Z
  || ((bd =? 0)%Z && negb (is_null lf)) = true
  <-> rejected goal n cs per bd lf.
Proof.
  unfold rejected.
  rewrite !orb_true_iff, andb_true_iff, negb_true_iff, !Z.eqb_eq,
    is_null_false.
  destruct cs; simpl; intuition congruence.
Qed.

(** C1 (amended): [poet_init] returns a null pointer with [errno = EINVAL]
    exactly when [goal <= 0], [num_system_states == 0], the table is null,
    [period == 0], or a log file is requested without a buffer
    ([buffer_depth == 0] and [log_filename != NULL]); for every other
    argument tuple, when the allocations and [fopen] succeed, it returns an
    engine. *)
Theorem poet_init_rejects_exactly (res : resources) (goal : real_t)
    (c : poet_tradeoff_type_t) (n : Z)
    (cs : option (list poet_control_state_t)) (ast : Z) (ap : bool)
    (cur : option (Z * Z)) (per bd : Z) (lf : option string) :
  (poet_init res goal c n cs ast ap cur per bd lf = Null_EINVAL
   <-> rejected goal n cs per bd lf)
  /\ (~ rejected goal n cs per bd lf ->
      malloc_state_ok res = true -> malloc_lb_ok res = true ->
      fopen_ok res = true ->
      exists s, poet_init res goal c n cs ast ap cur per bd lf = Engine s).
Proof.
  pose proof (rejected_test goal n cs per bd lf) as Ht.
  unfold poet_init.
  destruct ((goal <=? R_ZERO) || (n =? 0)%Z || is_null cs || (per =? 0)%Z
            || ((bd =? 0)%Z && negb (is_null lf))) eqn:Htest.
  - split; [tauto |]. intros Hn. exfalso. apply Hn, Ht. reflexivity.
  - assert (Hnot : ~ rejected goal n cs per bd lf).
    { intros Hr. apply Ht in Hr. discriminate. }
    split.
    + split; [| tauto].
      destruct (negb (malloc_state_ok res)); [discriminate |].
      destruct ((0 <? bd)%Z && negb (malloc_lb_ok res)); [discriminate |].
      destruct (negb (is_null lf) && negb (fopen_ok res)); discriminate.
    + intros _ H1 H2 H3. rewrite H1, H2, H3. simpl.
      rewrite !andb_false_r. eexists. reflexivity.
Qed.

(** ** The filters *)

(** C6: at a period boundary (control enabled) the performance filter and
    the cost filter are both updated by the recurrence [kalman_spec], fed
    with the observed rate and the output of the corresponding controller
    before the call, and the workloads handed on are [1 / x_hat]. *)
Theorem filters_follow_recurrence (env : environment) (s : poet_state)
    (id : Z) (perf pwr : real_t) :
  POET_DISABLE_CONTROL env = false ->
  current_action s = 0%Z ->
  exists s' fx sp time_workload energy_workload,
    poet_apply_control env (Some s) id perf pwr = (Some s', fx)
    /\ plan_period env s perf pwr = (sp, time_workload, energy_workload)
    /\ pfs s' = kalman_spec perf (u (scs s)) (pfs s)
    /\ cfs s' = kalman_spec pwr (u (pcs s)) (cfs s)
    /\ time_workload = div R_ONE (x_hat (pfs s'))
    /\ energy_workload = div R_ONE (x_hat (cfs s')).
Proof.
  intros Hc Hb.
  destruct (boundary_call env s id perf pwr Hc Hb) as (rows & Hcall & Hrows).
  destruct (finish_fields env (fst rows)) as (H1 & H2 & _).
  pose proof (logger_fields (calculate_cost_xup (planned env s perf pwr)) id
                perf pwr (snd (fst (plan_period env s perf pwr)))
                (snd (plan_period env s perf pwr))) as Hlog.
  cbv zeta in Hlog. rewrite <- Hrows in Hlog.
  destruct Hlog as (H3 & H4 & _).
  destruct (calculate_cost_xup_fields (planned env s perf pwr))
    as (H5 & H6 & _).
  pose proof (store_best_fields
                (search env (before_search s perf pwr)
                        (search_workload s perf pwr))
                (before_search s perf pwr)) as Hst.
  cbv zeta in Hst. rewrite <- planned_eq in Hst.
  destruct Hst as (H7 & H8 & _).
  destruct (before_search_fields s perf pwr) as (H9 & H10 & _).
  exists (fst (finish env (fst rows))),
    {| applied := snd (finish env (fst rows)); printed := snd rows |},
    (planned env s perf pwr),
    (div R_ONE (x_hat (kalman_spec perf (u (scs s)) (pfs s)))),
    (div R_ONE (x_hat (kalman_spec pwr (u (pcs s)) (cfs s)))).
  rewrite H1, H2, H3, H4, H5, H6, H7, H8, H9, H10.
  split; [exact Hcall |].
  split; [| repeat split].
  unfold planned. rewrite plan_period_eq. reflexivity.
Qed.

(** ** The controller *)

(** C7: one controller step computes [e = desired - current] and
    [u = F (A uo + B uoo + C e + D eo)] with the fixed coefficients, clamps
    [u] to the range from [umin] to [umax], and then shifts the history:
    [uoo] gets the old [uo], [uo] the new [u], [eo] the new [e]. *)
Theorem calculate_xup_follows_spec (current desired w : real_t)
    (c : calc_xup_state) :
  calculate_xup current desired w c = xup_spec current desired w c.
Proof.
  unfold calculate_xup, xup_spec, clamp, coeff_A, coeff_B, coeff_C, coeff_D,
    coeff_F.
  cbv zeta. unfold set_e. unfold set_u at 1. simpl.
  destruct (_ <? umin c).
  - unfold set_u. simpl. destruct (umin c >? umax c); reflexivity.
  - simpl. match goal with
           | |- context [if ?t then _ else _] => destruct t
           end; reflexivity.
Qed.

(** ** The kill switch *)

(** C9: with [POET_DISABLE_CONTROL] set, a call of [poet_apply_control]
    returns the engine unchanged and has no effect: the apply callback is
    not invoked and nothing is logged; the same holds of any sequence of
    such calls. *)
Theorem control_disabled_is_noop :
  (forall (env : environment) (state : option poet_state) (id : Z)
          (perf pwr : real_t),
      POET_DISABLE_CONTROL env = true ->
      poet_apply_control env state id perf pwr = (state, no_effects))
  /\ (forall (calls : list call) (state : option poet_state),
         Forall (fun c => POET_DISABLE_CONTROL (c_env c) = true) calls ->
         run state calls = (state, map (fun _ => no_effects) calls)).
Proof.
  assert (H1 : forall (env : environment) (state : option poet_state) (id : Z)
                      (perf pwr : real_t),
             POET_DISABLE_CONTROL env = true ->
             poet_apply_control env state id perf pwr = (state, no_effects)).
  { intros env [s|] id perf pwr Hd; simpl; [rewrite Hd |]; reflexivity. }
  split; [exact H1 |].
  induction calls as [|c calls IH]; intros state Hall; simpl.
  - reflexivity.
  - inversion Hall as [|x l Hc Hrest]; subst.
    rewrite (H1 _ state _ _ _ Hc), (IH state Hrest). reflexivity.
Qed.

End Claims.

Section NoPair.

Context {K : RealKernel} {PC : PoetConstants}.
Local Open Scope real_scope.

(** ** When no pair is selected *)

Lemma finish_quiet (env : environment) (s : poet_state) :
  upper_id s = (-1)%Z -> (low_state_iters s <= 0)%Z ->
  finish env s
  = (set_current_action ((current_action s + 1) mod period s)%Z s, None).
Proof.
  intros Hu Hl. unfold finish, select_config.
  replace (0 <? low_state_iters s)%Z with false by (symmetry; lia).
  rewrite Hu. reflexivity.
Qed.

(** Calls that stay inside the current period dispatch nothing once the
    schedule is empty. *)
Lemma run_quiet (calls : list call) :
  forall s : poet_state,
    upper_id s = (-1)%Z -> (low_state_iters s <= 0)%Z ->
    (0 < current_action s)%Z ->
    (current_action s + Z.of_nat (length calls) <= period s)%Z ->
    Forall (fun fx => applied fx = None) (snd (run (Some s) calls))
    /\ exists s', fst (run (Some s) calls) = Some s'
                  /\ upper_id s' = (-1)%Z /\ lower_id s' = lower_id s
                  /\ low_state_iters s' = low_state_iters s
                  /\ idle_ns s' = idle_ns s.
Proof.
  induction calls as [|c calls IH]; intros s Hu Hl Hca Hlen.
  - cbn [run fst snd]. split; [constructor |]. exists s. auto.
  - cbn [run]. cbn [length] in Hlen.
    destruct (POET_DISABLE_CONTROL (c_env c)) eqn:Hd.
    + unfold poet_apply_control. rewrite Hd.
      destruct (IH s Hu Hl Hca ltac:(lia)) as (Hall & s' & Hrun & Hs').
      destruct (run (Some s) calls) as [st fxs]. cbn [fst snd] in *.
      split; [constructor; [reflexivity | exact Hall] |].
      exists s'. auto.
    + rewrite (inner_call (c_env c) s (c_id c) (c_perf c) (c_pwr c) Hd
                 ltac:(lia)).
      rewrite (finish_quiet (c_env c) s Hu Hl). cbn [fst snd].
      set (s1 := set_current_action _ s).
      assert (Hs1 : upper_id s1 = upper_id s /\ lower_id s1 = lower_id s
                    /\ low_state_iters s1 = low_state_iters s
                    /\ idle_ns s1 = idle_ns s /\ period s1 = period s
                    /\ current_action s1
                       = ((current_action s + 1) mod period s)%Z)
        by (repeat split).
      destruct Hs1 as (E1 & E2 & E3 & E4 & E5 & E6).
      destruct calls as [|c' calls'].
      * cbn [run fst snd]. split; [repeat constructor |].
        exists s1. rewrite E1, E2, E3, E4. auto.
      * cbn [length] in Hlen.
        rewrite Z.mod_small in E6 by lia.
        destruct (IH s1) as (Hall & s' & Hrun & G1 & G2 & G3 & G4).
        { rewrite E1. exact Hu. }
        { rewrite E3. exact Hl. }
        { rewrite E6. lia. }
        { rewrite E6, E5. cbn [length]. lia. }
        destruct (run (Some s1) (c' :: calls')) as [st fxs].
        cbn [fst snd] in *.
        split; [constructor; [reflexivity | exact Hall] |].
        exists s'. rewrite <- E2, <- E3, <- E4. auto.
Qed.

(** C3 (amended): at a period boundary at which no pair qualifies, the
    schedule is overwritten: [lower_id] and [upper_id] become [-1],
    [low_state_iters] becomes [-1] and [idle_ns] becomes [0]; the dispatch
    step then selects no configuration, so the apply callback is invoked
    neither on that call nor on any later call of the same period, and the
    schedule stays as it is during those calls. *)
Theorem no_pair_means_no_dispatch (env : environment) (s : poet_state)
    (id : Z) (perf pwr : real_t) :
  POET_DISABLE_CONTROL env = false ->
  current_action s = 0%Z ->
  (0 < period s)%Z ->
  candidates env (before_search s perf pwr) = [] ->
  exists s' fx,
    poet_apply_control env (Some s) id perf pwr = (Some s', fx)
    /\ lower_id s' = (-1)%Z /\ upper_id s' = (-1)%Z
    /\ low_state_iters s' = (-1)%Z /\ idle_ns s' = 0%Z
    /\ applied fx = None
    /\ forall calls : list call,
        (Z.of_nat (length calls) < period s)%Z ->
        Forall (fun fx => applied fx = None) (snd (run (Some s') calls))
        /\ exists s'', fst (run (Some s') calls) = Some s''
                       /\ lower_id s'' = (-1)%Z /\ upper_id s'' = (-1)%Z
                       /\ low_state_iters s'' = (-1)%Z /\ idle_ns s'' = 0%Z.
Proof.
  intros Hc Hb Hper Hnone.
  destruct (boundary_call env s id perf pwr Hc Hb) as (rows & Hcall & Hrows).
  pose proof (logger_fields (calculate_cost_xup (planned env s perf pwr)) id
                perf pwr (snd (fst (plan_period env s perf pwr)))
                (snd (plan_period env s perf pwr))) as Hlog.
  cbv zeta in Hlog. rewrite <- Hrows in Hlog.
  destruct Hlog as (_ & _ & _ & _ & _ & L1 & L2 & L3 & L4 & L5 & L6 & _).
  destruct (calculate_cost_xup_fields (planned env s perf pwr))
    as (_ & _ & _ & _ & C1 & C2 & C3 & C4 & C5 & C6 & _).
  pose proof (store_best_fields
                (search env (before_search s perf pwr)
                        (search_workload s perf pwr))
                (before_search s perf pwr)) as Hst.
  cbv zeta in Hst. rewrite <- planned_eq in Hst.
  unfold search in Hst. rewrite Hnone in Hst. cbn [fold_left] in Hst.
  destruct Hst as (_ & _ & _ & _ & _ & S1 & S2 & S3 & S4 & _ & _ & S5 & S6 & _).
  destruct (before_search_fields s perf pwr)
    as (_ & _ & _ & _ & B1 & B2 & _).
  set (sl := fst rows) in *.
  assert (F1 : lower_id sl = (-1)%Z) by (rewrite L1, C1, S1; reflexivity).
  assert (F2 : upper_id sl = (-1)%Z) by (rewrite L2, C2, S2; reflexivity).
  assert (F3 : low_state_iters sl = (-1)%Z)
    by (rewrite L3, C3, S3; reflexivity).
  assert (F4 : idle_ns sl = 0%Z) by (rewrite L4, C4, S4; reflexivity).
  assert (F5 : period sl = period s) by (rewrite L5, C5, S5; exact B1).
  assert (F6 : current_action sl = 0%Z)
    by (rewrite L6, C6, S6, B2; exact Hb).
  rewrite (finish_quiet env sl F2 ltac:(lia)) in Hcall. cbn [fst snd] in Hcall.
  set (s1 := set_current_action _ sl) in Hcall.
  assert (Hs1 : upper_id s1 = upper_id sl /\ lower_id s1 = lower_id sl
                /\ low_state_iters s1 = low_state_iters sl
                /\ idle_ns s1 = idle_ns sl /\ period s1 = period sl
                /\ current_action s1
                   = ((current_action sl + 1) mod period sl)%Z)
    by (repeat split).
  destruct Hs1 as (E1 & E2 & E3 & E4 & E5 & E6).
  exists s1, {| applied := None; printed := snd rows |}.
  split; [exact Hcall |].
  rewrite E1, E2, E3, E4, F1, F2, F3, F4.
  repeat (split; [reflexivity |]).
  intros calls Hlen.
  destruct calls as [|c calls].
  - cbn [run fst snd]. split; [constructor |]. exists s1.
    rewrite E1, E2, E3, E4, F1, F2, F3, F4. auto.
  - cbn [length] in Hlen.
    rewrite F6, F5, Z.mod_small in E6 by lia.
    destruct (run_quiet (c :: calls) s1)
      as (Hall & s'' & Hrun & G1 & G2 & G3 & G4).
    + rewrite E1. exact F2.
    + rewrite E3, F3. lia.
    + rewrite E6. lia.
    + rewrite E6, E5, F5. cbn [length]. lia.
    + split; [exact Hall |]. exists s''.
      rewrite G2, G3, G4, E2, E3, E4, F1, F3, F4. auto.
Qed.

End NoPair.

Section Order.

Context {K : RealKernel} {PC : PoetConstants} {O : RealOrder K}.
Local Open Scope real_scope.

(** ** Consequences of the order laws *)

Lemma rle_refl (a : real_t) : rle a a = true.
Proof. destruct (rle_total a a); assumption. Qed.

Lemma rlt_false_iff (a b : real_t) : rlt a b = false <-> rle b a = true.
Proof. rewrite rlt_rle. destruct (rle b a); simpl; split; congruence. Qed.

Lemma rlt_true_iff (a b : real_t) : rlt a b = true <-> rle b a = false.
Proof. rewrite rlt_rle. destruct (rle b a); simpl; split; congruence. Qed.

Lemma rlt_weak (a b : real_t) : rlt a b = true -> rle a b = true.
Proof.
  intros H. apply rlt_true_iff in H.
  destruct (rle_total a b) as [Hab | Hba]; congruence.
Qed.

Lemma rle_false_weak (a b : real_t) : rle a b = false -> rle b a = true.
Proof. intros H. destruct (rle_total a b); congruence. Qed.

Lemma rlt_rle_trans (a b c : real_t) :
  rlt a b = true -> rle b c = true -> rlt a c = true.
Proof.
  intros Hab Hbc. apply rlt_true_iff. apply rlt_true_iff in Hab.
  destruct (rle c a) eqn:Hca; [| reflexivity].
  rewrite (rle_trans b c a Hbc Hca) in Hab. discriminate.
Qed.

Lemma rle_rlt_trans (a b c : real_t) :
  rle a b = true -> rlt b c = true -> rlt a c = true.
Proof.
  intros Hab Hbc. apply rlt_true_iff. apply rlt_true_iff in Hbc.
  destruct (rle c a) eqn:Hca; [| reflexivity].
  rewrite (rle_trans c a b Hca Hab) in Hbc. discriminate.
Qed.

Lemma rlt_trans (a b c : real_t) :
  rlt a b = true -> rlt b c = true -> rlt a c = true.
Proof. intros Hab Hbc. eapply rlt_rle_trans; [exact Hab | apply rlt_weak, Hbc]. Qed.

Lemma clamp_in_range (lo hi v : real_t) :
  rle lo hi = true ->
  rle lo (clamp lo hi v) = true /\ rle (clamp lo hi v) hi = true.
Proof.
  intros Hr. unfold clamp.
  destruct (v <? lo) eqn:H1.
  - apply rlt_false_iff in Hr. rewrite Hr. split; [apply rle_refl | ].
    apply rlt_false_iff. exact Hr.
  - destruct (v >? hi) eqn:H2.
    + split; [exact Hr | apply rle_refl].
    + split; apply rlt_false_iff; assumption.
Qed.

(** ** Changing the constraint *)

(** C10: [poet_set_constraint_type] leaves a null engine null, leaves the
    engine unchanged when [goal <= 0], and when [goal > 0] stores the
    constraint and the goal and changes no other field. *)
Theorem set_constraint_type_frame :
  (forall c goal, poet_set_constraint_type None c goal = None)
  /\ (forall s c goal,
         rle goal R_ZERO = true ->
         poet_set_constraint_type (Some s) c goal = Some s)
  /\ (forall s c goal,
         rlt R_ZERO goal = true ->
         poet_set_constraint_type (Some s) c goal
         = Some {| log_file := log_file s;
                   buffer_depth := buffer_depth s;
                   lb := lb s;
                   constraint := c;
                   constraint_goal := goal;
                   pfs := pfs s;
                   cfs := cfs s;
                   scs := scs s;
                   pcs := pcs s;
                   current_action := current_action s;
                   lower_id := lower_id s;
                   upper_id := upper_id s;
                   last_id := last_id s;
                   low_state_iters := low_state_iters s;
                   period := period s;
                   idle_ns := idle_ns s;
                   cost_estimate := cost_estimate s;
                   cost_xup_estimate := cost_xup_estimate s;
                   num_system_states := num_system_states s;
                   apply := apply s;
                   control_states := control_states s;
                   apply_states := apply_states s;
                   is_first_apply := is_first_apply s |}).
Proof.
  split; [reflexivity |]. split.
  - intros s c goal Hg. unfold poet_set_constraint_type.
    apply rlt_false_iff in Hg. rewrite Hg. reflexivity.
  - intros s c goal Hg. unfold poet_set_constraint_type. rewrite Hg.
    reflexivity.
Qed.

End Order.

Section Search.

Context {K : RealKernel} {PC : PoetConstants}.
Local Open Scope real_scope.

(** ** What the selection retains *)

Lemma best_cost_retained (s : poet_state) (w : real_t) (ij : Z * Z) :
  best_cost (retained s w ij) = pair_cost s w ij.
Proof.
  unfold retained, pair_cost.
  destruct (plan_pair s w ij) as [[[a b] c] d]. reflexivity.
Qed.

Lemma best_ids_retained (s : poet_state) (w : real_t) (ij : Z * Z) :
  best_upper_id (retained s w ij) = fst ij
  /\ best_lower_id (retained s w ij) = snd ij.
Proof.
  unfold retained.
  destruct (plan_pair s w ij) as [[[a b] c] d]. split; reflexivity.
Qed.

(** The result of the selection is the seed or a retained candidate. *)
Lemma fold_consider_cases (s : poet_state) (w : real_t) (l : list (Z * Z)) :
  forall b : best_pair,
    fold_left (consider s w) l b = b
    \/ exists ij, In ij l /\ fold_left (consider s w) l b = retained s w ij.
Proof.
  induction l as [|q l IH]; intros b; cbn [fold_left].
  - left. reflexivity.
  - destruct (better s (pair_cost s w q) (best_cost b)) eqn:Hq.
    + replace (consider s w b q) with (retained s w q)
        by (unfold consider; rewrite Hq; reflexivity).
      destruct (IH (retained s w q)) as [-> | (ij & Hin & ->)].
      * right. exists q. simpl. auto.
      * right. exists ij. simpl. auto.
    + replace (consider s w b q) with b
        by (unfold consider; rewrite Hq; reflexivity).
      destruct (IH b) as [-> | (ij & Hin & ->)].
      * left. reflexivity.
      * right. exists ij. simpl. auto.
Qed.

Lemma in_candidates (env : environment) (s : poet_state) (i j : Z) :
  In (i, j) (candidates env s)
  <-> ((0 <= i < num_system_states s)%Z /\ (0 <= j < num_system_states s)%Z)
      /\ upper_ok s i = true /\ lower_ok env s j = true.
Proof.
  unfold candidates. rewrite filter_In, in_pairs. simpl.
  rewrite andb_true_iff. tauto.
Qed.

End Search.

Section SearchOrder.

Context {K : RealKernel} {PC : PoetConstants} {O : RealOrder K}.
Local Open Scope real_scope.

Lemma better_trans (s : poet_state) (a b c : real_t) :
  better s a b = true -> better s b c = true -> better s a c = true.
Proof.
  unfold better. destruct (constraint s); intros H1 H2.
  - exact (rlt_trans a b c H1 H2).
  - exact (rlt_trans c b a H2 H1).
Qed.

Lemma better_than_unbeaten (s : poet_state) (a b q : real_t) :
  better s a b = true -> better s q b = false -> better s a q = true.
Proof.
  unfold better. destruct (constraint s); intros H1 H2.
  - apply rlt_false_iff in H2. exact (rlt_rle_trans a b q H1 H2).
  - apply rlt_false_iff in H2. exact (rle_rlt_trans q b a H2 H1).
Qed.

(** The selection keeps the first of the best candidates: everything before
    it is strictly worse, nothing after it is strictly better. *)
Lemma fold_consider_best (s : poet_state) (w : real_t) (l : list (Z * Z)) :
  forall b : best_pair,
    (fold_left (consider s w) l b = b
     /\ forall q, In q l -> better s (pair_cost s w q) (best_cost b) = false)
    \/ exists l1 ij l2,
        l = l1 ++ ij :: l2
        /\ fold_left (consider s w) l b = retained s w ij
        /\ better s (pair_cost s w ij) (best_cost b) = true
        /\ (forall q, In q l1 ->
                      better s (pair_cost s w ij) (pair_cost s w q) = true)
        /\ (forall q, In q l2 ->
                      better s (pair_cost s w q) (pair_cost s w ij) = false).
Proof.
  induction l as [|q l IH]; intros b; cbn [fold_left].
  - left. split; [reflexivity | intros q []].
  - destruct (better s (pair_cost s w q) (best_cost b)) eqn:Hq.
    + replace (consider s w b q) with (retained s w q)
        by (unfold consider; rewrite Hq; reflexivity).
      right.
      destruct (IH (retained s w q))
        as [[Heq Hall] | (l1 & ij & l2 & Hl & Heq & Hb & H1 & H2)].
      * exists [], q, l. rewrite Heq.
        rewrite best_cost_retained in Hall.
        split; [reflexivity |]. split; [reflexivity |].
        split; [exact Hq |]. split; [intros x [] | exact Hall].
      * rewrite best_cost_retained in Hb.
        exists (q :: l1), ij, l2. rewrite Heq, Hl.
        split; [reflexivity |]. split; [reflexivity |].
        split; [exact (better_trans s _ _ _ Hb Hq) |].
        split; [| exact H2].
        intros x [<- | Hx]; [exact Hb | exact (H1 x Hx)].
    + replace (consider s w b q) with b
        by (unfold consider; rewrite Hq; reflexivity).
      destruct (IH b)
        as [[Heq Hall] | (l1 & ij & l2 & Hl & Heq & Hb & H1 & H2)].
      * left. split; [exact Heq |].
        intros x [<- | Hx]; [exact Hq | exact (Hall x Hx)].
      * right. exists (q :: l1), ij, l2. rewrite Heq, Hl.
        split; [reflexivity |]. split; [reflexivity |].
        split; [exact Hb |]. split; [| exact H2].
        intros x [<- | Hx]; [| exact (H1 x Hx)].
        exact (better_than_unbeaten s _ _ _ Hb Hq).
Qed.

(** C4 (amended): the pair search considers exactly the pairs
    (upper [i], lower [j]) of state ids whose xup in the constrained
    dimension (speedup under a performance constraint, cost under a power
    constraint) satisfies [upper >= target], [upper >= 1] and
    [lower <= target], and moreover [lower >= 1] when [POET_DISABLE_IDLE]
    is set.  The seed cost is [BIG_REAL_T] under a performance constraint
    and zero under a power constraint.  Either no candidate is strictly
    better than the seed, and the ids are [-1]; or the search stores the
    time division of the first candidate of best cost (everything found
    before it is strictly worse, nothing found after it is strictly
    better: lower cost is better under a performance constraint, higher
    under a power constraint).  With [POET_DISABLE_IDLE] set, the selected
    lower state has an xup of at least one in the constrained dimension. *)
Theorem pair_search_selects_best (env : environment) (s : poet_state)
    (w : real_t) :
  let s' := translate_n2_with_time env s w in
  let t := search_target s in
  let seed := search_seed s in
  (forall i j,
      In (i, j) (candidates env s)
      <-> ((0 <= i < num_system_states s)%Z
           /\ (0 <= j < num_system_states s)%Z)
          /\ rle t (get_control_xup s i) = true
          /\ rle R_ONE (get_control_xup s i) = true
          /\ rle (get_control_xup s j) t = true
          /\ (POET_DISABLE_IDLE env = true ->
              rle R_ONE (get_control_xup s j) = true))
  /\ best_cost seed = match constraint s with
                      | POWER => R_ZERO
                      | PERFORMANCE => BIG_REAL_T
                      end
  /\ ((s' = store_best seed s
       /\ lower_id s' = (-1)%Z /\ upper_id s' = (-1)%Z
       /\ forall q, In q (candidates env s) ->
                    better s (pair_cost s w q) (best_cost seed) = false)
      \/ exists l1 i j l2,
          candidates env s = l1 ++ (i, j) :: l2
          /\ s' = store_best (retained s w (i, j)) s
          /\ upper_id s' = i /\ lower_id s' = j
          /\ cost_estimate s' = pair_cost s w (i, j)
          /\ better s (pair_cost s w (i, j)) (best_cost seed) = true
          /\ (forall q, In q l1 ->
                better s (pair_cost s w (i, j)) (pair_cost s w q) = true)
          /\ (forall q, In q l2 ->
                better s (pair_cost s w q) (pair_cost s w (i, j)) = false))
  /\ (POET_DISABLE_IDLE env = true -> (0 <= lower_id s')%Z ->
      rlt (get_control_xup s (lower_id s')) R_ONE = false).
Proof.
  intros s' t seed.
  assert (Hs' : s' = store_best (search env s w) s)
    by apply translate_n2_with_time_spec.
  split; [| split; [reflexivity | split]].
  - intros i j. rewrite in_candidates. unfold upper_ok, lower_ok.
    fold t. rewrite !negb_true_iff, !orb_false_iff, andb_false_iff,
      !rlt_false_iff.
    split.
    + intros (Hr & (H1 & H2) & H3 & H4). repeat split; try tauto.
      intros Hd. destruct H4 as [H4 | H4]; [exact H4 | congruence].
    + intros (Hr & H1 & H2 & H3 & H4). repeat split; try tauto.
      destruct (POET_DISABLE_IDLE env); [left; auto | right; reflexivity].
  - unfold search in Hs'.
    destruct (fold_consider_best s w (candidates env s) (search_seed s))
      as [[Heq Hall] | (l1 & [i j] & l2 & Hl & Heq & Hb & H1 & H2)].
    + left. rewrite Heq in Hs'. rewrite Hs'. repeat split. exact Hall.
    + right. exists l1, i, j, l2. rewrite Heq in Hs'. rewrite Hs'.
      destruct (best_ids_retained s w (i, j)) as [Hu Hlo].
      repeat split; auto.
      simpl. apply best_cost_retained.
  - intros Hd Hpos. rewrite Hs' in *. unfold search in *.
    destruct (fold_consider_cases s w (candidates env s) (search_seed s))
      as [Heq | ([i j] & Hin & Heq)]; rewrite Heq in *.
    + simpl in Hpos. lia.
    + destruct (best_ids_retained s w (i, j)) as [_ Hlo].
      simpl lower_id. rewrite Hlo. simpl snd.
      apply in_candidates in Hin. destruct Hin as (_ & _ & Hlow).
      unfold lower_ok in Hlow. rewrite Hd in Hlow.
      apply negb_true_iff, orb_false_iff in Hlow.
      destruct Hlow as [_ Hlow]. rewrite andb_true_r in Hlow. exact Hlow.
Qed.

End SearchOrder.

Section Ranges.

Context {K : RealKernel} {PC : PoetConstants} {O : RealOrder K}
        {F : SmallFloors PC}.
Local Open Scope real_scope.

(** ** The ranges computed by [poet_init] *)

Lemma floor_at_ge (c v : real_t) :
  rle c (floor_at c v) = true /\ rle v (floor_at c v) = true.
Proof.
  unfold floor_at. destruct (v <? c) eqn:H.
  - split; [apply rle_refl | apply rlt_weak, H].
  - split; [apply rlt_false_iff, H | apply rle_refl].
Qed.

Lemma is_min_of_step (m c v : real_t) (l : list real_t) (test : bool) :
  is_min_of m l -> rle c m = true ->
  (test = true -> rle v m = true) ->
  (test = false -> rle m v = true) ->
  let m' := if test then floor_at c v else m in
  is_min_of m' (l ++ [floor_at c v]) /\ rle c m' = true.
Proof.
  intros [Hin Hle] Hc Ht Hf. destruct test; cbv zeta.
  - destruct (floor_at_ge c v) as [G1 G2].
    assert (Hfm : rle (floor_at c v) m = true).
    { unfold floor_at. destruct (v <? c); [exact Hc | exact (Ht eq_refl)]. }
    split; [split |].
    + apply in_or_app. right. left. reflexivity.
    + intros x Hx. apply in_app_or in Hx. destruct Hx as [Hx | [<- | []]].
      * exact (rle_trans _ _ _ Hfm (Hle x Hx)).
      * apply rle_refl.
    + exact G1.
  - destruct (floor_at_ge c v) as [G1 G2].
    split; [split |].
    + apply in_or_app. left. exact Hin.
    + intros x Hx. apply in_app_or in Hx. destruct Hx as [Hx | [<- | []]].
      * exact (Hle x Hx).
      * exact (rle_trans _ _ _ (Hf eq_refl) G2).
    + exact Hc.
Qed.

Lemma is_max_of_step (m v : real_t) (l : list real_t) :
  is_max_of m l ->
  is_max_of (if v >=? m then v else m) (l ++ [v]).
Proof.
  intros [Hin Hle]. destruct (v >=? m) eqn:H.
  - split.
    + apply in_or_app. right. left. reflexivity.
    + intros x Hx. apply in_app_or in Hx. destruct Hx as [Hx | [<- | []]].
      * exact (rle_trans _ _ _ (Hle x Hx) H).
      * apply rle_refl.
  - split.
    + apply in_or_app. left. exact Hin.
    + intros x Hx. apply in_app_or in Hx. destruct Hx as [Hx | [<- | []]].
      * exact (Hle x Hx).
      * apply rle_false_weak, H.
Qed.

(** One iteration of the loop of [poet_init], field by field. *)
Lemma min_max_body_fields (j : Z) (s : poet_state) :
  let en := state_at (control_states s) j in
  let s1 := min_max_body j s in
  umin (scs s1) = (if speedup en <? umin (scs s)
                   then floor_at U_MIN_SPEEDUP (speedup en)
                   else umin (scs s))
  /\ umax (scs s1) = (if speedup en >=? umax (scs s) then speedup en
                      else umax (scs s))
  /\ umin (pcs s1) = (if cost en <=? umin (pcs s)
                      then floor_at U_MIN_COST (cost en)
                      else umin (pcs s))
  /\ umax (pcs s1) = (if cost en >=? umax (pcs s) then cost en
                      else umax (pcs s))
  /\ control_states s1 = control_states s.
Proof.
  cbv zeta. unfold min_max_body, floor_at. cbv zeta.
  destruct (speedup (state_at (control_states s) j) <? umin (scs s));
    cbn [scs pcs control_states set_scs set_pcs umin umax set_umin set_umax];
    destruct (speedup (state_at (control_states s) j) >=? umax (scs s));
    cbn [scs pcs control_states set_scs set_pcs umin umax set_umin set_umax];
    destruct (cost (state_at (control_states s) j) <=? umin (pcs s));
    cbn [scs pcs control_states set_scs set_pcs umin umax set_umin set_umax];
    destruct (cost (state_at (control_states s) j) >=? umax (pcs s));
    cbn [scs pcs control_states set_scs set_pcs umin umax set_umin set_umax];
    repeat split.
Qed.

Lemma min_max_body_ranges (j : Z) (s : poet_state)
    (seen : list poet_control_state_t) :
  ranges_over seen s ->
  rle U_MIN_SPEEDUP (umin (scs s)) = true ->
  rle U_MIN_COST (umin (pcs s)) = true ->
  ranges_over (seen ++ [state_at (control_states s) j]) (min_max_body j s)
  /\ rle U_MIN_SPEEDUP (umin (scs (min_max_body j s))) = true
  /\ rle U_MIN_COST (umin (pcs (min_max_body j s))) = true.
Proof.
  intros (R1 & R2 & R3 & R4) B1 B2.
  destruct (min_max_body_fields j s) as (E1 & E2 & E3 & E4 & _).
  unfold ranges_over. rewrite E1, E2, E3, E4, !map_app. cbn [map].
  set (en := state_at (control_states s) j).
  destruct (is_min_of_step (umin (scs s)) U_MIN_SPEEDUP (speedup en)
              (R_ONE :: map (fun en => floor_at U_MIN_SPEEDUP (speedup en)) seen)
              (speedup en <? umin (scs s)) R1 B1) as [M1 M2].
  { apply rlt_weak. }
  { apply rlt_false_iff. }
  destruct (is_min_of_step (umin (pcs s)) U_MIN_COST (cost en)
              (R_ONE :: map (fun en => floor_at U_MIN_COST (cost en)) seen)
              (cost en <=? umin (pcs s)) R3 B2) as [M3 M4].
  { auto. }
  { apply rle_false_weak. }
  pose proof (is_max_of_step (umax (scs s)) (speedup en) _ R2) as M5.
  pose proof (is_max_of_step (umax (pcs s)) (cost en) _ R4) as M6.
  repeat split; assumption || apply M1 || apply M3 || apply M5 || apply M6.
Qed.

Lemma min_max_loop_ranges (table : list poet_control_state_t) (js : list Z) :
  forall (seen : list poet_control_state_t) (s : poet_state),
    control_states s = table ->
    ranges_over seen s ->
    rle U_MIN_SPEEDUP (umin (scs s)) = true ->
    rle U_MIN_COST (umin (pcs s)) = true ->
    ranges_over (seen ++ map (state_at table) js)
                (fold_left (fun acc i => min_max_body i acc) js s).
Proof.
  induction js as [|j js IH]; intros seen s Ht Hr B1 B2; cbn [fold_left map].
  - rewrite app_nil_r. exact Hr.
  - destruct (min_max_body_ranges j s seen Hr B1 B2) as (Hr' & B1' & B2').
    destruct (min_max_body_fields j s) as (_ & _ & _ & _ & Hcs).
    rewrite Ht in Hr'.
    replace (seen ++ state_at table j :: map (state_at table) js)
      with ((seen ++ [state_at table j]) ++ map (state_at table) js)
      by (rewrite <- app_assoc; reflexivity).
    apply IH; auto. rewrite Hcs. exact Ht.
Qed.

(** The ranges of an initialized engine. *)
Lemma init_ranges (res : resources) (goal : real_t) (c : poet_tradeoff_type_t)
    (n : Z) (cs : option (list poet_control_state_t)) (ast : Z) (ap : bool)
    (cur : option (Z * Z)) (per bd : Z) (lf : option string)
    (s : poet_state) :
  poet_init res goal c n cs ast ap cur per bd lf = Engine s ->
  exists table, cs = Some table /\ ranges_over (entries table n) s.
Proof.
  unfold poet_init.
  destruct ((goal <=? R_ZERO) || (n =? 0)%Z || is_null cs || (per =? 0)%Z
            || ((bd =? 0)%Z && negb (is_null lf))) eqn:Htest;
    [discriminate |].
  destruct (negb (malloc_state_ok res)); [discriminate |].
  destruct ((0 <? bd)%Z && negb (malloc_lb_ok res)); [discriminate |].
  destruct (negb (is_null lf) && negb (fopen_ok res)); [discriminate |].
  destruct cs as [table|].
  2:{ rewrite !orb_false_iff in Htest. simpl in Htest.
      destruct Htest as [[[[_ _] Hn] _] _]. discriminate. }
  intros Heq. injection Heq as <-.
  exists table. split; [reflexivity |].
  rewrite for_loop_ids. cbn [num_system_states].
  apply (min_max_loop_ranges table (ids n) []).
  - reflexivity.
  - unfold ranges_over, is_min_of, is_max_of. cbn [scs pcs umin umax map In].
    repeat split; auto; intros x [<- | []]; apply rle_refl.
  - cbn [scs umin]. apply U_MIN_SPEEDUP_le_1.
  - cbn [pcs umin]. apply U_MIN_COST_le_1.
Qed.

(** C8 (amended): after [poet_init], the lower end [umin] of the speedup
    controller is the least of one and the speedups of the entries, each
    floored at [U_MIN_SPEEDUP] (zero speedups are floored, not skipped),
    and its upper end [umax] is the greatest of one and the speedups of
    the entries; likewise the range of the powerup controller is taken
    over one and the costs of the entries, floored at [U_MIN_COST]. *)
Theorem init_ranges_from_table (res : resources) (goal : real_t)
    (c : poet_tradeoff_type_t) (n : Z)
    (cs : option (list poet_control_state_t)) (ast : Z) (ap : bool)
    (cur : option (Z * Z)) (per bd : Z) (lf : option string)
    (s : poet_state) :
  poet_init res goal c n cs ast ap cur per bd lf = Engine s ->
  exists table,
    cs = Some table
    /\ is_min_of (umin (scs s))
         (R_ONE :: map (fun en => floor_at U_MIN_SPEEDUP (speedup en))
                       (entries table n))
    /\ is_max_of (umax (scs s)) (R_ONE :: map speedup (entries table n))
    /\ is_min_of (umin (pcs s))
         (R_ONE :: map (fun en => floor_at U_MIN_COST (cost en))
                       (entries table n))
    /\ is_max_of (umax (pcs s)) (R_ONE :: map cost (entries table n)).
Proof.
  intros Hinit.
  destruct (init_ranges _ _ _ _ _ _ _ _ _ _ _ _ Hinit) as (table & Hcs & Hr).
  exists table. split; [exact Hcs | exact Hr].
Qed.

End Ranges.

Section Clamp.

Context {K : RealKernel} {PC : PoetConstants} {O : RealOrder K}
        {F : SmallFloors PC}.
Local Open Scope real_scope.

(** ** The range of the controllers along a run *)

Lemma calculate_xup_fields (current desired w : real_t) (c : calc_xup_state) :
  umin (calculate_xup current desired w c) = umin c
  /\ umax (calculate_xup current desired w c) = umax c
  /\ exists raw, u (calculate_xup current desired w c)
                 = clamp (umin c) (umax c) raw.
Proof.
  unfold calculate_xup. cbv zeta.
  set (c1 := set_u _ (set_e (desired - current) c)).
  assert (Hmn : umin c1 = umin c) by reflexivity.
  assert (Hmx : umax c1 = umax c) by reflexivity.
  rewrite <- Hmn, <- Hmx. clearbody c1. clear Hmn Hmx.
  destruct c1 as [u0 uo0 uoo0 e0 eo0 mn mx]. unfold clamp. simpl.
  destruct (u0 <? mn) eqn:H1; simpl;
    [destruct (mn >? mx) eqn:H2 | destruct (u0 >? mx) eqn:H2]; simpl;
    (split; [reflexivity | split; [reflexivity |]]);
    exists u0; rewrite H1; cbv iota; rewrite H2; reflexivity.
Qed.

Lemma before_search_ranges (s : poet_state) (perf pwr : real_t) :
  let s1 := before_search s perf pwr in
  umin (scs s1) = umin (scs s) /\ umax (scs s1) = umax (scs s)
  /\ umin (pcs s1) = umin (pcs s) /\ umax (pcs s1) = umax (pcs s).
Proof.
  cbv zeta. unfold before_search.
  destruct (constraint s); cbn [scs pcs set_scs set_pcs set_cfs set_pfs].
  - destruct (calculate_xup_fields perf (constraint_goal s)
                (fst (estimate_base_workload perf (u (scs s)) (pfs s)))
                (scs s)) as (H1 & H2 & _).
    rewrite H1, H2. repeat split.
  - destruct (calculate_xup_fields pwr (constraint_goal s)
                (fst (estimate_base_workload pwr (u (pcs s)) (cfs s)))
                (pcs s)) as (H1 & H2 & _).
    rewrite H1, H2. repeat split.
Qed.

Lemma calculate_cost_xup_ranges (s : poet_state) :
  let s1 := calculate_cost_xup s in
  umin (scs s1) = umin (scs s) /\ umax (scs s1) = umax (scs s)
  /\ umin (pcs s1) = umin (pcs s) /\ umax (pcs s1) = umax (pcs s).
Proof.
  cbv zeta. unfold calculate_cost_xup.
  destruct (constraint s); repeat split.
Qed.

(** [poet_apply_control] never changes the ranges. *)
Lemma apply_control_ranges (env : environment) (s : poet_state) (id : Z)
    (perf pwr : real_t) (s' : poet_state) :
  fst (poet_apply_control env (Some s) id perf pwr) = Some s' ->
  umin (scs s') = umin (scs s) /\ umax (scs s') = umax (scs s)
  /\ umin (pcs s') = umin (pcs s) /\ umax (pcs s') = umax (pcs s).
Proof.
  destruct (POET_DISABLE_CONTROL env) eqn:Hc.
  - unfold poet_apply_control. rewrite Hc. cbn [fst].
    intros Heq. injection Heq as <-. repeat split.
  - destruct (Z.eq_dec (current_action s) 0) as [Hb | Hb].
    + destruct (boundary_call env s id perf pwr Hc Hb)
        as (rows & Hcall & Hrows).
      rewrite Hcall. cbn [fst]. intros Heq. injection Heq as <-.
      destruct (finish_fields env (fst rows)) as (_ & _ & H1 & H2 & _).
      pose proof (logger_fields (calculate_cost_xup (planned env s perf pwr))
                    id perf pwr (snd (fst (plan_period env s perf pwr)))
                    (snd (plan_period env s perf pwr))) as Hlog.
      cbv zeta in Hlog. rewrite <- Hrows in Hlog.
      destruct Hlog as (_ & _ & H3 & H4 & _).
      destruct (calculate_cost_xup_ranges (planned env s perf pwr))
        as (C1 & C2 & C3 & C4).
      pose proof (store_best_fields
                    (search env (before_search s perf pwr)
                            (search_workload s perf pwr))
                    (before_search s perf pwr)) as Hst.
      cbv zeta in Hst. rewrite <- planned_eq in Hst.
      destruct Hst as (_ & _ & S1 & S2 & _).
      destruct (before_search_ranges s perf pwr) as (B1 & B2 & B3 & B4).
      rewrite H1, H2, H3, H4, C1, C2, C3, C4, S1, S2. auto.
    + rewrite (inner_call env s id perf pwr Hc Hb). cbn [fst].
      intros Heq. injection Heq as <-.
      destruct (finish_fields env s) as (_ & _ & H1 & H2 & _).
      rewrite H1, H2. repeat split.
Qed.

(** The ranges of a reachable engine are not empty. *)
Lemma reachable_ranges (s : poet_state) :
  reachable s ->
  rle (umin (scs s)) (umax (scs s)) = true
  /\ rle (umin (pcs s)) (umax (pcs s)) = true.
Proof.
  induction 1 as [res goal c n cs ast ap cur per bd lf s Hinit
                 | env s id perf pwr s' Hr IH Hstep
                 | s c goal s' Hr IH Hset].
  - destruct (init_ranges _ _ _ _ _ _ _ _ _ _ _ _ Hinit)
      as (table & _ & (_ & M1) & (_ & X1) & (_ & M2) & (_ & X2)).
    split.
    + exact (rle_trans _ _ _ (M1 R_ONE (in_eq _ _)) (X1 R_ONE (in_eq _ _))).
    + exact (rle_trans _ _ _ (M2 R_ONE (in_eq _ _)) (X2 R_ONE (in_eq _ _))).
  - destruct (apply_control_ranges env s id perf pwr s' Hstep)
      as (H1 & H2 & H3 & H4).
    rewrite H1, H2, H3, H4. exact IH.
  - unfold poet_set_constraint_type in Hset.
    destruct (goal >? R_ZERO); injection Hset as <-; exact IH.
Qed.

Lemma active_controller_ext (s1 s2 : poet_state) :
  scs s1 = scs s2 -> pcs s1 = pcs s2 -> constraint s1 = constraint s2 ->
  active_controller s1 = active_controller s2.
Proof. unfold active_controller. intros -> -> ->. reflexivity. Qed.

(** C2 (amended): after every call of [poet_apply_control] at a period
    boundary (control enabled) on a reachable engine, the output [u] of the
    controller of the constrained dimension (the speedup controller under a
    performance constraint, the powerup controller under a power
    constraint) lies between that controller's [umin] and [umax].  The
    controller of the other dimension is reseeded with the cost estimate of
    the planner and is not clamped. *)
Theorem active_controller_in_range (s : poet_state) (env : environment)
    (id : Z) (perf pwr : real_t) (s' : poet_state) (fx : effects) :
  reachable s ->
  POET_DISABLE_CONTROL env = false ->
  current_action s = 0%Z ->
  poet_apply_control env (Some s) id perf pwr = (Some s', fx) ->
  rle (umin (active_controller s')) (u (active_controller s')) = true
  /\ rle (u (active_controller s')) (umax (active_controller s')) = true.
Proof.
  intros Hr Hc Hb Hcall.
  destruct (boundary_call env s id perf pwr Hc Hb) as (rows & Hcall' & Hrows).
  rewrite Hcall in Hcall'. injection Hcall' as -> _.
  destruct (finish_fields env (fst rows)) as (_ & _ & H1 & H2 & H3 & _).
  pose proof (logger_fields (calculate_cost_xup (planned env s perf pwr))
                id perf pwr (snd (fst (plan_period env s perf pwr)))
                (snd (plan_period env s perf pwr))) as Hlog.
  cbv zeta in Hlog. rewrite <- Hrows in Hlog.
  destruct Hlog as (_ & _ & L1 & L2 & L3 & _).
  destruct (calculate_cost_xup_fields (planned env s perf pwr))
    as (_ & _ & _ & C1 & _).
  pose proof (store_best_fields
                (search env (before_search s perf pwr)
                        (search_workload s perf pwr))
                (before_search s perf pwr)) as Hst.
  cbv zeta in Hst. rewrite <- planned_eq in Hst.
  destruct Hst as (_ & _ & S1 & S2 & S3 & _).
  destruct (before_search_fields s perf pwr) as (_ & _ & _ & B1 & _).
  rewrite (active_controller_ext _ (fst rows) H1 H2 H3).
  rewrite (active_controller_ext _ _ L1 L2 L3), C1.
  rewrite (active_controller_ext _ _ S1 S2 S3), B1.
  destruct (calculate_xup_fields
              (match constraint s with POWER => pwr | PERFORMANCE => perf end)
              (constraint_goal s) (search_workload s perf pwr)
              (active_controller s)) as (E1 & E2 & raw & E3).
  rewrite E1, E2, E3. apply clamp_in_range.
  destruct (reachable_ranges s Hr) as [R1 R2].
  unfold active_controller. destruct (constraint s); assumption.
Qed.

End Clamp.

(** * The engine in exact arithmetic *)

#[export] Instance exact_order : RealOrder exact_kernel.
Proof.
  split.
  - intros a b. reflexivity.
  - intros a b. simpl.
    destruct (Qlt_le_dec b a) as [H | H].
    + right. apply Qle_bool_iff. apply Qlt_le_weak. exact H.
    + left. apply Qle_bool_iff. exact H.
  - intros a b c. simpl. rewrite !Qle_bool_iff. apply Qle_trans.
Qed.

#[export] Instance sample_floors : SmallFloors sample_constants.
Proof. split; reflexivity. Qed.

Section Exact.

Context {PC : @PoetConstants exact_kernel}.










End Exact.

(** * Further properties of the engine *)

Section Calls.

Context {K : RealKernel} {PC : PoetConstants}.
Local Open Scope real_scope.

(** ** The shape of a call *)

Lemma dispatch_eq (env : environment) (cfg : Z) (s : poet_state) :
  dispatch env cfg s
  = if dispatches s cfg then
      if apply s && negb (POET_DISABLE_APPLY env) then
        (set_idle_ns 0 (set_last_id cfg (set_is_first_apply 0 s)),
         Some {| ac_apply_states := apply_states s;
                 ac_num_states := num_system_states s;
                 ac_id := cfg;
                 ac_last_id := last_id s;
                 ac_idle_ns := idle_ns s;
                 ac_is_first_apply := is_first_apply s |})
      else (set_idle_ns 0 (set_last_id cfg s), None)
    else (s, None).
Proof.
  unfold dispatch, dispatches.
  destruct ((0 <=? cfg)%Z
            && (negb (cfg =? last_id s)%Z || (0 <? is_first_apply s)%Z));
    [| reflexivity].
  destruct (apply s && negb (POET_DISABLE_APPLY env)); reflexivity.
Qed.

Lemma finish_eq (env : environment) (s : poet_state) :
  finish env s
  = let cfg := chosen_config s in
    let s1 := if (0 <? low_state_iters s)%Z
              then set_low_state_iters (low_state_iters s - 1)%Z s else s in
    let next := ((current_action s + 1) mod period s)%Z in
    if dispatches s cfg then
      if apply s && negb (POET_DISABLE_APPLY env) then
        (set_current_action next
           (set_idle_ns 0 (set_last_id cfg (set_is_first_apply 0 s1))),
         Some {| ac_apply_states := apply_states s;
                 ac_num_states := num_system_states s;
                 ac_id := cfg;
                 ac_last_id := last_id s;
                 ac_idle_ns := idle_ns s;
                 ac_is_first_apply := is_first_apply s |})
      else (set_current_action next (set_idle_ns 0 (set_last_id cfg s1)), None)
    else (set_current_action next s1, None).
Proof.
  unfold finish, chosen_config, select_config.
  destruct (0 <? low_state_iters s)%Z; [| destruct (0 <=? upper_id s)%Z];
    cbn [fst snd]; rewrite dispatch_eq; cbv zeta;
    match goal with
    | |- context [dispatches ?x ?c] =>
        change (dispatches x c) with (dispatches s c);
        destruct (dispatches s c)
    end; try reflexivity;
    match goal with
    | |- context [apply ?x && _] => change (apply x) with (apply s)
    end;
    destruct (apply s && negb (POET_DISABLE_APPLY env)); reflexivity.
Qed.

Lemma chosen_config_eq (s : poet_state) :
  chosen_config s
  = if (0 <? low_state_iters s)%Z then lower_id s
    else if (0 <=? upper_id s)%Z then upper_id s else (-1)%Z.
Proof.
  unfold chosen_config, select_config.
  destruct (0 <? low_state_iters s)%Z; [| destruct (0 <=? upper_id s)%Z];
    reflexivity.
Qed.

Lemma host_fields_inv (s1 s2 : poet_state) :
  host_fields s1 = host_fields s2 ->
  last_id s1 = last_id s2 /\ is_first_apply s1 = is_first_apply s2
  /\ current_action s1 = current_action s2
  /\ constraint s1 = constraint s2
  /\ constraint_goal s1 = constraint_goal s2
  /\ log_file s1 = log_file s2 /\ buffer_depth s1 = buffer_depth s2
  /\ period s1 = period s2
  /\ num_system_states s1 = num_system_states s2
  /\ apply s1 = apply s2 /\ control_states s1 = control_states s2
  /\ apply_states s1 = apply_states s2.
Proof.
  unfold host_fields.
  generalize (last_id s1) (last_id s2) (is_first_apply s1) (is_first_apply s2)
    (current_action s1) (current_action s2) (constraint s1) (constraint s2)
    (constraint_goal s1) (constraint_goal s2) (log_file s1) (log_file s2)
    (buffer_depth s1) (buffer_depth s2) (period s1) (period s2)
    (num_system_states s1) (num_system_states s2) (apply s1) (apply s2)
    (control_states s1) (control_states s2) (apply_states s1)
    (apply_states s2).
  intros. injection H as -> -> -> -> -> -> -> -> -> -> -> ->.
  repeat split.
Qed.

Lemma schedule_fields_inv (s1 s2 : poet_state) :
  schedule_fields s1 = schedule_fields s2 ->
  lower_id s1 = lower_id s2 /\ upper_id s1 = upper_id s2
  /\ low_state_iters s1 = low_state_iters s2 /\ idle_ns s1 = idle_ns s2
  /\ cost_estimate s1 = cost_estimate s2
  /\ cost_xup_estimate s1 = cost_xup_estimate s2.
Proof.
  unfold schedule_fields.
  generalize (lower_id s1) (lower_id s2) (upper_id s1) (upper_id s2)
    (low_state_iters s1) (low_state_iters s2) (idle_ns s1) (idle_ns s2)
    (cost_estimate s1) (cost_estimate s2) (cost_xup_estimate s1)
    (cost_xup_estimate s2).
  intros. injection H as -> -> -> -> -> ->. repeat split.
Qed.

Lemma translate_reads_idle_switch (env1 env2 : environment) (s : poet_state)
    (w : real_t) :
  POET_DISABLE_IDLE env1 = POET_DISABLE_IDLE env2 ->
  translate_n2_with_time env1 s w = translate_n2_with_time env2 s w.
Proof.
  intros H. unfold translate_n2_with_time. rewrite H. reflexivity.
Qed.

Lemma plan_period_reads_idle_switch (env1 env2 : environment)
    (s : poet_state) (perf pwr : real_t) :
  POET_DISABLE_IDLE env1 = POET_DISABLE_IDLE env2 ->
  plan_period env1 s perf pwr = plan_period env2 s perf pwr.
Proof.
  intros H. rewrite !plan_period_eq.
  rewrite (translate_reads_idle_switch env1 env2 _ _ H). reflexivity.
Qed.

Lemma planned_reads_idle_switch (env1 env2 : environment)
    (s : poet_state) (perf pwr : real_t) :
  POET_DISABLE_IDLE env1 = POET_DISABLE_IDLE env2 ->
  planned env1 s perf pwr = planned env2 s perf pwr.
Proof.
  intros H. unfold planned.
  rewrite (plan_period_reads_idle_switch env1 env2 s perf pwr H).
  reflexivity.
Qed.

Lemma host_fields_before_search (s : poet_state) (perf pwr : real_t) :
  host_fields (before_search s perf pwr) = host_fields s
  /\ schedule_fields (before_search s perf pwr) = schedule_fields s.
Proof.
  unfold before_search, host_fields, schedule_fields.
  destruct (constraint s) eqn:Hc; split; try rewrite <- Hc; reflexivity.
Qed.

Lemma fields_store_best (b : best_pair) (s : poet_state) :
  host_fields (store_best b s) = host_fields s
  /\ control_fields (store_best b s) = control_fields s.
Proof. split; reflexivity. Qed.

Lemma fields_calculate_cost_xup (s : poet_state) :
  host_fields (calculate_cost_xup s) = host_fields s
  /\ schedule_fields (calculate_cost_xup s) = schedule_fields s.
Proof.
  unfold calculate_cost_xup, host_fields, schedule_fields.
  destruct (constraint s) eqn:Hc; split; try rewrite <- Hc; reflexivity.
Qed.

Lemma logger_eq (s : poet_state) (id : Z) (a b c d : real_t) :
  logger s id a b c d
  = if log_file s then
      let s' := set_lb (list_set (lb s) (Z.to_nat (log_index s id))
                                 (Some (log_record s id a b c d))) s in
      (s', if (log_index s id =? buffer_depth s - 1)%Z
           then for_loop (buffer_depth s)
                  (fun i rows =>
                     rows ++ [(constraint s, nth (Z.to_nat i) (lb s') None)])
                  []
           else [])
    else (s, []).
Proof.
  unfold logger, log_index, log_record.
  destruct (log_file s); [| reflexivity].
  cbv zeta.
  repeat match goal with
         | |- context [buffer_depth (set_lb ?l s)] =>
             change (buffer_depth (set_lb l s)) with (buffer_depth s)
         end.
  destruct ((id / period s) mod buffer_depth s =? buffer_depth s - 1)%Z;
    reflexivity.
Qed.

Lemma fields_logger (s : poet_state) (id : Z) (a b c d : real_t) :
  host_fields (fst (logger s id a b c d)) = host_fields s
  /\ schedule_fields (fst (logger s id a b c d)) = schedule_fields s
  /\ control_fields (fst (logger s id a b c d)) = control_fields s.
Proof.
  rewrite logger_eq. destruct (log_file s); cbv zeta; cbn [fst];
    repeat split.
Qed.

Lemma fields_planned (env : environment) (s : poet_state) (perf pwr : real_t) :
  host_fields (planned env s perf pwr) = host_fields s.
Proof.
  rewrite planned_eq.
  destruct (fields_store_best
              (search env (before_search s perf pwr)
                      (search_workload s perf pwr))
              (before_search s perf pwr)) as [-> _].
  apply host_fields_before_search.
Qed.

(** A call with control enabled dispatches from the engine [y] that
    planning and logging leave: it has the schedule of [scheduled] and the
    host fields of the engine before the call. *)
Lemma call_shape (env : environment) (s : poet_state) (id : Z)
    (perf pwr : real_t) :
  POET_DISABLE_CONTROL env = false ->
  exists y rows,
    poet_apply_control env (Some s) id perf pwr
    = (Some (fst (finish env y)),
       {| applied := snd (finish env y); printed := rows |})
    /\ host_fields y = host_fields s
    /\ lower_id y = lower_id (scheduled env s perf pwr)
    /\ upper_id y = upper_id (scheduled env s perf pwr)
    /\ low_state_iters y = low_state_iters (scheduled env s perf pwr)
    /\ idle_ns y = idle_ns (scheduled env s perf pwr).
Proof.
  intros Hc. unfold scheduled.
  destruct (Z.eq_dec (current_action s) 0) as [Hb | Hb].
  - destruct (boundary_call env s id perf pwr Hc Hb) as (rows & Hcall & Hrows).
    exists (fst rows), (snd rows). split; [exact Hcall |].
    rewrite Hb. cbn [Z.eqb].
    destruct (fields_logger (calculate_cost_xup (planned env s perf pwr)) id
                perf pwr (snd (fst (plan_period env s perf pwr)))
                (snd (plan_period env s perf pwr))) as (L1 & L2 & _).
    rewrite <- Hrows in L1, L2.
    destruct (fields_calculate_cost_xup (planned env s perf pwr)) as (C1 & C2).
    split.
    + rewrite L1, C1. apply fields_planned.
    + rewrite C2 in L2.
      destruct (schedule_fields_inv _ _ L2) as (S1 & S2 & S3 & S4 & _).
      auto.
  - exists s, []. split; [apply inner_call; assumption |].
    apply Z.eqb_neq in Hb. rewrite Hb. repeat split.
Qed.

End Calls.

Section CallProperties.

Context {K : RealKernel} {PC : PoetConstants}.
Local Open Scope real_scope.

(** The engine and the callback after the dispatch step. *)
Lemma finish_post (env : environment) (y : poet_state) :
  let cfg := chosen_config y in
  let called := dispatches y cfg && (apply y && negb (POET_DISABLE_APPLY env)) in
  let y' := fst (finish env y) in
  last_id y' = (if dispatches y cfg then cfg else last_id y)
  /\ current_action y' = ((current_action y + 1) mod period y)%Z
  /\ low_state_iters y'
     = (if (0 <? low_state_iters y)%Z then (low_state_iters y - 1)%Z
        else low_state_iters y)
  /\ idle_ns y' = (if dispatches y cfg then 0%Z else idle_ns y)
  /\ is_first_apply y' = (if called then 0%Z else is_first_apply y)
  /\ snd (finish env y)
     = (if called then
          Some {| ac_apply_states := apply_states y;
                  ac_num_states := num_system_states y;
                  ac_id := cfg;
                  ac_last_id := last_id y;
                  ac_idle_ns := idle_ns y;
                  ac_is_first_apply := is_first_apply y |}
        else None)
  /\ lower_id y' = lower_id y /\ upper_id y' = upper_id y
  /\ cost_estimate y' = cost_estimate y
  /\ cost_xup_estimate y' = cost_xup_estimate y
  /\ control_fields y' = control_fields y
  /\ lb y' = lb y
  /\ constraint y' = constraint y /\ constraint_goal y' = constraint_goal y
  /\ log_file y' = log_file y /\ buffer_depth y' = buffer_depth y
  /\ period y' = period y /\ num_system_states y' = num_system_states y
  /\ apply y' = apply y /\ control_states y' = control_states y
  /\ apply_states y' = apply_states y.
Proof.
  cbv zeta. rewrite finish_eq. cbv zeta.
  destruct (dispatches y (chosen_config y));
    destruct (apply y && negb (POET_DISABLE_APPLY env));
    destruct (0 <? low_state_iters y)%Z; repeat split.
Qed.

Lemma chosen_config_ext (s1 s2 : poet_state) :
  lower_id s1 = lower_id s2 -> upper_id s1 = upper_id s2 ->
  low_state_iters s1 = low_state_iters s2 ->
  chosen_config s1 = chosen_config s2.
Proof.
  intros H1 H2 H3. rewrite !chosen_config_eq, H1, H2, H3. reflexivity.
Qed.

Lemma dispatches_ext (s1 s2 : poet_state) (cfg : Z) :
  host_fields s1 = host_fields s2 -> dispatches s1 cfg = dispatches s2 cfg.
Proof.
  intros H. destruct (host_fields_inv _ _ H) as (H1 & H2 & _).
  unfold dispatches. rewrite H1, H2. reflexivity.
Qed.

Lemma dispatches_true (s : poet_state) (cfg : Z) :
  dispatches s cfg = true ->
  (0 <= cfg)%Z /\ (cfg <> last_id s \/ (0 < is_first_apply s)%Z).
Proof.
  unfold dispatches. intros H. apply andb_true_iff in H.
  destruct H as [H1 H2]. apply orb_true_iff in H2. split; [lia |].
  destruct H2 as [H2 | H2]; [left | right].
  - apply negb_true_iff in H2. lia.
  - lia.
Qed.

Lemma dispatches_false (s : poet_state) (cfg : Z) :
  dispatches s cfg = false ->
  (cfg < 0)%Z \/ (cfg = last_id s /\ (is_first_apply s <= 0)%Z).
Proof.
  unfold dispatches. intros H. apply andb_false_iff in H.
  destruct H as [H | H]; [left; lia | right].
  apply orb_false_iff in H. destruct H as [H1 H2].
  apply negb_false_iff in H1. lia.
Qed.

Lemma finish_apply_disabled (env : environment) (y : poet_state) :
  snd (finish (with_apply_disabled env) y) = None
  /\ fst (finish (with_apply_disabled env) y)
     = set_is_first_apply (is_first_apply y) (fst (finish env y)).
Proof.
  rewrite !finish_eq. cbv zeta. cbn [POET_DISABLE_APPLY with_apply_disabled].
  rewrite andb_false_r.
  destruct (dispatches y (chosen_config y));
    destruct (apply y && negb (POET_DISABLE_APPLY env));
    destruct (0 <? low_state_iters y)%Z; cbn [fst snd];
    (split; [reflexivity |]); destruct y; reflexivity.
Qed.

End CallProperties.

Section CallTheorems.

Context {K : RealKernel} {PC : PoetConstants}.
Local Open Scope real_scope.

(** ** One call *)

Lemma next_action_fits (ca per : Z) :
  (0 <= ca < per)%Z -> (per <= INT_MAX)%Z ->
  next_action ca per = ((ca + 1) mod per)%Z.
Proof.
  intros Hca Hper. unfold next_action, to_uint, uint_to_int, INT_MAX in *.
  rewrite (Z.mod_small (ca + 1) 4294967296) by lia.
  pose proof (Z.mod_pos_bound (ca + 1) per ltac:(lia)) as Hr.
  replace ((ca + 1) mod per <=? 2147483647)%Z with true; [reflexivity |].
  symmetry. apply Z.leb_le. lia.
Qed.

(** X1: for a period that fits an [int] ([period <= INT_MAX]) and a
    counter in [0, period), a call with control enabled leaves the period
    alone and stores in the action counter the value that the [int] and
    [unsigned int] arithmetic of the source yields, which is the counter
    plus one modulo the period; the counter stays in [0, period). *)
Theorem action_counter_advances (env : environment) (s : poet_state) (id : Z)
    (perf pwr : real_t) (s' : poet_state) (fx : effects) :
  (0 <= current_action s < period s)%Z ->
  (period s <= INT_MAX)%Z ->
  POET_DISABLE_CONTROL env = false ->
  poet_apply_control env (Some s) id perf pwr = (Some s', fx) ->
  period s' = period s
  /\ current_action s' = next_action (current_action s) (period s)
  /\ current_action s' = ((current_action s + 1) mod period s)%Z
  /\ (0 <= current_action s' < period s')%Z.
Proof.
  intros Hca Hper Hc Hcall.
  destruct (call_shape env s id perf pwr Hc) as (y & rows & Heq & Hh & _).
  rewrite Hcall in Heq. injection Heq as -> _.
  destruct (finish_post env y) as (_ & H2 & _ & _ & _ & _ & _ & _ & _ & _ & _
                                   & _ & _ & _ & _ & _ & H3 & _).
  destruct (host_fields_inv _ _ Hh) as (_ & _ & Hcy & _ & _ & _ & _ & Hp & _).
  rewrite H2, H3, Hcy, Hp.
  split; [reflexivity |].
  split; [symmetry; apply next_action_fits; assumption |].
  split; [reflexivity |].
  apply Z.mod_pos_bound. lia.
Qed.

(** X3: a call inside a period (control enabled, action counter not zero)
    plans nothing: both filters, both controllers, the scheduled pair, the
    cost estimates, the constraint and the log buffer are unchanged,
    nothing is printed, and [low_state_iters] is decremented when
    positive. *)
Theorem inner_call_keeps_plan (env : environment) (s : poet_state) (id : Z)
    (perf pwr : real_t) (s' : poet_state) (fx : effects) :
  POET_DISABLE_CONTROL env = false ->
  current_action s <> 0%Z ->
  poet_apply_control env (Some s) id perf pwr = (Some s', fx) ->
  control_fields s' = control_fields s
  /\ lower_id s' = lower_id s /\ upper_id s' = upper_id s
  /\ cost_estimate s' = cost_estimate s
  /\ cost_xup_estimate s' = cost_xup_estimate s
  /\ constraint s' = constraint s /\ constraint_goal s' = constraint_goal s
  /\ lb s' = lb s /\ printed fx = []
  /\ low_state_iters s'
     = (if (0 <? low_state_iters s)%Z then (low_state_iters s - 1)%Z
        else low_state_iters s).
Proof.
  intros Hc Hb Hcall. rewrite (inner_call env s id perf pwr Hc Hb) in Hcall.
  injection Hcall as <- <-.
  destruct (finish_post env s) as (_ & _ & H3 & _ & _ & _ & H7 & H8 & H9 & H10
                                   & H11 & H12 & H13 & H14 & _).
  cbn [printed]. repeat split; assumption.
Qed.

(** X4: the apply callback is invoked only for a chosen configuration that
    is a state id ([>= 0]) and that differs from [last_id] or is the first
    to be applied, and only when the callback is non-null and
    [POET_DISABLE_APPLY] is unset; it receives the host's handle and table
    size, the chosen id, the previous [last_id], the scheduled idle time
    and the first-apply flag; afterwards [last_id] is the chosen id and
    the flag and the idle time are zero.  Without a call the flag is
    unchanged, and no call is made for the configuration already applied
    once the flag is down. *)
Theorem apply_callback_contract (env : environment) (s : poet_state) (id : Z)
    (perf pwr : real_t) (s' : poet_state) (fx : effects) :
  POET_DISABLE_CONTROL env = false ->
  poet_apply_control env (Some s) id perf pwr = (Some s', fx) ->
  let sp := scheduled env s perf pwr in
  (forall c, applied fx = Some c ->
     ac_id c = chosen_config sp /\ (0 <= ac_id c)%Z
     /\ (ac_id c <> last_id s \/ (0 < is_first_apply s)%Z)
     /\ ac_last_id c = last_id s
     /\ ac_is_first_apply c = is_first_apply s
     /\ ac_num_states c = num_system_states s
     /\ ac_apply_states c = apply_states s
     /\ ac_idle_ns c = idle_ns sp
     /\ apply s = true /\ POET_DISABLE_APPLY env = false
     /\ last_id s' = ac_id c /\ is_first_apply s' = 0%Z /\ idle_ns s' = 0%Z)
  /\ (applied fx = None -> is_first_apply s' = is_first_apply s)
  /\ (chosen_config sp = last_id s -> (is_first_apply s <= 0)%Z ->
      applied fx = None).
Proof.
  intros Hc Hcall sp.
  destruct (call_shape env s id perf pwr Hc)
    as (y & rows & Heq & Hh & S1 & S2 & S3 & Hidle).
  fold sp in S1, S2, S3, Hidle.
  rewrite Hcall in Heq. injection Heq as -> ->.
  pose proof (chosen_config_ext y sp S1 S2 S3) as Hcfg.
  pose proof (dispatches_ext y s (chosen_config y) Hh) as Hd.
  destruct (finish_post env y) as (H1 & _ & _ & H4 & H5 & H6 & _).
  destruct (host_fields_inv _ _ Hh)
    as (Hl & Hf & _ & _ & _ & _ & _ & _ & Hn & Ha & _ & Has).
  cbn [applied]. rewrite H6, H1, H4, H5, Hd, Hcfg, Hl, Hf, Hn, Ha, Has, Hidle.
  destruct (dispatches s (chosen_config sp)) eqn:Hdis; cbn [andb].
  - destruct (dispatches_true s _ Hdis) as [P1 P2].
    destruct (apply s) eqn:Hap; cbn [andb];
      [destruct (POET_DISABLE_APPLY env) eqn:Hda; cbn [negb] |].
    + split; [intros c Hx; discriminate |].
      split; [reflexivity |]. intros He Hz. exfalso. lia.
    + split; [| split; [intros Hx; discriminate |]].
      * intros c Hx. injection Hx as <-. cbn. repeat split; assumption.
      * intros He Hz. exfalso. lia.
    + split; [intros c Hx; discriminate |].
      split; [reflexivity |]. intros He Hz. exfalso. lia.
  - split; [intros c Hx; discriminate |]. split; reflexivity.
Qed.

(** X5: after a call with control enabled, [last_id] is the configuration
    the schedule chooses, whether or not the callback ran; when the
    schedule chooses none, [last_id] is unchanged and the callback is not
    invoked. *)
Theorem last_id_follows_schedule (env : environment) (s : poet_state) (id : Z)
    (perf pwr : real_t) (s' : poet_state) (fx : effects) :
  POET_DISABLE_CONTROL env = false ->
  poet_apply_control env (Some s) id perf pwr = (Some s', fx) ->
  let cfg := chosen_config (scheduled env s perf pwr) in
  ((0 <= cfg)%Z -> last_id s' = cfg)
  /\ ((cfg < 0)%Z -> last_id s' = last_id s /\ applied fx = None).
Proof.
  intros Hc Hcall cfg.
  destruct (call_shape env s id perf pwr Hc)
    as (y & rows & Heq & Hh & S1 & S2 & S3 & _).
  rewrite Hcall in Heq. injection Heq as -> ->.
  pose proof (chosen_config_ext y _ S1 S2 S3) as Hcfg. fold cfg in Hcfg.
  pose proof (dispatches_ext y s (chosen_config y) Hh) as Hd.
  destruct (finish_post env y) as (H1 & _ & _ & _ & _ & H6 & _).
  destruct (host_fields_inv _ _ Hh) as (Hl & _).
  cbn [applied]. rewrite H1, H6, Hd, Hcfg, Hl.
  destruct (dispatches s cfg) eqn:Hdis.
  - destruct (dispatches_true s _ Hdis) as [P1 _].
    split; [reflexivity | intros; exfalso; lia].
  - cbn [andb]. destruct (dispatches_false s _ Hdis) as [P | [P _]].
    + split; [intros; exfalso; lia | intros; split; reflexivity].
    + split; [intros; symmetry; exact P | intros; split; reflexivity].
Qed.

(** X6: setting [POET_DISABLE_APPLY] changes one call in two ways only: the
    callback is not invoked, and the first-apply flag keeps its value; what
    is planned, printed and stored is the same. *)
Theorem apply_disabled_skips_callback_only (env : environment)
    (s : poet_state) (id : Z) (perf pwr : real_t) :
  POET_DISABLE_CONTROL env = false ->
  let r := poet_apply_control env (Some s) id perf pwr in
  let r' := poet_apply_control (with_apply_disabled env) (Some s) id perf pwr in
  applied (snd r') = None
  /\ printed (snd r') = printed (snd r)
  /\ fst r' = option_map (set_is_first_apply (is_first_apply s)) (fst r).
Proof.
  intros Hc r r'. subst r r'.
  assert (Hgen : forall y rows,
             is_first_apply y = is_first_apply s ->
             applied {| applied := snd (finish (with_apply_disabled env) y);
                        printed := rows |} = None
             /\ rows = rows
             /\ Some (fst (finish (with_apply_disabled env) y))
                = option_map (set_is_first_apply (is_first_apply s))
                             (Some (fst (finish env y)))).
  { intros y rows Hy. destruct (finish_apply_disabled env y) as [F1 F2].
    cbn [applied option_map]. rewrite F1, F2, Hy. auto. }
  destruct (Z.eq_dec (current_action s) 0) as [Hb | Hb].
  - destruct (boundary_call env s id perf pwr Hc Hb) as (rows & -> & Hrows).
    destruct (boundary_call (with_apply_disabled env) s id perf pwr Hc Hb)
      as (rows' & -> & Hrows').
    rewrite (planned_reads_idle_switch (with_apply_disabled env) env s perf
               pwr eq_refl),
      (plan_period_reads_idle_switch (with_apply_disabled env) env s perf
         pwr eq_refl), <- Hrows in Hrows'.
    subst rows'. cbn [fst snd printed]. apply Hgen.
    destruct (fields_logger (calculate_cost_xup (planned env s perf pwr)) id
                perf pwr (snd (fst (plan_period env s perf pwr)))
                (snd (plan_period env s perf pwr))) as (L1 & _).
    rewrite <- Hrows in L1.
    destruct (fields_calculate_cost_xup (planned env s perf pwr)) as (C1 & _).
    pose proof (fields_planned env s perf pwr) as P1.
    rewrite C1, P1 in L1.
    destruct (host_fields_inv _ _ L1) as (_ & L2 & _). exact L2.
  - rewrite (inner_call env s id perf pwr Hc Hb),
      (inner_call (with_apply_disabled env) s id perf pwr Hc Hb).
    cbn [fst snd printed]. apply Hgen. reflexivity.
Qed.

(** X9: [poet_apply_control] never changes what the host configured: the
    log file, the depth of the log buffer, the period, the table and its
    size, the callback and its handle, and the ranges of both
    controllers. *)
Theorem configuration_is_constant (env : environment) (s : poet_state)
    (id : Z) (perf pwr : real_t) (s' : poet_state) :
  fst (poet_apply_control env (Some s) id perf pwr) = Some s' ->
  configuration s' = configuration s.
Proof.
  intros Hcall.
  destruct (apply_control_ranges env s id perf pwr s' Hcall)
    as (R1 & R2 & R3 & R4).
  unfold configuration. rewrite R1, R2, R3, R4.
  destruct (POET_DISABLE_CONTROL env) eqn:Hc.
  - unfold poet_apply_control in Hcall. rewrite Hc in Hcall.
    injection Hcall as <-. reflexivity.
  - destruct (call_shape env s id perf pwr Hc) as (y & rows & Heq & Hh & _).
    rewrite Heq in Hcall. injection Hcall as <-.
    destruct (finish_post env y) as (_ & _ & _ & _ & _ & _ & _ & _ & _ & _ & _
                                     & _ & _ & _ & F1 & F2 & F3 & F4 & F5 & F6
                                     & F7).
    destruct (host_fields_inv _ _ Hh)
      as (_ & _ & _ & _ & _ & E1 & E2 & E3 & E4 & E5 & E6 & E7).
    rewrite F1, F2, F3, F4, F5, F6, F7, E1, E2, E3, E4, E5, E6, E7.
    reflexivity.
Qed.

End CallTheorems.

Section Runs2.

Context {K : RealKernel} {PC : PoetConstants}.
Local Open Scope real_scope.

(** ** Sequences of calls *)

Lemma call_total (env : environment) (s : poet_state) (id : Z)
    (perf pwr : real_t) :
  exists s' fx, poet_apply_control env (Some s) id perf pwr = (Some s', fx).
Proof.
  destruct (POET_DISABLE_CONTROL env) eqn:Hc.
  - exists s, no_effects. unfold poet_apply_control. rewrite Hc. reflexivity.
  - destruct (call_shape env s id perf pwr Hc) as (y & rows & Heq & _).
    rewrite Heq. eexists. eexists. reflexivity.
Qed.

Lemma disabled_call (env : environment) (s : poet_state) (id : Z)
    (perf pwr : real_t) :
  POET_DISABLE_CONTROL env = true ->
  poet_apply_control env (Some s) id perf pwr = (Some s, no_effects).
Proof. intros Hc. unfold poet_apply_control. rewrite Hc. reflexivity. Qed.

Lemma run_cons (s : poet_state) (c : call) (rest : list call)
    (s' : poet_state) (fx : effects) :
  poet_apply_control (c_env c) (Some s) (c_id c) (c_perf c) (c_pwr c)
  = (Some s', fx) ->
  run (Some s) (c :: rest)
  = (fst (run (Some s') rest), fx :: snd (run (Some s') rest)).
Proof.
  intros H. cbn [run]. rewrite H.
  destruct (run (Some s') rest). reflexivity.
Qed.

(** What every call, enabled or not, does to the flag, the idle time and
    the counter. *)
Lemma call_effects (env : environment) (s : poet_state) (id : Z)
    (perf pwr : real_t) (s' : poet_state) (fx : effects) :
  poet_apply_control env (Some s) id perf pwr = (Some s', fx) ->
  (forall c, applied fx = Some c ->
     ac_is_first_apply c = is_first_apply s /\ is_first_apply s' = 0%Z
     /\ idle_ns s' = 0%Z)
  /\ (applied fx = None -> is_first_apply s' = is_first_apply s)
  /\ period s' = period s.
Proof.
  intros Hcall.
  destruct (POET_DISABLE_CONTROL env) eqn:Hc.
  - rewrite (disabled_call env s id perf pwr Hc) in Hcall.
    injection Hcall as <- <-. cbn [applied no_effects].
    split; [intros c Hx; discriminate | split; reflexivity].
  - destruct (call_shape env s id perf pwr Hc) as (y & rows & Heq & Hh & _).
    rewrite Hcall in Heq. injection Heq as -> ->.
    destruct (finish_post env y) as (_ & _ & _ & H4 & H5 & H6 & _ & _ & _ & _
                                     & _ & _ & _ & _ & _ & _ & H7 & _).
    destruct (host_fields_inv _ _ Hh) as (_ & Hf & _ & _ & _ & _ & _ & Hp & _).
    cbn [applied]. rewrite H4, H5, H6, H7, Hf, Hp.
    destruct (dispatches y (chosen_config y)); cbn [andb];
      [destruct (apply y && negb (POET_DISABLE_APPLY env)) |].
    + split; [| split; [intros Hx; discriminate | reflexivity]].
      intros c Hx. injection Hx as <-. cbn. repeat split.
    + split; [intros c Hx; discriminate | split; reflexivity].
    + split; [intros c Hx; discriminate | split; reflexivity].
Qed.

(** What a call inside a period does to the idle time. *)
Lemma inner_call_idle (env : environment) (s : poet_state) (id : Z)
    (perf pwr : real_t) (s' : poet_state) (fx : effects) :
  (current_action s <> 0%Z \/ POET_DISABLE_CONTROL env = true) ->
  poet_apply_control env (Some s) id perf pwr = (Some s', fx) ->
  (forall c, applied fx = Some c -> ac_idle_ns c = idle_ns s)
  /\ (idle_ns s' = 0%Z \/ idle_ns s' = idle_ns s).
Proof.
  intros Hb Hcall.
  destruct (POET_DISABLE_CONTROL env) eqn:Hc.
  - rewrite (disabled_call env s id perf pwr Hc) in Hcall.
    injection Hcall as <- <-. cbn [applied no_effects].
    split; [intros c Hx; discriminate | right; reflexivity].
  - destruct Hb as [Hb | Hb]; [| discriminate].
    rewrite (inner_call env s id perf pwr Hc Hb) in Hcall.
    injection Hcall as <- <-.
    destruct (finish_post env s) as (_ & _ & _ & H4 & _ & H6 & _).
    cbn [applied]. rewrite H4, H6.
    destruct (dispatches s (chosen_config s)); cbn [andb].
    + split; [| left; reflexivity].
      destruct (apply s && negb (POET_DISABLE_APPLY env));
        intros c Hx; [injection Hx as <-; reflexivity | discriminate].
    + split; [intros c Hx; discriminate | right; reflexivity].
Qed.

Lemma apply_calls_cons (fx : effects) (fxs : list effects) :
  apply_calls (fx :: fxs)
  = match applied fx with Some c => [c] | None => [] end ++ apply_calls fxs.
Proof. reflexivity. Qed.

(** Once the flag is down, no later call carries it. *)
Lemma first_calls_none (calls : list call) :
  forall s : poet_state,
    is_first_apply s = 0%Z ->
    first_calls (snd (run (Some s) calls)) = [].
Proof.
  induction calls as [|c calls IH]; intros s Hf; [reflexivity |].
  destruct (call_total (c_env c) s (c_id c) (c_perf c) (c_pwr c))
    as (s' & fx & Hcall).
  rewrite (run_cons s c calls s' fx Hcall). cbn [snd].
  destruct (call_effects _ _ _ _ _ _ _ Hcall) as (E1 & E2 & _).
  unfold first_calls. rewrite apply_calls_cons, filter_app.
  destruct (applied fx) as [a|] eqn:Ha.
  - destruct (E1 a eq_refl) as (A1 & A2 & _).
    cbn [filter]. rewrite A1, Hf. cbn.
    apply IH. exact A2.
  - cbn. apply IH. rewrite (E2 eq_refl). exact Hf.
Qed.

(** X7: along any run, at most one call of the apply callback carries the
    first-apply flag, and none does once the flag is down. *)
Theorem first_apply_flag_at_most_once (calls : list call) (s : poet_state) :
  (length (first_calls (snd (run (Some s) calls))) <= 1)%nat
  /\ (is_first_apply s = 0%Z -> first_calls (snd (run (Some s) calls)) = []).
Proof.
  split; [| apply first_calls_none].
  revert s. induction calls as [|c calls IH]; intros s; [cbn; lia |].
  destruct (call_total (c_env c) s (c_id c) (c_perf c) (c_pwr c))
    as (s' & fx & Hcall).
  rewrite (run_cons s c calls s' fx Hcall). cbn [snd].
  destruct (call_effects _ _ _ _ _ _ _ Hcall) as (E1 & _ & _).
  unfold first_calls. rewrite apply_calls_cons, filter_app, length_app.
  destruct (applied fx) as [a|] eqn:Ha.
  - destruct (E1 a eq_refl) as (_ & A2 & _).
    pose proof (first_calls_none calls s' A2) as Hn.
    unfold first_calls in Hn. rewrite Hn.
    cbn [filter]. destruct (negb (ac_is_first_apply a =? 0)%Z); cbn; lia.
  - cbn [filter length]. apply IH.
Qed.

(** X2: for a period that fits an [int] ([period <= INT_MAX]) and a
    counter in [0, period), over a run the action counter advances by the
    number of calls that are not cut short by [POET_DISABLE_CONTROL],
    modulo the period. *)
Theorem action_counter_over_run (calls : list call) :
  forall s : poet_state,
    (0 <= current_action s < period s)%Z ->
    (period s <= INT_MAX)%Z ->
    exists s',
      fst (run (Some s) calls) = Some s'
      /\ period s' = period s
      /\ current_action s'
         = ((current_action s + Z.of_nat (length (enabled_calls calls)))
            mod period s)%Z.
Proof.
  induction calls as [|c calls IH]; intros s Hr Hint.
  - exists s. cbn. rewrite Z.add_0_r, Z.mod_small by lia. auto.
  - destruct (call_total (c_env c) s (c_id c) (c_perf c) (c_pwr c))
      as (s' & fx & Hcall).
    rewrite (run_cons s c calls s' fx Hcall). cbn [fst].
    unfold enabled_calls. cbn [filter].
    destruct (POET_DISABLE_CONTROL (c_env c)) eqn:Hc; cbn [negb].
    + rewrite (disabled_call _ s _ _ _ Hc) in Hcall. injection Hcall as <- _.
      apply IH; assumption.
    + destruct (call_shape (c_env c) s (c_id c) (c_perf c) (c_pwr c) Hc)
        as (y & rows & Heq & Hh & _).
      rewrite Hcall in Heq. injection Heq as -> _.
      destruct (finish_post (c_env c) y)
        as (_ & H2 & _ & _ & _ & _ & _ & _ & _ & _ & _ & _ & _ & _ & _ & _
            & H3 & _).
      destruct (host_fields_inv _ _ Hh)
        as (_ & _ & Hca & _ & _ & _ & _ & Hp & _).
      rewrite Hca, Hp in H2. rewrite Hp in H3.
      destruct (IH (fst (finish (c_env c) y))) as (s'' & R1 & R2 & R3).
      { rewrite H2, H3. apply Z.mod_pos_bound. lia. }
      { rewrite H3. exact Hint. }
      exists s''. split; [exact R1 |]. rewrite R2, R3, H2, H3.
      split; [reflexivity |].
      cbn [length]. rewrite Nat2Z.inj_succ, Zplus_mod_idemp_l.
      f_equal. unfold enabled_calls. lia.
Qed.

End Runs2.

Section Periods.

Context {K : RealKernel} {PC : PoetConstants}.
Local Open Scope real_scope.

(** ** Idling *)

(** Inside a period, once the idle time is zero no call carries one. *)
Lemma idle_calls_none (calls : list call) :
  forall s : poet_state,
    idle_ns s = 0%Z ->
    (0 < current_action s)%Z ->
    (current_action s + Z.of_nat (length calls) <= period s)%Z ->
    idle_calls (snd (run (Some s) calls)) = [].
Proof.
  induction calls as [|c calls IH]; intros s Hi Hca Hlen; [reflexivity |].
  destruct (call_total (c_env c) s (c_id c) (c_perf c) (c_pwr c))
    as (s' & fx & Hcall).
  rewrite (run_cons s c calls s' fx Hcall). cbn [snd].
  assert (Hne : current_action s <> 0%Z) by lia.
  destruct (inner_call_idle _ _ _ _ _ _ _ (or_introl Hne) Hcall) as (I1 & I2).
  assert (Hi' : idle_ns s' = 0%Z) by (destruct I2; congruence).
  unfold idle_calls. rewrite apply_calls_cons, filter_app.
  assert (Hhead : filter (fun c0 => negb (ac_idle_ns c0 =? 0)%Z)
                         match applied fx with Some c0 => [c0] | None => [] end
                  = []).
  { destruct (applied fx) as [a|]; [| reflexivity].
    cbn [filter]. rewrite (I1 a eq_refl), Hi. reflexivity. }
  rewrite Hhead. cbn [app]. cbn [length] in Hlen.
  destruct calls as [|c' calls']; [reflexivity |].
  destruct (POET_DISABLE_CONTROL (c_env c)) eqn:Hc.
  - rewrite (disabled_call _ s _ _ _ Hc) in Hcall. injection Hcall as <- _.
    apply IH; [exact Hi | exact Hca | lia].
  - destruct (call_shape (c_env c) s (c_id c) (c_perf c) (c_pwr c) Hc)
      as (y & rows & Heq & Hh & _).
    rewrite Hcall in Heq. injection Heq as Hs' _.
    destruct (finish_post (c_env c) y)
      as (_ & H2 & _ & _ & _ & _ & _ & _ & _ & _ & _ & _ & _ & _ & _ & _
          & H3 & _).
    destruct (host_fields_inv _ _ Hh)
      as (_ & _ & Hcy & _ & _ & _ & _ & Hp & _).
    rewrite <- Hs', Hcy, Hp in H2. rewrite <- Hs', Hp in H3.
    cbn [length] in Hlen.
    rewrite Z.mod_small in H2 by lia.
    apply IH; [exact Hi' | rewrite H2; lia | rewrite H2, H3].
    cbn [length]. lia.
Qed.

Lemma idle_calls_inner (calls : list call) :
  forall s : poet_state,
    (0 < current_action s)%Z ->
    (current_action s + Z.of_nat (length calls) <= period s)%Z ->
    (length (idle_calls (snd (run (Some s) calls))) <= 1)%nat.
Proof.
  induction calls as [|c calls IH]; intros s Hca Hlen; [cbn; lia |].
  destruct (call_total (c_env c) s (c_id c) (c_perf c) (c_pwr c))
    as (s' & fx & Hcall).
  rewrite (run_cons s c calls s' fx Hcall). cbn [snd].
  destruct (call_effects _ _ _ _ _ _ _ Hcall) as (E1 & _ & _).
  unfold idle_calls. rewrite apply_calls_cons, filter_app, length_app.
  cbn [length] in Hlen.
  assert (Hnext : calls = [] \/
                  ((0 < current_action s')%Z
                   /\ (current_action s' + Z.of_nat (length calls)
                       <= period s')%Z)).
  { destruct calls as [|c' calls']; [left; reflexivity | right].
    destruct (POET_DISABLE_CONTROL (c_env c)) eqn:Hc.
    - rewrite (disabled_call _ s _ _ _ Hc) in Hcall. injection Hcall as <- _.
      split; [exact Hca | lia].
    - destruct (call_shape (c_env c) s (c_id c) (c_perf c) (c_pwr c) Hc)
        as (y & rows & Heq & Hh & _).
      rewrite Hcall in Heq. injection Heq as Hs' _.
      destruct (finish_post (c_env c) y)
        as (_ & H2 & _ & _ & _ & _ & _ & _ & _ & _ & _ & _ & _ & _ & _ & _
            & H3 & _).
      destruct (host_fields_inv _ _ Hh)
        as (_ & _ & Hcy & _ & _ & _ & _ & Hp & _).
      rewrite <- Hs', Hcy, Hp in H2. rewrite <- Hs', Hp in H3.
      cbn [length] in Hlen. rewrite Z.mod_small in H2 by lia.
      rewrite H2, H3. cbn [length]. split; lia. }
  destruct (applied fx) as [a|] eqn:Ha.
  - destruct (E1 a eq_refl) as (_ & _ & A3).
    destruct Hnext as [-> | [N1 N2]].
    + cbn. destruct (negb (ac_idle_ns a =? 0)%Z); cbn; lia.
    + pose proof (idle_calls_none calls s' A3 N1 N2) as Hn.
      unfold idle_calls in Hn. rewrite Hn.
      cbn [filter]. destruct (negb (ac_idle_ns a =? 0)%Z); cbn; lia.
  - cbn [filter length]. destruct Hnext as [-> | [N1 N2]]; [cbn; lia |].
    apply IH; assumption.
Qed.

(** X8: during one period (the call at the boundary, with control
    enabled, and the calls that follow it before the next boundary), the
    apply callback is handed a non-zero idle time at most once. *)
Theorem idle_at_most_once_per_period (s : poet_state) (c : call)
    (rest : list call) :
  current_action s = 0%Z ->
  POET_DISABLE_CONTROL (c_env c) = false ->
  (Z.of_nat (length rest) < period s)%Z ->
  (length (idle_calls (snd (run (Some s) (c :: rest)))) <= 1)%nat.
Proof.
  intros Hb Hc Hlen.
  destruct (call_total (c_env c) s (c_id c) (c_perf c) (c_pwr c))
    as (s' & fx & Hcall).
  rewrite (run_cons s c rest s' fx Hcall). cbn [snd].
  destruct (call_effects _ _ _ _ _ _ _ Hcall) as (E1 & _ & _).
  unfold idle_calls. rewrite apply_calls_cons, filter_app, length_app.
  destruct (call_shape (c_env c) s (c_id c) (c_perf c) (c_pwr c) Hc)
    as (y & rows & Heq & Hh & _).
  rewrite Hcall in Heq. injection Heq as Hs1 _.
  destruct (finish_post (c_env c) y)
    as (_ & H2 & _ & _ & _ & _ & _ & _ & _ & _ & _ & _ & _ & _ & _ & _
        & H3 & _).
  destruct (host_fields_inv _ _ Hh)
    as (_ & _ & Hcy & _ & _ & _ & _ & Hp & _).
  rewrite <- Hs1, Hcy, Hp in H2. rewrite <- Hs1, Hp in H3.
  assert (Hnext : rest = [] \/
                  ((0 < current_action s')%Z
                   /\ (current_action s' + Z.of_nat (length rest)
                       <= period s')%Z)).
  { destruct rest as [|c'' rest'']; [left; reflexivity | right].
    cbn [length] in Hlen. rewrite Hb, Z.mod_small in H2 by lia.
    rewrite H2, H3. cbn [length]. split; lia. }
  destruct (applied fx) as [a|] eqn:Ha.
  - destruct (E1 a eq_refl) as (_ & _ & A3).
    destruct Hnext as [-> | [N1 N2]].
    + cbn. destruct (negb (ac_idle_ns a =? 0)%Z); cbn; lia.
    + pose proof (idle_calls_none rest s' A3 N1 N2) as Hn.
      unfold idle_calls in Hn. rewrite Hn.
      cbn [filter]. destruct (negb (ac_idle_ns a =? 0)%Z); cbn; lia.
  - cbn [filter length]. destruct Hnext as [-> | [N1 N2]]; [cbn; lia |].
    apply (idle_calls_inner rest s' N1 N2).
Qed.

End Periods.

Section Construction.

Context {K : RealKernel} {PC : PoetConstants}.
Local Open Scope real_scope.

(** ** A fresh engine *)

Lemma min_max_body_keeps (j : Z) (s : poet_state) :
  fresh_fields (min_max_body j s) = fresh_fields s.
Proof.
  unfold min_max_body. cbv zeta.
  destruct (speedup (state_at (control_states s) j) <? umin (scs s));
    cbn [scs pcs control_states set_scs set_pcs umin umax set_umin set_umax];
    destruct (speedup (state_at (control_states s) j) >=? umax (scs s));
    cbn [scs pcs control_states set_scs set_pcs umin umax set_umin set_umax];
    destruct (cost (state_at (control_states s) j) <=? umin (pcs s));
    cbn [scs pcs control_states set_scs set_pcs umin umax set_umin set_umax];
    destruct (cost (state_at (control_states s) j) >=? umax (pcs s));
    reflexivity.
Qed.

Lemma min_max_loop_keeps (js : list Z) :
  forall s : poet_state,
    fresh_fields (fold_left (fun acc i => min_max_body i acc) js s)
    = fresh_fields s.
Proof.
  induction js as [|j js IH]; intros s; cbn [fold_left]; [reflexivity |].
  rewrite IH. apply min_max_body_keeps.
Qed.

Lemma init_fresh (res : resources) (goal : real_t) (c : poet_tradeoff_type_t)
    (n : Z) (cs : option (list poet_control_state_t)) (ast : Z) (ap : bool)
    (cur : option (Z * Z)) (per bd : Z) (lf : option string)
    (s : poet_state) :
  poet_init res goal c n cs ast ap cur per bd lf = Engine s ->
  exists table,
    cs = Some table
    /\ per <> 0%Z /\ n <> 0%Z /\ (lf <> None -> bd <> 0%Z)
    /\ fresh_fields s
       = (initial_id cur n, 1%Z, CURRENT_ACTION_START, c, goal,
          (negb (is_null lf), bd, per, n, ap, table, ast),
          ((-1)%Z, (-1)%Z, 0%Z, 0%Z, R_ZERO, R_ZERO),
          {| x_hat_minus := X_HAT_MINUS_START; x_hat := X_HAT_START;
             p_minus := P_MINUS_START; h := H_START; k := K_START;
             p := P_START |},
          {| x_hat_minus := X_HAT_MINUS_START; x_hat := X_HAT_START;
             p_minus := P_MINUS_START; h := H_START; k := K_START;
             p := P_START |},
          repeat None (Z.to_nat bd),
          (speedup (state_at table (initial_id cur n)),
           speedup (state_at table (initial_id cur n)),
           speedup (state_at table (initial_id cur n)), E_START, EO_START),
          (cost (state_at table (initial_id cur n)),
           cost (state_at table (initial_id cur n)),
           cost (state_at table (initial_id cur n)), E_START, EO_START)).
Proof.
  unfold poet_init.
  destruct ((goal <=? R_ZERO) || (n =? 0)%Z || is_null cs || (per =? 0)%Z
            || ((bd =? 0)%Z && negb (is_null lf))) eqn:Htest;
    [discriminate |].
  destruct (negb (malloc_state_ok res)); [discriminate |].
  destruct ((0 <? bd)%Z && negb (malloc_lb_ok res)); [discriminate |].
  destruct (negb (is_null lf) && negb (fopen_ok res)); [discriminate |].
  rewrite !orb_false_iff in Htest.
  destruct Htest as [[[[_ Hn] Hcs] Hper] Hbd].
  destruct cs as [table|]; [| discriminate].
  intros Heq. injection Heq as <-.
  exists table. split; [reflexivity |].
  split; [apply Z.eqb_neq; exact Hper |].
  split; [apply Z.eqb_neq; exact Hn |].
  split.
  - intros Hlf. apply andb_false_iff in Hbd. destruct Hbd as [Hbd | Hbd].
    + apply Z.eqb_neq. exact Hbd.
    + destruct lf; [discriminate | congruence].
  - rewrite for_loop_ids, min_max_loop_keeps. reflexivity.
Qed.

(** X10: a fresh engine records its arguments; it starts from the state
    the [current] callback reports, or from the highest state id when the
    callback is null or fails; both controllers start from the speedup and
    the cost of that state; no pair is scheduled, the first apply is
    pending, and the log buffer has [buffer_depth] empty slots. *)
Theorem fresh_engine (res : resources) (goal : real_t)
    (c : poet_tradeoff_type_t) (n : Z)
    (cs : option (list poet_control_state_t)) (ast : Z) (ap : bool)
    (cur : option (Z * Z)) (per bd : Z) (lf : option string)
    (s : poet_state) :
  poet_init res goal c n cs ast ap cur per bd lf = Engine s ->
  exists table,
    cs = Some table
    /\ constraint s = c /\ constraint_goal s = goal /\ period s = per
    /\ num_system_states s = n /\ control_states s = table
    /\ apply_states s = ast /\ apply s = ap
    /\ last_id s = initial_id cur n /\ is_first_apply s = 1%Z
    /\ current_action s = CURRENT_ACTION_START
    /\ lower_id s = (-1)%Z /\ upper_id s = (-1)%Z
    /\ low_state_iters s = 0%Z /\ idle_ns s = 0%Z
    /\ u (scs s) = speedup (state_at table (last_id s))
    /\ uo (scs s) = u (scs s) /\ uoo (scs s) = u (scs s)
    /\ u (pcs s) = cost (state_at table (last_id s))
    /\ uo (pcs s) = u (pcs s) /\ uoo (pcs s) = u (pcs s)
    /\ pfs s = cfs s
    /\ log_file s = negb (is_null lf) /\ buffer_depth s = bd
    /\ lb s = repeat None (Z.to_nat bd).
Proof.
  intros Hinit.
  destruct (init_fresh _ _ _ _ _ _ _ _ _ _ _ _ Hinit)
    as (table & Hcs & _ & _ & _ & Hf).
  exists table. split; [exact Hcs |].
  unfold fresh_fields, host_fields, schedule_fields in Hf.
  injection Hf as H1 H2 H3 H4 H5 H6 H7 H8 H9 H10 H11 H12 H13 H14 H15 H16 H17
                 H18 H19 H20 H21 H22 H23 H24 H25 H26 H27 H28 H29 H30 H31.
  rewrite H22, H23, H24, H27, H28, H29, H1.
  repeat split; try assumption. congruence.
Qed.

(** X11: [poet_init] fails for lack of resources exactly when its
    arguments are accepted and the engine cannot be allocated, or a log
    buffer is asked for and cannot be allocated, or a log file is asked for
    and cannot be opened. *)
Theorem poet_init_resource_failure (res : resources) (goal : real_t)
    (c : poet_tradeoff_type_t) (n : Z)
    (cs : option (list poet_control_state_t)) (ast : Z) (ap : bool)
    (cur : option (Z * Z)) (per bd : Z) (lf : option string) :
  poet_init res goal c n cs ast ap cur per bd lf = Null_resource
  <-> ~ rejected goal n cs per bd lf
      /\ (malloc_state_ok res = false
          \/ ((0 < bd)%Z /\ malloc_lb_ok res = false)
          \/ (lf <> None /\ fopen_ok res = false)).
Proof.
  pose proof (rejected_test goal n cs per bd lf) as Ht.
  unfold poet_init.
  destruct ((goal <=? R_ZERO) || (n =? 0)%Z || is_null cs || (per =? 0)%Z
            || ((bd =? 0)%Z && negb (is_null lf))) eqn:Htest.
  - split; [discriminate |]. intros [Hn _]. exfalso. apply Hn, Ht. reflexivity.
  - assert (Hnot : ~ rejected goal n cs per bd lf).
    { intros Hr. apply Ht in Hr. discriminate. }
    destruct (malloc_state_ok res); cbn [negb];
      [| split; [intros _; split; [exact Hnot | left; reflexivity]
                | reflexivity]].
    destruct (0 <? bd)%Z eqn:Hbd; cbn [andb].
    + destruct (malloc_lb_ok res); cbn [negb].
      * destruct lf as [f|]; cbn [is_null negb andb].
        -- destruct (fopen_ok res); cbn [negb].
           ++ split; [discriminate |].
              intros [_ [H | [[_ H] | [_ H]]]]; discriminate.
           ++ split; [| reflexivity]. intros _. split; [exact Hnot |].
              right. right. split; [discriminate | reflexivity].
        -- split; [discriminate |].
           intros [_ [H | [[_ H] | [H _]]]]; try discriminate.
           exfalso. apply H. reflexivity.
      * split; [| reflexivity]. intros _. split; [exact Hnot |].
        right. left. split; [lia | reflexivity].
    + destruct lf as [f|]; cbn [is_null negb andb].
      * destruct (fopen_ok res); cbn [negb].
        -- split; [discriminate |].
           intros [_ [H | [[H _] | [_ H]]]]; try discriminate. lia.
        -- split; [| reflexivity]. intros _. split; [exact Hnot |].
           right. right. split; [discriminate | reflexivity].
      * split; [discriminate |].
        intros [_ [H | [[H _] | [H _]]]]; try discriminate; [lia |].
        exfalso. apply H. reflexivity.
Qed.

(** X12: [poet_init] leaks nothing: when it returns null, every resource
    it acquired has been released; when it returns an engine,
    [poet_destroy] releases exactly what [poet_init] acquired, and no
    resource is released twice. *)
Theorem init_and_destroy_balance (res : resources) (goal : real_t)
    (c : poet_tradeoff_type_t) (n : Z)
    (cs : option (list poet_control_state_t)) (ast : Z) (ap : bool)
    (cur : option (Z * Z)) (per bd : Z) (lf : option string) :
  match poet_init res goal c n cs ast ap cur per bd lf with
  | Engine s =>
      replay (poet_init_events res goal n cs per bd lf
              ++ poet_destroy (Some s)) [] = Some []
  | _ => replay (poet_init_events res goal n cs per bd lf) [] = Some []
  end.
Proof.
  destruct (poet_init res goal c n cs ast ap cur per bd lf) as [| | s] eqn:Hi.
  - unfold poet_init in Hi. unfold poet_init_events.
    destruct ((goal <=? R_ZERO) || (n =? 0)%Z || is_null cs || (per =? 0)%Z
              || ((bd =? 0)%Z && negb (is_null lf))); [reflexivity |].
    destruct (negb (malloc_state_ok res)); [reflexivity |].
    destruct ((0 <? bd)%Z); destruct (negb (malloc_lb_ok res));
      destruct lf; destruct (negb (fopen_ok res)); cbn in Hi |- *;
      reflexivity || discriminate.
  - unfold poet_init in Hi. unfold poet_init_events.
    destruct ((goal <=? R_ZERO) || (n =? 0)%Z || is_null cs || (per =? 0)%Z
              || ((bd =? 0)%Z && negb (is_null lf))); [reflexivity |].
    destruct (negb (malloc_state_ok res)); [reflexivity |].
    destruct ((0 <? bd)%Z); destruct (negb (malloc_lb_ok res));
      destruct lf; destruct (negb (fopen_ok res)); cbn in Hi |- *;
      reflexivity || discriminate.
  - destruct (init_fresh _ _ _ _ _ _ _ _ _ _ _ _ Hi)
      as (table & Hcs & _ & _ & _ & Hf).
    assert (Hlog : log_file s = negb (is_null lf) /\ buffer_depth s = bd).
    { unfold fresh_fields, host_fields in Hf.
      injection Hf as _ _ _ _ _ H6 H7 _. split; assumption. }
    destruct Hlog as [Hl Hb].
    unfold poet_init in Hi. unfold poet_init_events, poet_destroy.
    rewrite Hl, Hb.
    destruct ((goal <=? R_ZERO) || (n =? 0)%Z || is_null cs || (per =? 0)%Z
              || ((bd =? 0)%Z && negb (is_null lf))); [discriminate |].
    destruct (negb (malloc_state_ok res)); [discriminate |].
    destruct ((0 <? bd)%Z); destruct (negb (malloc_lb_ok res));
      destruct lf; destruct (negb (fopen_ok res));
      cbn [andb is_null negb] in Hi |- *; try discriminate; reflexivity.
Qed.

End Construction.

Section Invariants.

Context {K : RealKernel} {PC : PoetConstants}.
Local Open Scope real_scope.

(** ** Invariants of reachable engines *)

Lemma planned_schedule_in_table (env : environment) (s : poet_state)
    (perf pwr : real_t) :
  let sp := planned env s perf pwr in
  (upper_id sp = (-1)%Z /\ (low_state_iters sp <= 0)%Z)
  \/ ((0 <= lower_id sp < num_system_states s)%Z
      /\ (0 <= upper_id sp < num_system_states s)%Z).
Proof.
  cbv zeta. rewrite planned_eq.
  destruct (host_fields_before_search s perf pwr) as [Hb _].
  apply host_fields_inv in Hb.
  destruct Hb as (_ & _ & _ & _ & _ & _ & _ & _ & Hnb & _).
  revert Hnb.
  generalize (before_search s perf pwr) (search_workload s perf pwr).
  intros x w Hnb.
  pose proof (store_best_fields (search env x w) x) as P. cbv zeta in P.
  destruct P as (_ & _ & _ & _ & _ & Hl & Hu & Hi & _).
  rewrite Hl, Hu, Hi. unfold search.
  destruct (fold_consider_cases x w (candidates env x) (search_seed x))
    as [-> | (ij & Hin & ->)].
  - left. cbn [search_seed best_upper_id best_low_state_iters].
    split; [reflexivity | lia].
  - destruct ij as [i j]. apply in_candidates in Hin.
    destruct (best_ids_retained x w (i, j)) as [-> ->]. cbn [fst snd].
    right. rewrite <- Hnb. tauto.
Qed.

Lemma call_schedule_in_table (env : environment) (s : poet_state) (id : Z)
    (perf pwr : real_t) (s' : poet_state) (fx : effects) :
  schedule_in_table s ->
  poet_apply_control env (Some s) id perf pwr = (Some s', fx) ->
  schedule_in_table s'
  /\ (forall c, applied fx = Some c ->
        (0 <= ac_id c < num_system_states s)%Z).
Proof.
  intros Hs Hcall.
  destruct (POET_DISABLE_CONTROL env) eqn:Hc.
  - rewrite (disabled_call env s id perf pwr Hc) in Hcall.
    injection Hcall as <- <-. split; [exact Hs |].
    intros c Hx. discriminate.
  - destruct (call_shape env s id perf pwr Hc)
      as (y & rows & Heq & Hh & Hl & Hu & Hi & _).
    rewrite Heq in Hcall. injection Hcall as <- <-.
    apply host_fields_inv in Hh.
    destruct Hh as (_ & _ & _ & _ & _ & _ & _ & _ & Hn & _).
    assert (Hy : (upper_id y = (-1)%Z /\ (low_state_iters y <= 0)%Z)
                 \/ ((0 <= lower_id y < num_system_states s)%Z
                     /\ (0 <= upper_id y < num_system_states s)%Z)).
    { rewrite Hl, Hu, Hi. unfold scheduled.
      destruct (current_action s =? 0)%Z.
      - apply planned_schedule_in_table.
      - exact Hs. }
    pose proof (finish_post env y) as P. cbv zeta in P.
    destruct P as (_ & _ & P3 & _ & _ & P6 & P7 & P8 & _ & _ & _ & _ & _ & _
                   & _ & _ & _ & P18 & _).
    split.
    + unfold schedule_in_table. rewrite P3, P7, P8, P18, Hn.
      destruct Hy as [[Hu0 Hi0] | Hy]; [left | right; exact Hy].
      split; [exact Hu0 |].
      destruct (0 <? low_state_iters y)%Z; lia.
    + intros c Hx. cbn [applied] in Hx. rewrite P6 in Hx.
      destruct (dispatches y (chosen_config y)) eqn:Hd;
        cbn [andb] in Hx; [| discriminate].
      destruct (apply y && negb (POET_DISABLE_APPLY env)); [| discriminate].
      injection Hx as <-. cbn [ac_id].
      apply dispatches_true in Hd. destruct Hd as [Hd _].
      rewrite chosen_config_eq in Hd |- *.
      destruct (0 <? low_state_iters y)%Z eqn:E1;
        destruct (0 <=? upper_id y)%Z eqn:E2;
        destruct Hy as [[? ?] | [? ?]]; lia.
Qed.

Lemma reachable_schedule_in_table (s : poet_state) :
  reachable s -> schedule_in_table s.
Proof.
  induction 1 as [res goal c n cs ast ap cur per bd lf s Hinit
                 | env s id perf pwr s' Hr IH Hstep
                 | s c goal s' Hr IH Hset].
  - destruct (init_fresh _ _ _ _ _ _ _ _ _ _ _ _ Hinit)
      as (table & _ & _ & _ & _ & Hf).
    assert (Hs : schedule_fields s
                 = ((-1)%Z, (-1)%Z, 0%Z, 0%Z, R_ZERO, R_ZERO))
      by (unfold fresh_fields in Hf; congruence).
    unfold schedule_fields in Hs. injection Hs as ? ? ? ? ? ?.
    left. split; [assumption | lia].
  - destruct (call_total env s id perf pwr) as (s2 & fx & Heq).
    rewrite Heq in Hstep. cbn [fst] in Hstep. injection Hstep as ->.
    exact (proj1 (call_schedule_in_table env s id perf pwr s' fx IH Heq)).
  - unfold poet_set_constraint_type in Hset.
    destruct (goal >? R_ZERO); injection Hset as <-; exact IH.
Qed.

(** X13: whatever the host did before, the apply callback is only ever
    handed the id of a state of the table: for an engine obtained from
    [poet_init] by calls of [poet_apply_control] and
    [poet_set_constraint_type], every call of the callback has
    [0 <= id < num_states]. *)
Theorem applied_id_is_in_table (env : environment) (s : poet_state) (id : Z)
    (perf pwr : real_t) (s' : poet_state) (fx : effects) (c : apply_call) :
  reachable s ->
  poet_apply_control env (Some s) id perf pwr = (Some s', fx) ->
  applied fx = Some c ->
  (0 <= ac_id c < ac_num_states c)%Z
  /\ ac_num_states c = num_system_states s
  /\ (0 <= last_id s' < num_system_states s')%Z.
Proof.
  intros Hr Hcall Hx.
  pose proof (reachable_schedule_in_table s Hr) as Hs.
  destruct (call_schedule_in_table env s id perf pwr s' fx Hs Hcall)
    as [_ Hid].
  specialize (Hid c Hx).
  destruct (POET_DISABLE_CONTROL env) eqn:Hc.
  - rewrite (disabled_call env s id perf pwr Hc) in Hcall.
    injection Hcall as <- <-. discriminate.
  - destruct (call_shape env s id perf pwr Hc)
      as (y & rows & Heq & Hh & _).
    rewrite Heq in Hcall. injection Hcall as <- <-.
    apply host_fields_inv in Hh.
    destruct Hh as (_ & _ & _ & _ & _ & _ & _ & _ & Hn & _).
    pose proof (finish_post env y) as P. cbv zeta in P.
    destruct P as (P1 & _ & _ & _ & _ & P6 & _ & _ & _ & _ & _ & _ & _ & _
                   & _ & _ & _ & P18 & _).
    cbn [applied] in Hx. rewrite P6 in Hx. rewrite P1, P18, Hn.
    destruct (dispatches y (chosen_config y)); cbn [andb] in Hx;
      [| discriminate].
    destruct (apply y && negb (POET_DISABLE_APPLY env)); [| discriminate].
    injection Hx as <-. cbn [ac_id ac_num_states] in Hid |- *.
    rewrite Hn. repeat split; lia.
Qed.

End Invariants.

Section Logging.

Context {K : RealKernel} {PC : PoetConstants}.
Local Open Scope real_scope.

(** ** The log buffer *)

Lemma list_set_length {A : Type} (l : list A) (n : nat) (v : A) :
  length (list_set l n v) = length l.
Proof.
  revert n. induction l as [|a l IH]; intros [|n]; cbn [list_set length];
    try reflexivity. rewrite IH. reflexivity.
Qed.

Lemma nth_list_set_eq {A : Type} (l : list A) (n : nat) (v d : A) :
  (n < length l)%nat -> nth n (list_set l n v) d = v.
Proof.
  revert n. induction l as [|a l IH]; intros [|n] H; cbn [length] in H;
    cbn [list_set nth]; try lia; [reflexivity |].
  apply IH. lia.
Qed.

Lemma nth_list_set_neq {A : Type} (l : list A) (n m : nat) (v d : A) :
  m <> n -> nth m (list_set l n v) d = nth m l d.
Proof.
  revert n m. induction l as [|a l IH]; intros [|n] [|m] H;
    cbn [list_set nth]; try reflexivity; try congruence.
  apply IH. congruence.
Qed.

Lemma fold_snoc {A B : Type} (g : A -> B) (xs : list A) :
  forall acc : list B,
    fold_left (fun acc i => acc ++ [g i]) xs acc = acc ++ map g xs.
Proof.
  induction xs as [|x xs IH]; intros acc; cbn [fold_left map].
  - rewrite app_nil_r. reflexivity.
  - rewrite IH, <- app_assoc. reflexivity.
Qed.

Lemma map_nth_all {A : Type} (l : list A) (d : A) :
  map (fun i => nth i l d) (seq 0 (length l)) = l.
Proof.
  induction l as [|a l IH]; [reflexivity |].
  cbn [length seq map nth]. f_equal.
  rewrite <- seq_shift, map_map. exact IH.
Qed.

(** Printing the buffer prints its slots in order. *)
Lemma print_rows (c : poet_tradeoff_type_t) (l : list (option poet_record))
    (n : Z) :
  length l = Z.to_nat n ->
  for_loop n (fun i (rows : list log_row) =>
                rows ++ [(c, nth (Z.to_nat i) l None)]) []
  = map (pair c) l.
Proof.
  intros Hn. unfold for_loop.
  rewrite (fold_snoc (fun i => (c, nth (Z.to_nat (Z.of_nat i)) l None))).
  cbn [app]. rewrite <- Hn.
  rewrite <- (map_nth_all l None) at 2. rewrite map_map.
  apply map_ext. intros i. rewrite Nat2Z.id. reflexivity.
Qed.

Lemma lb_planned (env : environment) (s : poet_state) (perf pwr : real_t) :
  lb (calculate_cost_xup (planned env s perf pwr)) = lb s.
Proof.
  transitivity (lb (planned env s perf pwr)).
  - generalize (planned env s perf pwr). intros y.
    unfold calculate_cost_xup. destruct (constraint y); reflexivity.
  - rewrite planned_eq.
    generalize (search env (before_search s perf pwr)
                       (search_workload s perf pwr)).
    intros b.
    transitivity (lb (before_search s perf pwr)); [reflexivity |].
    unfold before_search. destruct (constraint s); reflexivity.
Qed.

(** What a boundary call leaves in the buffer and prints. *)
Lemma boundary_log (env : environment) (s : poet_state) (id : Z)
    (perf pwr : real_t) (s' : poet_state) (fx : effects) :
  POET_DISABLE_CONTROL env = false ->
  current_action s = 0%Z ->
  poet_apply_control env (Some s) id perf pwr = (Some s', fx) ->
  exists x : poet_state,
    let r := log_record x id perf pwr
               (fst (estimate_base_workload perf (u (scs s)) (pfs s)))
               (fst (estimate_base_workload pwr (u (pcs s)) (cfs s))) in
    schedule_fields x = schedule_fields (planned env s perf pwr)
    /\ constraint x = constraint s
    /\ control_fields x = control_fields s'
    /\ lb s'
       = (if log_file s
          then list_set (lb s) (Z.to_nat (log_index s id)) (Some r)
          else lb s)
    /\ printed fx
       = (if log_file s && (log_index s id =? buffer_depth s - 1)%Z
          then for_loop (buffer_depth s)
                 (fun i (rows : list log_row) =>
                    rows ++ [(constraint s, nth (Z.to_nat i) (lb s') None)])
                 []
          else []).
Proof.
  intros Hc Hb Hcall.
  destruct (boundary_call env s id perf pwr Hc Hb) as (rows & Heq & Hrows).
  rewrite Heq in Hcall. injection Hcall as <- <-.
  exists (calculate_cost_xup (planned env s perf pwr)).
  pose proof (lb_planned env s perf pwr) as Hlb.
  destruct (fields_calculate_cost_xup (planned env s perf pwr)) as [Hh Hs].
  rewrite (fields_planned env s perf pwr) in Hh.
  rewrite plan_period_eq in Hrows. cbn [fst snd] in Hrows.
  revert Hlb Hh Hs Hrows.
  generalize (calculate_cost_xup (planned env s perf pwr)).
  generalize (fst (estimate_base_workload perf (u (scs s)) (pfs s))).
  generalize (fst (estimate_base_workload pwr (u (pcs s)) (cfs s))).
  intros ew tw x Hlb Hh Hs Hrows. cbv zeta.
  apply host_fields_inv in Hh.
  destruct Hh as (_ & _ & _ & Hcon & _ & Hlf & Hbd & Hper & _).
  assert (Hidx : log_index x id = log_index s id)
    by (unfold log_index; rewrite Hper, Hbd; reflexivity).
  rewrite logger_eq, Hlf, Hbd, Hidx, Hlb, Hcon in Hrows. cbv zeta in Hrows.
  pose proof (finish_post env (fst rows)) as P. cbv zeta in P.
  destruct P as (_ & _ & _ & _ & _ & _ & _ & _ & _ & _ & P11 & P12 & _).
  rewrite P12, P11. cbn [printed].
  split; [exact Hs |]. split; [exact Hcon |].
  destruct (log_file s); subst rows; cbn [fst snd andb];
    repeat split; exact Hlb.
Qed.

Lemma call_keeps_buffer_size (env : environment) (s : poet_state) (id : Z)
    (perf pwr : real_t) (s' : poet_state) (fx : effects) :
  poet_apply_control env (Some s) id perf pwr = (Some s', fx) ->
  length (lb s') = length (lb s) /\ buffer_depth s' = buffer_depth s.
Proof.
  intros Hcall.
  destruct (POET_DISABLE_CONTROL env) eqn:Hc.
  - rewrite (disabled_call env s id perf pwr Hc) in Hcall.
    injection Hcall as <- <-. split; reflexivity.
  - destruct (Z.eq_dec (current_action s) 0) as [Hb | Hb].
    + destruct (boundary_log env s id perf pwr s' fx Hc Hb Hcall)
        as (x & _ & _ & _ & Hl & _).
      split.
      * rewrite Hl. destruct (log_file s); [apply list_set_length |].
        reflexivity.
      * destruct (call_shape env s id perf pwr Hc)
          as (y & rows & Heq & Hh & _).
        rewrite Heq in Hcall. injection Hcall as <- <-.
        apply host_fields_inv in Hh.
        destruct Hh as (_ & _ & _ & _ & _ & _ & Hbd & _).
        pose proof (finish_post env y) as P. cbv zeta in P.
        destruct P as (_ & _ & _ & _ & _ & _ & _ & _ & _ & _ & _ & _ & _ & _
                       & _ & P16 & _).
        rewrite P16. exact Hbd.
    + rewrite (inner_call env s id perf pwr Hc Hb) in Hcall.
      injection Hcall as <- <-.
      pose proof (finish_post env s) as P. cbv zeta in P.
      destruct P as (_ & _ & _ & _ & _ & _ & _ & _ & _ & _ & _ & P12 & _ & _
                     & _ & P16 & _).
      rewrite P12, P16. split; reflexivity.
Qed.

Lemma reachable_buffer_size (s : poet_state) :
  reachable s -> length (lb s) = Z.to_nat (buffer_depth s).
Proof.
  induction 1 as [res goal c n cs ast ap cur per bd lf s Hinit
                 | env s id perf pwr s' Hr IH Hstep
                 | s c goal s' Hr IH Hset].
  - destruct (init_fresh _ _ _ _ _ _ _ _ _ _ _ _ Hinit)
      as (table & _ & _ & _ & _ & Hf).
    assert (Hl : lb s = repeat None (Z.to_nat bd))
      by (unfold fresh_fields in Hf; congruence).
    assert (Hb : buffer_depth s = bd)
      by (unfold fresh_fields, host_fields in Hf; congruence).
    rewrite Hl, Hb. apply repeat_length.
  - destruct (call_total env s id perf pwr) as (s2 & fx & Heq).
    rewrite Heq in Hstep. cbn [fst] in Hstep. injection Hstep as ->.
    destruct (call_keeps_buffer_size env s id perf pwr s' fx Heq)
      as [-> ->].
    exact IH.
  - unfold poet_set_constraint_type in Hset.
    destruct (goal >? R_ZERO); injection Hset as <-; exact IH.
Qed.

(** X14: at a period boundary an engine that logs stores one record, in
    the slot [(id / period) mod buffer_depth] of its ring buffer, and
    leaves the other slots alone.  The record carries the call's tag and
    measurements, the constraint, the workloads estimated by the filters,
    the pair and time division planned in this call (before the
    dispatcher decrements [low_state_iters] or clears [idle_ns]), and the
    filters and controllers as the call leaves them. *)
Theorem boundary_call_logs_record (env : environment) (s : poet_state)
    (id : Z) (perf pwr : real_t) (s' : poet_state) (fx : effects) :
  reachable s ->
  log_file s = true ->
  (0 < buffer_depth s)%Z ->
  POET_DISABLE_CONTROL env = false ->
  current_action s = 0%Z ->
  poet_apply_control env (Some s) id perf pwr = (Some s', fx) ->
  let slot := Z.to_nat (log_index s id) in
  let sp := planned env s perf pwr in
  (slot < length (lb s'))%nat
  /\ (forall i, i <> slot -> nth i (lb s') None = nth i (lb s) None)
  /\ exists r,
       nth slot (lb s') None = Some r
       /\ lr_tag r = id /\ lr_act_rate r = perf /\ lr_act_power r = pwr
       /\ lr_constraint r = constraint s
       /\ lr_time_workload r
          = fst (estimate_base_workload perf (u (scs s)) (pfs s))
       /\ lr_energy_workload r
          = fst (estimate_base_workload pwr (u (pcs s)) (cfs s))
       /\ lr_lower_id r = lower_id sp /\ lr_upper_id r = upper_id sp
       /\ lr_low_state_iters r = low_state_iters sp
       /\ lr_idle_ns r = idle_ns sp
       /\ (lr_pfs r, lr_cfs r, lr_scs r, lr_pcs r) = control_fields s'.
Proof.
  intros Hr Hlf Hbd Hc Hb Hcall. cbv zeta.
  pose proof (reachable_buffer_size s Hr) as Hlen.
  destruct (boundary_log env s id perf pwr s' fx Hc Hb Hcall)
    as (x & Hs & Hcon & Hcf & Hl & _).
  cbv zeta in Hl. rewrite Hlf in Hl.
  assert (Hslot : (Z.to_nat (log_index s id) < length (lb s))%nat).
  { rewrite Hlen. unfold log_index.
    pose proof (Z.mod_pos_bound (id / period s) (buffer_depth s) Hbd). lia. }
  apply schedule_fields_inv in Hs.
  destruct Hs as (Hs1 & Hs2 & Hs3 & Hs4 & _).
  rewrite Hl. split; [rewrite list_set_length; exact Hslot |].
  split; [intros i Hi; apply nth_list_set_neq; exact Hi |].
  eexists. split; [apply nth_list_set_eq; exact Hslot |].
  cbn [log_record lr_tag lr_act_rate lr_act_power lr_constraint
       lr_time_workload lr_energy_workload lr_lower_id lr_upper_id
       lr_low_state_iters lr_idle_ns lr_pfs lr_cfs lr_scs lr_pcs].
  repeat split; assumption.
Qed.

(** X15: the log file is written only at a period boundary, by a call
    whose record goes to the last slot of the buffer; the call then prints
    every slot of the buffer, in order, the one it just stored included,
    each with the engine's current constraint.  Any other call prints
    nothing. *)
Theorem log_is_flushed_when_buffer_fills (env : environment) (s : poet_state)
    (id : Z) (perf pwr : real_t) (s' : poet_state) (fx : effects) :
  reachable s ->
  poet_apply_control env (Some s) id perf pwr = (Some s', fx) ->
  printed fx
  = if negb (POET_DISABLE_CONTROL env) && (current_action s =? 0)%Z
       && log_file s && (log_index s id =? buffer_depth s - 1)%Z
    then map (pair (constraint s)) (lb s')
    else [].
Proof.
  intros Hr Hcall.
  pose proof (reachable_buffer_size s Hr) as Hlen.
  destruct (call_keeps_buffer_size env s id perf pwr s' fx Hcall)
    as [Hlen' _].
  destruct (POET_DISABLE_CONTROL env) eqn:Hc; cbn [negb andb].
  - rewrite (disabled_call env s id perf pwr Hc) in Hcall.
    injection Hcall as <- <-. reflexivity.
  - destruct (Z.eq_dec (current_action s) 0) as [Hb | Hb].
    + destruct (boundary_log env s id perf pwr s' fx Hc Hb Hcall)
        as (x & _ & _ & _ & _ & Hp).
      rewrite Hp, Hb. cbn [Z.eqb andb].
      destruct (log_file s && (log_index s id =? buffer_depth s - 1)%Z);
        [| reflexivity].
      apply print_rows. rewrite Hlen'. exact Hlen.
    + rewrite (inner_call env s id perf pwr Hc Hb) in Hcall.
      injection Hcall as <- <-. apply Z.eqb_neq in Hb. rewrite Hb.
      reflexivity.
Qed.

End Logging.

Section Seeding.

Context {K : RealKernel} {PC : PoetConstants}.
Local Open Scope real_scope.

(** ** The controller of the other dimension *)

Lemma inactive_controller_ext (a b : poet_state) :
  constraint a = constraint b -> control_fields a = control_fields b ->
  inactive_controller a = inactive_controller b.
Proof.
  unfold inactive_controller, control_fields. intros -> H.
  assert (Hs : scs a = scs b) by congruence.
  assert (Hp : pcs a = pcs b) by congruence.
  rewrite Hs, Hp. reflexivity.
Qed.

Lemma inactive_before_search (s : poet_state) (perf pwr : real_t) :
  inactive_controller (before_search s perf pwr) = inactive_controller s.
Proof.
  unfold inactive_controller, before_search.
  destruct (constraint s) eqn:Hc; simpl; rewrite ?Hc; reflexivity.
Qed.

Lemma inactive_calculate_cost_xup (y : poet_state) :
  inactive_controller (calculate_cost_xup y)
  = {| u := cost_xup_estimate y; uo := cost_xup_estimate y;
       uoo := uo (inactive_controller y);
       e := E_START; eo := EO_START;
       umin := umin (inactive_controller y);
       umax := umax (inactive_controller y) |}.
Proof.
  unfold inactive_controller, calculate_cost_xup.
  destruct (constraint y) eqn:Hc; simpl; rewrite ?Hc; reflexivity.
Qed.

(** The filters and the controllers after a boundary call. *)
Lemma boundary_control (env : environment) (s : poet_state) (id : Z)
    (perf pwr : real_t) (s' : poet_state) (fx : effects) :
  POET_DISABLE_CONTROL env = false ->
  current_action s = 0%Z ->
  poet_apply_control env (Some s) id perf pwr = (Some s', fx) ->
  pfs s' = kalman_spec perf (u (scs s)) (pfs s)
  /\ cfs s' = kalman_spec pwr (u (pcs s)) (cfs s)
  /\ constraint s' = constraint s
  /\ cost_xup_estimate s' = cost_xup_estimate (planned env s perf pwr)
  /\ inactive_controller s'
     = {| u := cost_xup_estimate s'; uo := cost_xup_estimate s';
          uoo := uo (inactive_controller s);
          e := E_START; eo := EO_START;
          umin := umin (inactive_controller s);
          umax := umax (inactive_controller s) |}.
Proof.
  intros Hc Hb Hcall.
  destruct (boundary_call env s id perf pwr Hc Hb) as (rows & Heq & Hrows).
  rewrite Heq in Hcall. injection Hcall as <- <-.
  pose proof (finish_post env (fst rows)) as P. cbv zeta in P.
  destruct P as (_ & _ & _ & _ & _ & _ & _ & _ & _ & P10 & P11 & _ & P13 & _).
  rewrite (inactive_controller_ext _ _ P13 P11), P13, P10.
  assert (Hpc : pfs (fst (finish env (fst rows))) = pfs (fst rows)
                /\ cfs (fst (finish env (fst rows))) = cfs (fst rows)).
  { unfold control_fields in P11. split; congruence. }
  destruct Hpc as [-> ->]. clear P10 P11 P13 Heq.
  subst rows.
  generalize (snd (fst (plan_period env s perf pwr)))
             (snd (plan_period env s perf pwr)).
  intros tw ew.
  destruct (fields_logger (calculate_cost_xup (planned env s perf pwr))
              id perf pwr tw ew) as (Lh & Ls & Lc).
  apply host_fields_inv in Lh.
  destruct Lh as (_ & _ & _ & Lcon & _).
  apply schedule_fields_inv in Ls.
  destruct Ls as (_ & _ & _ & _ & _ & Lx).
  rewrite (inactive_controller_ext _ _ Lcon Lc), Lcon, Lx.
  assert (Hpc : pfs (fst (logger (calculate_cost_xup (planned env s perf pwr))
                                 id perf pwr tw ew))
                = pfs (calculate_cost_xup (planned env s perf pwr))
                /\ cfs (fst (logger (calculate_cost_xup
                                       (planned env s perf pwr))
                                    id perf pwr tw ew))
                   = cfs (calculate_cost_xup (planned env s perf pwr))).
  { unfold control_fields in Lc. split; congruence. }
  destruct Hpc as [-> ->]. clear Lcon Lx Lc.
  rewrite inactive_calculate_cost_xup.
  pose proof (calculate_cost_xup_fields (planned env s perf pwr)) as C.
  cbv zeta in C. destruct C as (C1 & C2 & C3 & _).
  destruct (fields_calculate_cost_xup (planned env s perf pwr)) as [_ Cs].
  apply schedule_fields_inv in Cs.
  destruct Cs as (_ & _ & _ & _ & _ & Cx).
  rewrite C1, C2, C3, Cx. clear C1 C2 C3 Cx.
  assert (Hin : inactive_controller (planned env s perf pwr)
                = inactive_controller s
                /\ pfs (planned env s perf pwr)
                   = kalman_spec perf (u (scs s)) (pfs s)
                /\ cfs (planned env s perf pwr)
                   = kalman_spec pwr (u (pcs s)) (cfs s)
                /\ constraint (planned env s perf pwr) = constraint s).
  { rewrite planned_eq.
    generalize (search env (before_search s perf pwr)
                       (search_workload s perf pwr)).
    intros b.
    pose proof (before_search_fields s perf pwr) as B. cbv zeta in B.
    destruct B as (B1 & B2 & B3 & _).
    rewrite <- B1, <- B2, <- B3, <- (inactive_before_search s perf pwr).
    generalize (before_search s perf pwr). intros x.
    repeat split. }
  destruct Hin as (-> & -> & -> & ->).
  generalize (cost_xup_estimate (planned env s perf pwr)). intros cx.
  repeat split.
Qed.

(** X16: a boundary call does not run the controller of the dimension
    that is not constrained; it overwrites its output, and its previous
    output, with the cost xup of the planned pair, keeps the output before
    that, resets both of its errors and leaves its range alone, so that
    this output is not clamped. *)
Theorem other_controller_is_reseeded (env : environment) (s : poet_state)
    (id : Z) (perf pwr : real_t) (s' : poet_state) (fx : effects) :
  POET_DISABLE_CONTROL env = false ->
  current_action s = 0%Z ->
  poet_apply_control env (Some s) id perf pwr = (Some s', fx) ->
  let o := inactive_controller s in
  let o' := inactive_controller s' in
  cost_xup_estimate s' = cost_xup_estimate (planned env s perf pwr)
  /\ u o' = cost_xup_estimate s' /\ uo o' = cost_xup_estimate s'
  /\ uoo o' = uo o /\ e o' = E_START /\ eo o' = EO_START
  /\ umin o' = umin o /\ umax o' = umax o.
Proof.
  intros Hc Hb Hcall. cbv zeta.
  destruct (boundary_control env s id perf pwr s' fx Hc Hb Hcall)
    as (_ & _ & _ & Hx & ->).
  cbn [u uo uoo e eo umin umax]. repeat split. exact Hx.
Qed.

End Seeding.

Section ExactControl.

Context {PC : @PoetConstants exact_kernel}.

(** ** The filter and the controller in exact arithmetic *)







End ExactControl.

(** * Concrete runs

    The engine on small tables, in exact arithmetic and with the sample
    constants. *)

Section Samples.

#[local] Existing Instance sample_constants.
Local Open Scope Q_scope.
Local Open Scope string_scope.

Ltac from_init :=
  match goal with
  | |- exists s, ?r = Engine s /\ _ =>
      let v := eval vm_compute in r in
      lazymatch v with
      | Engine ?s0 => exists s0; split; [vm_compute; reflexivity |]
      end
  end.

Ltac from_call :=
  match goal with
  | |- exists s fx, ?r = (Some s, fx) /\ _ =>
      let v := eval vm_compute in r in
      lazymatch v with
      | (Some ?s0, ?fx0) => exists s0, fx0; split; [vm_compute; reflexivity |]
      end
  end.

(** C1, as stated, fails: a log file with [buffer_depth = 0] satisfies the
    precondition of the specification and is rejected with [EINVAL]; a
    buffer without a log file violates it and yields an engine. *)
Lemma buffered_logging_counterexample :
  spec_precondition (K := exact_kernel) 1 1 (Some slow_table) 1 0
                    (Some "poet.log")
  /\ poet_init all_ok 1 PERFORMANCE 1 (Some slow_table) 0 true None 1 0
               (Some "poet.log") = Null_EINVAL
  /\ ~ spec_precondition (K := exact_kernel) 1 1 (Some slow_table) 1 1 None
  /\ exists s, poet_init all_ok 1 PERFORMANCE 1 (Some slow_table) 0 true None
                         1 1 None = Engine s
               /\ buffer_depth s = 1%Z.
Proof.
  split; [| split; [| split]].
  - unfold spec_precondition. repeat split; try reflexivity.
    + discriminate.
    + left. reflexivity.
  - reflexivity.
  - unfold spec_precondition. intros (_ & _ & _ & _ & [H | H]).
    + discriminate.
    + apply H. reflexivity.
  - from_init. reflexivity.
Qed.

(** C2, as stated, fails: with a single state of speedup one half no pair
    qualifies, and the first call leaves the powerup controller at
    [u = -1], below its [umin = 1]. *)
Lemma powerup_out_of_range_counterexample :
  exists s0,
    poet_init all_ok 1 PERFORMANCE 1 (Some slow_table) 0 true None 1 0 None
    = Engine s0
    /\ exists s1 fx,
      poet_apply_control env_unset (Some s0) 0 1 1 = (Some s1, fx)
      /\ rlt (u (pcs s1)) (umin (pcs s1)) = true
      /\ Qeq_bool (u (pcs s1)) (-1) = true
      /\ Qeq_bool (umin (pcs s1)) 1 = true.
Proof.
  from_init. from_call. repeat split; vm_compute; reflexivity.
Qed.

(** C3, as stated, fails: the schedule does not remain as last computed.
    A first call schedules state 0; after a switch to a power constraint no
    pair qualifies and the next call overwrites the schedule. *)
Lemma schedule_overwritten_counterexample :
  exists s0,
    poet_init all_ok 1 PERFORMANCE 1 (Some cheap_table) 0 true None 1 0 None
    = Engine s0
    /\ exists s1 fx1,
      poet_apply_control env_unset (Some s0) 0 1 1 = (Some s1, fx1)
      /\ (lower_id s1, upper_id s1, low_state_iters s1) = (0, 0, 0)%Z
      /\ current_action s1 = 0%Z
      /\ candidates env_unset
           (before_search (set_constraint_goal 1 (set_constraint POWER s1))
                          1 1) = []
      /\ exists s2 fx2,
        poet_apply_control env_unset
          (poet_set_constraint_type (Some s1) POWER 1) 1 1 1 = (Some s2, fx2)
        /\ (lower_id s2, upper_id s2, low_state_iters s2) = (-1, -1, -1)%Z.
Proof.
  from_init. from_call.
  split; [vm_compute; reflexivity |].
  split; [vm_compute; reflexivity |].
  split; [vm_compute; reflexivity |].
  from_call. vm_compute. reflexivity.
Qed.

(** C4, as stated, fails: under a power constraint with
    [POET_DISABLE_IDLE] set, the search selects as lower state a state
    whose speedup is below one (its cost is one). *)
Lemma idle_disabled_counterexample :
  exists s0,
    poet_init all_ok 1 POWER 1 (Some slow_table) 0 true None 1 0 None
    = Engine s0
    /\ lower_id (planned env_no_idle s0 1 1) = 0%Z
    /\ rlt (speedup (state_at (control_states s0)
                              (lower_id (planned env_no_idle s0 1 1))))
           R_ONE = true.
Proof.
  from_init. split; vm_compute; reflexivity.
Qed.


(** C8, as stated, fails: for a single state of speedup two the least
    non-zero speedup is two, yet [umin] is one; for a single state of
    speedup one half the greatest speedup is one half, yet [umax] is one. *)
Lemma ranges_seeded_with_one_counterexample :
  (exists s,
      poet_init all_ok 1 PERFORMANCE 1 (Some fast_table) 0 true None 1 0 None
      = Engine s
      /\ spec_umin U_MIN_SPEEDUP (map speedup fast_table) = Some 2
      /\ rlt (umin (scs s)) 2 = true)
  /\ (exists s,
         poet_init all_ok 1 PERFORMANCE 1 (Some slow_table) 0 true None 1 0
                   None = Engine s
         /\ spec_umax (map speedup slow_table) = Some (1 # 2)
         /\ rlt (1 # 2) (umax (scs s)) = true).
Proof.
  split; from_init; split; vm_compute; reflexivity.
Qed.

(** ** The theorems at concrete inputs *)

Lemma poet_init_rejects_exactly_witness :
  exists s, poet_init all_ok 1 PERFORMANCE 1 (Some slow_table) 0 true None
                      1 1 (Some "poet.log") = Engine s.
Proof.
  apply (proj2 (poet_init_rejects_exactly (K := exact_kernel) all_ok 1
                  PERFORMANCE 1
                  (Some slow_table) 0 true None 1 1 (Some "poet.log"))).
  - unfold rejected. intros [H | [H | [H | [H | [H _]]]]]; discriminate.
  - reflexivity.
  - reflexivity.
  - reflexivity.
Defined.

Lemma active_controller_in_range_witness :
  exists s0,
    poet_init all_ok 1 PERFORMANCE 1 (Some slow_table) 0 true None 1 0 None
    = Engine s0
    /\ exists s1 fx,
      poet_apply_control env_unset (Some s0) 0 1 1 = (Some s1, fx)
      /\ rle (umin (active_controller s1)) (u (active_controller s1)) = true
      /\ rle (u (active_controller s1)) (umax (active_controller s1)) = true.
Proof.
  from_init.
  match goal with
  | |- exists s1 fx, poet_apply_control ?env (Some ?s0) ?id ?perf ?pwr = _ /\ _ =>
      from_call;
      match goal with
      | |- rle (umin (active_controller ?s1)) _ = true /\ _ =>
          apply (active_controller_in_range s0 env id perf pwr s1
                   (snd (poet_apply_control env (Some s0) id perf pwr)))
      end
  end.
  - apply (reach_init (K := exact_kernel) all_ok 1 PERFORMANCE 1
             (Some slow_table) 0%Z true None
             1%Z 0%Z None).
    vm_compute. reflexivity.
  - reflexivity.
  - reflexivity.
  - vm_compute. reflexivity.
Defined.

Lemma no_pair_means_no_dispatch_witness :
  exists s0,
    poet_init all_ok 1 PERFORMANCE 1 (Some slow_table) 0 true None 2 0 None
    = Engine s0
    /\ exists s' fx,
      poet_apply_control env_unset (Some s0) 0 1 1 = (Some s', fx)
      /\ lower_id s' = (-1)%Z /\ upper_id s' = (-1)%Z
      /\ low_state_iters s' = (-1)%Z /\ idle_ns s' = 0%Z
      /\ applied fx = None
      /\ forall calls : list call,
          (Z.of_nat (length calls) < period s0)%Z ->
          Forall (fun fx => applied fx = None) (snd (run (Some s') calls))
          /\ exists s'', fst (run (Some s') calls) = Some s''
                         /\ lower_id s'' = (-1)%Z /\ upper_id s'' = (-1)%Z
                         /\ low_state_iters s'' = (-1)%Z
                         /\ idle_ns s'' = 0%Z.
Proof.
  from_init.
  match goal with
  | |- exists s' fx, poet_apply_control ?env (Some ?s0) ?id ?perf ?pwr = _ /\ _ =>
      apply (no_pair_means_no_dispatch env s0 id perf pwr)
  end.
  - reflexivity.
  - reflexivity.
  - reflexivity.
  - vm_compute. reflexivity.
Defined.

Lemma pair_search_selects_best_witness :
  exists s0,
    poet_init all_ok 1 POWER 1 (Some slow_table) 0 true None 1 0 None
    = Engine s0
    /\ rlt (get_control_xup s0
              (lower_id (translate_n2_with_time env_no_idle s0 1)))
           R_ONE = false.
Proof.
  from_init.
  match goal with
  | |- rlt (get_control_xup ?s0
              (lower_id (translate_n2_with_time ?env ?s0 ?w))) _ = _ =>
      apply (proj2 (proj2 (proj2 (pair_search_selects_best env s0 w))))
  end.
  - reflexivity.
  - vm_compute. discriminate.
Defined.


Lemma filters_follow_recurrence_witness :
  exists s0,
    poet_init all_ok 1 PERFORMANCE 1 (Some cheap_table) 0 true None 1 0 None
    = Engine s0
    /\ exists s' fx sp time_workload energy_workload,
      poet_apply_control env_unset (Some s0) 0 1 1 = (Some s', fx)
      /\ plan_period env_unset s0 1 1 = (sp, time_workload, energy_workload)
      /\ pfs s' = kalman_spec 1 (u (scs s0)) (pfs s0)
      /\ cfs s' = kalman_spec 1 (u (pcs s0)) (cfs s0)
      /\ time_workload = div R_ONE (x_hat (pfs s'))
      /\ energy_workload = div R_ONE (x_hat (cfs s')).
Proof.
  from_init.
  match goal with
  | |- exists s' fx sp tw ew,
        poet_apply_control ?env (Some ?s0) ?id ?perf ?pwr = _ /\ _ =>
      apply (filters_follow_recurrence env s0 id perf pwr)
  end.
  - reflexivity.
  - reflexivity.
Defined.

Lemma init_ranges_from_table_witness :
  exists s0,
    poet_init all_ok 1 PERFORMANCE 2 (Some two_table) 0 true None 1 0 None
    = Engine s0
    /\ exists table,
      Some two_table = Some table
      /\ is_min_of (umin (scs s0))
           (R_ONE :: map (fun en => floor_at U_MIN_SPEEDUP (speedup en))
                         (entries table 2))
      /\ is_max_of (umax (scs s0)) (R_ONE :: map speedup (entries table 2))
      /\ is_min_of (umin (pcs s0))
           (R_ONE :: map (fun en => floor_at U_MIN_COST (cost en))
                         (entries table 2))
      /\ is_max_of (umax (pcs s0)) (R_ONE :: map cost (entries table 2)).
Proof.
  from_init.
  match goal with
  | |- exists table, _ /\ is_min_of (umin (scs ?s0)) _ /\ _ =>
      apply (init_ranges_from_table (K := exact_kernel) all_ok 1 PERFORMANCE 2
               (Some two_table)
               0%Z true None 1%Z 0%Z None s0)
  end.
  vm_compute. reflexivity.
Defined.

Lemma control_disabled_is_noop_witness :
  exists s0,
    poet_init all_ok 1 PERFORMANCE 1 (Some cheap_table) 0 true None 1 0 None
    = Engine s0
    /\ poet_apply_control env_no_control (Some s0) 0 1 1
       = (Some s0, no_effects).
Proof.
  from_init. apply (proj1 control_disabled_is_noop). reflexivity.
Defined.

Lemma set_constraint_type_frame_witness :
  exists s0,
    poet_init all_ok 1 PERFORMANCE 1 (Some cheap_table) 0 true None 1 0 None
    = Engine s0
    /\ poet_set_constraint_type (Some s0) POWER 0 = Some s0.
Proof.
  from_init. apply (proj1 (proj2 set_constraint_type_frame)). reflexivity.
Defined.

End Samples.

(** * Further concrete runs

    The properties above on a table of two states, with a log file and a
    buffer of two records, in exact arithmetic and with the sample
    constants. *)

Section MoreSamples.

#[local] Existing Instance sample_constants.
Local Open Scope Q_scope.
Local Open Scope string_scope.

Ltac init_then k :=
  match goal with
  | |- exists s, ?r = Engine s /\ _ =>
      let v := eval vm_compute in r in
      lazymatch v with
      | Engine ?s0 => exists s0; split; [vm_compute; reflexivity | k s0]
      end
  end.

Ltac call_then k :=
  match goal with
  | |- exists s fx, ?r = (Some s, fx) /\ _ =>
      let v := eval vm_compute in r in
      lazymatch v with
      | (Some ?s1, ?fx1) =>
          exists s1, fx1; split; [vm_compute; reflexivity | k s1 fx1]
      end
  end.

Ltac by_evaluation :=
  first [ reflexivity | vm_compute; reflexivity | vm_compute; discriminate
        | vm_compute; split; (reflexivity || discriminate) ].

Ltac is_reachable :=
  apply (reach_init (K := exact_kernel) all_ok 1 PERFORMANCE 2
           (Some two_table) 0%Z true None 4%Z 2%Z (Some "poet.log"));
  vm_compute; reflexivity.

Lemma action_counter_advances_witness :
  exists s0,
    poet_init all_ok 1 PERFORMANCE 2 (Some two_table) 0 true None 4 2
              (Some "poet.log") = Engine s0
    /\ exists s1 fx,
      poet_apply_control env_unset (Some s0) 0 1 1 = (Some s1, fx)
      /\ current_action s1 = ((current_action s0 + 1) mod period s0)%Z.
Proof.
  init_then ltac:(fun s0 => call_then ltac:(fun s1 fx =>
    refine (proj1 (proj2 (proj2 (action_counter_advances env_unset s0 0 1 1
                                   s1 fx _ _ _ _)))); by_evaluation)).
Defined.

Lemma action_counter_over_run_witness :
  exists s0,
    poet_init all_ok 1 PERFORMANCE 2 (Some two_table) 0 true None 4 2
              (Some "poet.log") = Engine s0
    /\ exists s',
      fst (run (Some s0)
               [ {| c_env := env_unset; c_id := 0; c_perf := 1; c_pwr := 1 |};
                 {| c_env := env_no_control; c_id := 1; c_perf := 1;
                    c_pwr := 1 |};
                 {| c_env := env_unset; c_id := 2; c_perf := 1; c_pwr := 1 |} ])
      = Some s'
      /\ period s' = period s0
      /\ current_action s' = ((current_action s0 + 2) mod period s0)%Z.
Proof.
  init_then ltac:(fun s0 =>
    refine (action_counter_over_run
              [ {| c_env := env_unset; c_id := 0; c_perf := 1; c_pwr := 1 |};
                {| c_env := env_no_control; c_id := 1; c_perf := 1;
                   c_pwr := 1 |};
                {| c_env := env_unset; c_id := 2; c_perf := 1; c_pwr := 1 |} ]
              s0 _ _); by_evaluation).
Defined.

Lemma inner_call_keeps_plan_witness :
  exists s0,
    poet_init all_ok 1 PERFORMANCE 2 (Some two_table) 0 true None 4 2
              (Some "poet.log") = Engine s0
    /\ exists s1 fx1,
      poet_apply_control env_unset (Some s0) 0 1 1 = (Some s1, fx1)
      /\ exists s2 fx2,
        poet_apply_control env_unset (Some s1) 1 1 1 = (Some s2, fx2)
        /\ control_fields s2 = control_fields s1.
Proof.
  init_then ltac:(fun s0 => call_then ltac:(fun s1 fx1 =>
    call_then ltac:(fun s2 fx2 =>
      refine (proj1 (inner_call_keeps_plan env_unset s1 1 1 1 s2 fx2 _ _ _));
      by_evaluation))).
Defined.

Lemma apply_callback_contract_witness :
  exists s0,
    poet_init all_ok 1 PERFORMANCE 2 (Some two_table) 0 true None 4 2
              (Some "poet.log") = Engine s0
    /\ exists s1 fx,
      poet_apply_control env_unset (Some s0) 0 1 1 = (Some s1, fx)
      /\ forall c, applied fx = Some c ->
           ac_id c = chosen_config (scheduled env_unset s0 1 1)
           /\ (0 <= ac_id c)%Z
           /\ (ac_id c <> last_id s0 \/ (0 < is_first_apply s0)%Z)
           /\ ac_last_id c = last_id s0
           /\ ac_is_first_apply c = is_first_apply s0
           /\ ac_num_states c = num_system_states s0
           /\ ac_apply_states c = apply_states s0
           /\ ac_idle_ns c = idle_ns (scheduled env_unset s0 1 1)
           /\ apply s0 = true /\ POET_DISABLE_APPLY env_unset = false
           /\ last_id s1 = ac_id c /\ is_first_apply s1 = 0%Z
           /\ idle_ns s1 = 0%Z.
Proof.
  init_then ltac:(fun s0 => call_then ltac:(fun s1 fx =>
    refine (proj1 (apply_callback_contract env_unset s0 0 1 1 s1 fx _ _));
    by_evaluation)).
Defined.

Lemma last_id_follows_schedule_witness :
  exists s0,
    poet_init all_ok 1 PERFORMANCE 2 (Some two_table) 0 true None 4 2
              (Some "poet.log") = Engine s0
    /\ exists s1 fx,
      poet_apply_control env_unset (Some s0) 0 1 1 = (Some s1, fx)
      /\ ((0 <= chosen_config (scheduled env_unset s0 1%Q 1%Q))%Z ->
          last_id s1 = chosen_config (scheduled env_unset s0 1 1)).
Proof.
  init_then ltac:(fun s0 => call_then ltac:(fun s1 fx =>
    refine (proj1 (last_id_follows_schedule env_unset s0 0 1 1 s1 fx _ _));
    by_evaluation)).
Defined.

Lemma apply_disabled_skips_callback_only_witness :
  exists s0,
    poet_init all_ok 1 PERFORMANCE 2 (Some two_table) 0 true None 4 2
              (Some "poet.log") = Engine s0
    /\ applied (snd (poet_apply_control (with_apply_disabled env_unset)
                       (Some s0) 0 1 1)) = None.
Proof.
  init_then ltac:(fun s0 =>
    refine (proj1 (apply_disabled_skips_callback_only env_unset s0 0 1 1 _));
    by_evaluation).
Defined.

(** The idle state is scheduled at the boundary and the callback is
    handed its idle time once, on the first of the three calls. *)
Lemma idle_at_most_once_per_period_witness :
  exists s0,
    poet_init all_ok (1 # 2) PERFORMANCE 3 (Some idle_table) 0 true None 4 0
              None = Engine s0
    /\ (exists a,
          idle_calls
            (snd (run (Some s0)
                    [ {| c_env := env_unset; c_id := 0%Z;
                         c_perf := 1%Q; c_pwr := 1%Q |};
                      {| c_env := env_unset; c_id := 1%Z;
                         c_perf := 1%Q; c_pwr := 1%Q |};
                      {| c_env := env_unset; c_id := 2%Z;
                         c_perf := 1%Q; c_pwr := 1%Q |} ])) = [a]
          /\ ac_id a = 0%Z /\ (0 < ac_idle_ns a)%Z)
    /\ (length (idle_calls
                  (snd (run (Some s0)
                          [ {| c_env := env_unset; c_id := 0%Z;
                               c_perf := 1%Q; c_pwr := 1%Q |};
                            {| c_env := env_unset; c_id := 1%Z;
                               c_perf := 1%Q; c_pwr := 1%Q |};
                            {| c_env := env_unset; c_id := 2%Z;
                               c_perf := 1%Q; c_pwr := 1%Q |} ])))
        <= 1)%nat.
Proof.
  init_then ltac:(fun s0 =>
    split;
    [ eexists; split; [vm_compute; reflexivity | split; reflexivity]
    | refine (idle_at_most_once_per_period s0
                {| c_env := env_unset; c_id := 0; c_perf := 1; c_pwr := 1 |}
                [ {| c_env := env_unset; c_id := 1; c_perf := 1; c_pwr := 1 |};
                  {| c_env := env_unset; c_id := 2; c_perf := 1;
                     c_pwr := 1 |} ] _ _ _); by_evaluation ]).
Defined.

Lemma configuration_is_constant_witness :
  exists s0,
    poet_init all_ok 1 PERFORMANCE 2 (Some two_table) 0 true None 4 2
              (Some "poet.log") = Engine s0
    /\ exists s1 fx,
      poet_apply_control env_unset (Some s0) 0 1 1 = (Some s1, fx)
      /\ configuration s1 = configuration s0.
Proof.
  init_then ltac:(fun s0 => call_then ltac:(fun s1 fx =>
    refine (configuration_is_constant env_unset s0 0 1 1 s1 _);
    by_evaluation)).
Defined.

Lemma fresh_engine_witness :
  exists s0,
    poet_init all_ok 1 PERFORMANCE 2 (Some two_table) 0 true None 4 2
              (Some "poet.log") = Engine s0
    /\ last_id s0 = 1%Z /\ is_first_apply s0 = 1%Z /\ upper_id s0 = (-1)%Z.
Proof.
  init_then ltac:(fun s0 =>
    destruct (fresh_engine (K := exact_kernel) all_ok 1 PERFORMANCE 2
                (Some two_table) 0%Z true None 4%Z 2%Z (Some "poet.log") s0)
      as (table & _ & _ & _ & _ & _ & _ & _ & _ & Hl & Hf & _ & _ & Hu & _);
    [ by_evaluation
    | split; [exact Hl | split; [exact Hf | exact Hu]] ]).
Defined.

Lemma applied_id_is_in_table_witness :
  exists s0,
    poet_init all_ok 1 PERFORMANCE 2 (Some two_table) 0 true None 4 2
              (Some "poet.log") = Engine s0
    /\ exists s1 fx,
      poet_apply_control env_unset (Some s0) 0 1 1 = (Some s1, fx)
      /\ exists c, applied fx = Some c
                   /\ (0 <= ac_id c < ac_num_states c)%Z.
Proof.
  init_then ltac:(fun s0 => call_then ltac:(fun s1 fx =>
    let v := eval vm_compute in (applied fx) in
    lazymatch v with
    | Some ?c =>
        exists c; split; [reflexivity |];
        refine (proj1 (applied_id_is_in_table env_unset s0 0 1 1 s1 fx c
                         _ _ _));
        [ is_reachable | by_evaluation | by_evaluation ]
    end)).
Defined.

Lemma boundary_call_logs_record_witness :
  exists s0,
    poet_init all_ok 1 PERFORMANCE 2 (Some two_table) 0 true None 4 2
              (Some "poet.log") = Engine s0
    /\ exists s1 fx,
      poet_apply_control env_unset (Some s0) 4 1 1 = (Some s1, fx)
      /\ forall i, i <> Z.to_nat (log_index s0 4) ->
                   nth i (lb s1) None = nth i (lb s0) None.
Proof.
  init_then ltac:(fun s0 => call_then ltac:(fun s1 fx =>
    refine (proj1 (proj2 (boundary_call_logs_record env_unset s0 4 1 1 s1 fx
                            _ _ _ _ _ _)));
    [ is_reachable | by_evaluation .. ])).
Defined.

Lemma log_is_flushed_when_buffer_fills_witness :
  exists s0,
    poet_init all_ok 1 PERFORMANCE 2 (Some two_table) 0 true None 4 2
              (Some "poet.log") = Engine s0
    /\ exists s1 fx,
      poet_apply_control env_unset (Some s0) 4 1 1 = (Some s1, fx)
      /\ printed fx
         = if negb (POET_DISABLE_CONTROL env_unset)
              && (current_action s0 =? 0)%Z && log_file s0
              && (log_index s0 4 =? buffer_depth s0 - 1)%Z
           then map (pair (constraint s0)) (lb s1)
           else [].
Proof.
  init_then ltac:(fun s0 => call_then ltac:(fun s1 fx =>
    refine (log_is_flushed_when_buffer_fills env_unset s0 4 1 1 s1 fx _ _);
    [ is_reachable | by_evaluation ])).
Defined.

Lemma other_controller_is_reseeded_witness :
  exists s0,
    poet_init all_ok 1 PERFORMANCE 2 (Some two_table) 0 true None 4 2
              (Some "poet.log") = Engine s0
    /\ exists s1 fx,
      poet_apply_control env_unset (Some s0) 0 1 1 = (Some s1, fx)
      /\ cost_xup_estimate s1 = cost_xup_estimate (planned env_unset s0 1 1).
Proof.
  init_then ltac:(fun s0 => call_then ltac:(fun s1 fx =>
    refine (proj1 (other_controller_is_reseeded env_unset s0 0 1 1 s1 fx
                     _ _ _));
    by_evaluation)).
Defined.




End MoreSamples.
